(** * AI_Interview: the session orchestration engine, embedded in Rocq

    The development follows the Python sources under [src/services]:
    - [stt.py]    the streaming audio processor (flags, queue, restart policy,
                  silence based utterance segmentation);
    - [flow.py]   the dialogue orchestrator (question counting, stop intent,
                  transcript processing, closing sequence);
    - [report.py] report assembly (question/answer pairing, the report
                  that is returned, rule based fallback analysis).

    Conventions.
    - Python text is a [string]: a sequence of code points below 256.
    - A reading of [time.time()] is an integer number of milliseconds.
    - A Python [dict] with a fixed set of keys is a record of [option]s, a key
      being present exactly when its field is [Some].
    - The process wide [sessions] dictionary is a [gmap] keyed by session id.
    - Library calls ([re.sub], [json.loads], the speech and dialogue back
      ends, [random.choice]) are parameters of the sections that use them.
    - A call of a method and a step of a thread (one response read, one
      silence check, one round of the worker's loop) are taken as a whole;
      the order of such steps is free. The silence check, which holds no
      lock, is also given statement by statement, with the statements of
      several checks interleaved. *)

From Stdlib Require Import ZArith QArith Qround List String Ascii Bool Lia Permutation DecimalString.
From Stdlib.Strings Require Import Byte.
From stdpp Require Import base option list strings gmap.
Import ListNotations.

Local Open Scope Z_scope.

(** ** Python string primitives *)

Module PyStr.

(** [str.isspace] on one code point below 256. *)
Definition is_space (c : ascii) : bool :=
  let n := nat_of_ascii c in
  ((9 <=? n) && (n <=? 13) || (28 <=? n) && (n <=? 32)
   || (n =? 133) || (n =? 160))%nat.

(** [str.lower] on one code point below 256: A-Z and the accented capitals
    of Latin-1 (all of 192..222 but the multiplication sign 215). *)
Definition lower_char (c : ascii) : ascii :=
  let n := nat_of_ascii c in
  if ((65 <=? n) && (n <=? 90)
      || (192 <=? n) && (n <=? 222) && negb (n =? 215))%nat
  then ascii_of_nat (n + 32) else c.

Fixpoint lower (s : string) : string :=
  match s with
  | EmptyString => EmptyString
  | String c s' => String (lower_char c) (lower s')
  end.

(** [len(s)] *)
Definition len (s : string) : Z := Z.of_nat (String.length s).

Fixpoint lstrip (s : string) : string :=
  match s with
  | EmptyString => EmptyString
  | String c s' => if is_space c then lstrip s' else s
  end.

(** [rstrip] keeps a character when it is not a space or when something
    that is kept follows it. *)
Fixpoint rstrip (s : string) : string :=
  match s with
  | EmptyString => EmptyString
  | String c s' =>
      match rstrip s' with
      | EmptyString => if is_space c then EmptyString else String c EmptyString
      | r => String c r
      end
  end.

(** [s.strip()] *)
Definition strip (s : string) : string := rstrip (lstrip s).

(** [s.isspace()]: at least one character and all of them white space. *)
Fixpoint all_space (s : string) : bool :=
  match s with
  | EmptyString => true
  | String c s' => is_space c && all_space s'
  end.

Definition isspace (s : string) : bool :=
  match s with
  | EmptyString => false
  | _ => all_space s
  end.

(** Truth value of a string in a condition: non empty. *)
Definition truthy (s : string) : bool :=
  match s with
  | EmptyString => false
  | _ => true
  end.

(** [s.startswith(p)] *)
Fixpoint startswith (p s : string) : bool :=
  match p, s with
  | EmptyString, _ => true
  | String a p', String b s' => if Ascii.eqb a b then startswith p' s' else false
  | String _ _, EmptyString => false
  end.

(** [p in s] for two strings: [p] occurs in [s] as a contiguous block. *)
Fixpoint contains (p s : string) : bool :=
  startswith p s ||
  match s with
  | EmptyString => false
  | String _ s' => contains p s'
  end.

(** [s[n:]] *)
Fixpoint drop (n : nat) (s : string) : string :=
  match n, s with
  | O, _ => s
  | S n', String _ s' => drop n' s'
  | S _, EmptyString => EmptyString
  end.

(** [s[:n]] *)
Fixpoint take (n : nat) (s : string) : string :=
  match n, s with
  | O, _ => EmptyString
  | S n', String c s' => String c (take n' s')
  | S _, EmptyString => EmptyString
  end.

(** [s.endswith(p)] *)
Definition endswith (p s : string) : bool :=
  (String.length p <=? String.length s)%nat
  && String.eqb (drop (String.length s - String.length p) s) p.

(** [s[:-n]] for [n > 0]. *)
Definition drop_end (n : nat) (s : string) : string :=
  take (String.length s - n) s.

(** [s.split()]: the maximal runs of characters that are not white space.
    [cur] is the run being read, in reverse. *)
Fixpoint split_aux (cur : list ascii) (s : string) : list string :=
  let flush := match cur with
               | [] => []
               | _ => [string_of_list_ascii (rev cur)]
               end in
  match s with
  | EmptyString => flush
  | String c s' =>
      if is_space c then flush ++ split_aux [] s'
      else split_aux (c :: cur) s'
  end.

Definition split (s : string) : list string := split_aux [] s.

(** [str(n)] for an integer. *)
Definition str_of_Z (n : Z) : string :=
  DecimalString.NilZero.string_of_int (Z.to_int n).

(** A string begins with a character that is not white space. *)
Definition starts_solid (s : string) : Prop :=
  match s with
  | EmptyString => False
  | String c _ => is_space c = false
  end.

(** *** [format(value, spec)] for a [str] value

    The format spec of a replacement field of an f-string is read as
    [[[fill]align][sign]["z"]["#"]["0"][width][grouping]["." precision][type]];
    for a [str] the sign, ["z"], ["#"], the grouping, the alignment ["="] and
    every type but ["s"] raise [ValueError], as does a spec that is not of
    that form. *)

Definition is_align (c : ascii) : bool :=
  (Ascii.eqb c "<" || Ascii.eqb c ">" || Ascii.eqb c "^" || Ascii.eqb c "=").

Definition is_digit (c : ascii) : bool :=
  ((48 <=? nat_of_ascii c) && (nat_of_ascii c <=? 57))%nat.

(** The decimal number a text begins with, when it begins with a digit, and
    what follows it. *)
Fixpoint get_integer (acc : option nat) (s : string) : option nat * string :=
  match s with
  | String c s' =>
      if is_digit c
      then get_integer (Some (10 * default 0%nat acc
                              + (nat_of_ascii c - 48))%nat) s'
      else (acc, s)
  | EmptyString => (acc, s)
  end.

Fixpoint repeat_char (c : ascii) (n : nat) : string :=
  match n with
  | O => EmptyString
  | S n' => String c (repeat_char c n')
  end.

(** [None] is [ValueError]. *)
Definition str_format (value spec : string) : option string :=
  let '(fill, align, s) :=
    match spec with
    | String f (String a r) =>
        if is_align a then (Some f, Some a, r)
        else if is_align f then (None, Some f, String a r)
        else (None, None, spec)
    | String a EmptyString =>
        if is_align a then (None, Some a, EmptyString) else (None, None, spec)
    | EmptyString => (None, None, spec)
    end in
  let refused :=
    match s with
    | String c _ =>
        Ascii.eqb c "+" || Ascii.eqb c "-" || Ascii.eqb c " "
        || Ascii.eqb c "z" || Ascii.eqb c "#"
    | EmptyString => false
    end in
  if refused then None
  else
    let '(fill, s) :=
      match fill, s with
      | None, String "0"%char s' => (Some "0"%char, s')
      | _, _ => (fill, s)
      end in
    let '(width, s) := get_integer None s in
    match s with
    | String ","%char _ | String "_"%char _ => None
    | _ =>
        let '(precision, s, missing) :=
          match s with
          | String "."%char s' =>
              let '(n, s'') := get_integer None s' in
              (n, s'', negb (bool_decide (is_Some n)))
          | _ => (None, s, false)
          end in
        if missing then None
        else if negb (String.eqb s "" || String.eqb s "s") then None
        else
          match align with
          | Some "="%char => None
          | _ =>
              let text :=
                match precision with
                | Some n => take n value
                | None => value
                end in
              let room := (default 0%nat width - String.length text)%nat in
              let left :=
                match align with
                | Some ">"%char => room
                | Some "^"%char => (room / 2)%nat
                | _ => 0%nat
                end in
              let c := default " "%char fill in
              Some (repeat_char c left +:+ text
                    +:+ repeat_char c (room - left))
          end
    end.

End PyStr.

(** ** The streaming audio processor ([services/stt.py]) *)

Module Stt.

(** A reading of [time.time()], in milliseconds. *)
Definition time := Z.

(** The constants set in [StreamingAudioProcessor.__init__]. *)
Definition SILENCE_THRESHOLD : Z := 3000.
Definition max_restarts : Z := 10.
Definition restart_cooldown : Z := 2000.
Definition queue_maxsize : nat := 100.
Definition max_consecutive_errors : Z := 3.

(** One chunk of audio. *)
Definition chunk := list byte.

(** The attributes of a [StreamingAudioProcessor] that its methods read and
    write. [audio_queue] is the FIFO [queue.Queue(maxsize=100)], oldest item
    first; the item [None] is the shutdown signal. The recognition
    configuration and the thread and stream handles are left out. *)
Record processor := {
  audio_queue : list (option chunk);
  is_running : bool;
  is_listening : bool;
  current_transcript : string;
  last_final_time : option time;
  restart_count : Z;
  last_restart_time : time;
  last_audio_time : time
}.

(** [__init__], called at time [now]. *)
Definition init (now : time) : processor :=
  {| audio_queue := []; is_running := false; is_listening := false;
     current_transcript := ""; last_final_time := None;
     restart_count := 0; last_restart_time := 0; last_audio_time := now |}.

Definition set_queue (q : list (option chunk)) (p : processor) : processor :=
  {| audio_queue := q; is_running := is_running p;
     is_listening := is_listening p;
     current_transcript := current_transcript p;
     last_final_time := last_final_time p;
     restart_count := restart_count p;
     last_restart_time := last_restart_time p;
     last_audio_time := last_audio_time p |}.

Definition set_segment (txt : string) (t : option time) (p : processor)
  : processor :=
  {| audio_queue := audio_queue p; is_running := is_running p;
     is_listening := is_listening p;
     current_transcript := txt; last_final_time := t;
     restart_count := restart_count p;
     last_restart_time := last_restart_time p;
     last_audio_time := last_audio_time p |}.

(** [start]: nothing when already running; the worker thread it launches is
    [stream_audio] below. *)
Definition start (p : processor) : processor :=
  if is_running p then p
  else {| audio_queue := audio_queue p; is_running := true;
          is_listening := true;
          current_transcript := current_transcript p;
          last_final_time := last_final_time p;
          restart_count := 0; last_restart_time := 0;
          last_audio_time := last_audio_time p |}.

(** [stop]: nothing when not running; otherwise both flags are cleared, the
    queue is emptied and the shutdown signal [None] is put on it. *)
Definition stop (p : processor) : processor :=
  if negb (is_running p) then p
  else {| audio_queue := [None]; is_running := false;
          is_listening := false;
          current_transcript := current_transcript p;
          last_final_time := last_final_time p;
          restart_count := restart_count p;
          last_restart_time := last_restart_time p;
          last_audio_time := last_audio_time p |}.

Definition set_listening (b : bool) (p : processor) : processor :=
  {| audio_queue := audio_queue p; is_running := is_running p;
     is_listening := b;
     current_transcript := ""; last_final_time := None;
     restart_count := restart_count p;
     last_restart_time := last_restart_time p;
     last_audio_time := last_audio_time p |}.

Definition mute (p : processor) : processor := set_listening false p.

Definition unmute (p : processor) : processor := set_listening true p.

(** [add_audio], called at time [now]. A full queue raises [queue.Full]; the
    handler takes the oldest item off and puts the new one. *)
Definition add_audio (now : time) (b : chunk) (p : processor) : processor :=
  if is_running p then
    let q := audio_queue p in
    let q' := if (length q <? queue_maxsize)%nat then q ++ [Some b]
              else match q with
                   | [] => q
                   | _ :: rest => rest ++ [Some b]
                   end in
    {| audio_queue := q'; is_running := is_running p;
       is_listening := is_listening p;
       current_transcript := current_transcript p;
       last_final_time := last_final_time p;
       restart_count := restart_count p;
       last_restart_time := last_restart_time p;
       last_audio_time := now |}
  else p.

(** One [audio_queue.get] of [_audio_generator] that finds an item. *)
Definition queue_get (p : processor) : option (option chunk) * processor :=
  match audio_queue p with
  | [] => (None, p)
  | x :: rest => (Some x, set_queue rest p)
  end.

(** [_should_restart], called at time [now]. *)
Definition should_restart (now : time) (p : processor) : bool * processor :=
  if negb (is_running p) then (false, p)
  else if restart_count p >=? max_restarts then (false, p)
  else if now - last_restart_time p <? restart_cooldown then (false, p)
  else (true,
        {| audio_queue := []; is_running := is_running p;
           is_listening := is_listening p;
           current_transcript := current_transcript p;
           last_final_time := last_final_time p;
           restart_count := restart_count p + 1;
           last_restart_time := now;
           last_audio_time := last_audio_time p |}).

(** *** Recognition responses and the silence check *)

(** A streaming response: its results, each with its alternatives'
    transcripts and the [is_final] flag. *)
Record result := { alternatives : list string; is_final : bool }.
Record response := { results : list result }.

(** What the processor makes visible: events sent to the session's room,
    silence check threads started (with the time of the start), calls of
    [on_transcript_callback]. *)
Inductive output :=
| Emit (name text : string)
| SpawnCheck (at_time : time)
| Callback (text : string).

(** The body of the loop of [_process_responses] for one response received at
    time [now]. The boolean tells whether the loop goes on ([false] is the
    [break] taken when the processor is no longer running). *)
Definition process_response (r : response) (now : time) (p : processor)
  : bool * processor * list output :=
  if negb (is_running p) then (false, p, [])
  else match results r with
       | [] => (true, p, [])
       | res :: _ =>
           match alternatives res with
           | [] => (true, p, [])
           | transcript :: _ =>
               if is_listening p then
                 if negb (is_final res) then
                   (true, p, [Emit "interim_transcript" transcript])
                 else
                   let t := PyStr.strip transcript in
                   if PyStr.truthy t && (1 <? PyStr.len t) then
                     (true,
                      set_segment (current_transcript p +:+ t +:+ " ")
                                  (Some now) p,
                      [Emit "final_transcript_part" t; SpawnCheck now])
                   else (true, p, [SpawnCheck now])
               else (true, p, [])
           end
       end.

(** Truth value of [self.last_final_time and (now - last_final_time >= T)]:
    [None] and the number zero are false. *)
Definition silence_elapsed (now : time) (p : processor) : bool :=
  match last_final_time p with
  | None => false
  | Some t => negb (t =? 0) && (now - t >=? SILENCE_THRESHOLD)
  end.

(** [_check_silence] after its [time.sleep], reading the clock at [now], when
    no other thread runs between its statements ([check_alone] below is the
    same function, statement by statement). *)
Definition check_silence (now : time) (p : processor)
  : processor * list output :=
  if silence_elapsed now p then
    if PyStr.truthy (PyStr.strip (current_transcript p)) && is_listening p then
      let complete_text := PyStr.strip (current_transcript p) in
      let p' := set_segment "" None p in
      if (2 <? PyStr.len complete_text) && negb (PyStr.isspace complete_text)
      then (p', [Callback complete_text])
      else (p', [])
    else (set_segment "" None p, [])
  else (p, []).

(** *** Events on one processor *)

(** The calls of the public methods, and the steps of the threads the
    processor owns, each taken as a whole. *)
Inductive event :=
| EStart | EStop | EMute | EUnmute
| EAddAudio (now : time) (b : chunk)
| EQueueGet
| EShouldRestart (now : time)
| EResponse (r : response) (now : time)
| ECheckSilence (now : time).

Definition step (e : event) (p : processor) : processor * list output :=
  match e with
  | EStart => (start p, [])
  | EStop => (stop p, [])
  | EMute => (mute p, [])
  | EUnmute => (unmute p, [])
  | EAddAudio now b => (add_audio now b p, [])
  | EQueueGet => (snd (queue_get p), [])
  | EShouldRestart now => (snd (should_restart now p), [])
  | EResponse r now =>
      let res := process_response r now p in (snd (fst res), snd res)
  | ECheckSilence now => check_silence now p
  end.

Fixpoint run (es : list event) (p : processor) : processor * list output :=
  match es with
  | [] => (p, [])
  | e :: es' =>
      let '(p1, o1) := step e p in
      let '(p2, o2) := run es' p1 in
      (p2, o1 ++ o2)
  end.

(** The texts handed to [on_transcript_callback], in order. *)
Definition callbacks (out : list output) : list string :=
  flat_map (fun o => match o with Callback t => [t] | _ => [] end) out.

(** A final result with one alternative. *)
Definition final_fragment (text : string) : response :=
  {| results := [ {| alternatives := [text]; is_final := true |} ] |}.

(** *** The silence check, statement by statement *)

(** [_check_silence] holds no lock, and every final result starts a thread
    of its own for it, so the statements of two checks can interleave. Where
    one such thread stands; [complete_text] is its local variable. *)
Inductive check_pc :=
| Sleeping (since : time)              (* line 323, [time.sleep] *)
| TestElapsed                          (* line 324 *)
| TestText                             (* line 325 *)
| ReadText                             (* line 326 *)
| ClearText (complete_text : string)   (* line 327 *)
| ClearTime (complete_text : string)   (* line 328 *)
| TestLength (complete_text : string)  (* lines 329 to 332 *)
| ElseClearText                        (* line 334 *)
| ElseClearTime                        (* line 335 *)
| Returned.

(** One statement of a [_check_silence] thread, run at time [now] on the
    processor as it stands then. The sleep ends no earlier than the
    threshold after it began. *)
Definition check_step (now : time) (pc : check_pc) (p : processor)
  : check_pc * processor * list output :=
  match pc with
  | Sleeping since =>
      (if now - since >=? SILENCE_THRESHOLD then TestElapsed
       else Sleeping since, p, [])
  | TestElapsed =>
      (if silence_elapsed now p then TestText else Returned, p, [])
  | TestText =>
      (if PyStr.truthy (PyStr.strip (current_transcript p)) && is_listening p
       then ReadText else ElseClearText, p, [])
  | ReadText => (ClearText (PyStr.strip (current_transcript p)), p, [])
  | ClearText complete_text =>
      (ClearTime complete_text, set_segment "" (last_final_time p) p, [])
  | ClearTime complete_text =>
      (TestLength complete_text,
       set_segment (current_transcript p) None p, [])
  | TestLength complete_text =>
      (Returned, p,
       if (2 <? PyStr.len complete_text)
          && negb (PyStr.isspace complete_text)
       then [Callback complete_text] else [])
  | ElseClearText =>
      (ElseClearTime, set_segment "" (last_final_time p) p, [])
  | ElseClearTime =>
      (Returned, set_segment (current_transcript p) None p, [])
  | Returned => (Returned, p, [])
  end.

(** A thread that has slept, run to its end with no other thread in
    between; [fuel] bounds the number of statements. *)
Fixpoint check_alone (fuel : nat) (now : time) (pc : check_pc) (p : processor)
  : processor * list output :=
  match fuel with
  | O => (p, [])
  | S fuel' =>
      let '(pc', p', out) := check_step now pc p in
      let '(p'', out') := check_alone fuel' now pc' p' in
      (p'', out ++ out')
  end.

(** The processor and the silence check threads alive, in the order in which
    they were started. *)
Record world := { shared : processor; checks : list check_pc }.

(** The threads that the outputs of a step start. *)
Definition spawned (out : list output) : list check_pc :=
  flat_map (fun o => match o with SpawnCheck t => [Sleeping t] | _ => [] end)
           out.

(** What the scheduler lets happen next: the worker reads one response, or
    the check thread number [i] runs one statement. *)
Inductive turn :=
| Reads (r : response) (now : time)
| Runs (i : nat) (now : time).

Definition turn_step (a : turn) (w : world) : world * list output :=
  match a with
  | Reads r now =>
      let res := process_response r now (shared w) in
      ({| shared := snd (fst res);
          checks := checks w ++ spawned (snd res) |}, snd res)
  | Runs i now =>
      match checks w !! i with
      | None => (w, [])
      | Some pc =>
          let res := check_step now pc (shared w) in
          ({| shared := snd (fst res);
              checks := <[i := fst (fst res)]> (checks w) |}, snd res)
      end
  end.

Fixpoint interleave (turns : list turn) (w : world) : world * list output :=
  match turns with
  | [] => (w, [])
  | a :: turns' =>
      let '(w1, o1) := turn_step a w in
      let '(w2, o2) := interleave turns' w1 in
      (w2, o1 ++ o2)
  end.

(** "hello" at [t1], "world" at [t2]; the first check wakes at [c1] and
    passes both tests, the second wakes at [c2] and passes both tests before
    the first has cleared the segment; then each reads the text, clears the
    segment and calls back. *)
Definition overlapping_checks (t1 t2 c1 c2 : time) : list turn :=
  [ Reads (final_fragment "hello") t1; Reads (final_fragment "world") t2;
    Runs 0 c1; Runs 0 c1; Runs 0 c1;
    Runs 1 c2; Runs 1 c2; Runs 1 c2;
    Runs 0 c2; Runs 1 c2;
    Runs 0 c2; Runs 0 c2; Runs 0 c2;
    Runs 1 c2; Runs 1 c2; Runs 1 c2 ].

(** The same final results and wake times, the first check run to its end
    before the second begins. *)
Definition checks_in_turn (t1 t2 c1 c2 : time) : list turn :=
  [ Reads (final_fragment "hello") t1; Reads (final_fragment "world") t2;
    Runs 0 c1; Runs 0 c1; Runs 0 c1; Runs 0 c1; Runs 0 c1; Runs 0 c1;
    Runs 0 c1;
    Runs 1 c2; Runs 1 c2 ].

(** *** The streaming worker ([_stream_audio]) *)

(** How one pass through the [try] block ends: [_process_responses] returns,
    or one of the exceptions the handlers tell apart is raised. *)
Inductive outcome :=
| Finished            (* the response stream ended; no exception *)
| Cancelled           (* gcp_exceptions.Cancelled *)
| UnknownIterating    (* gcp_exceptions.Unknown, text has "iterating requests" *)
| UnknownOther        (* any other gcp_exceptions.Unknown: raised again *)
| Transient           (* ServiceUnavailable, DeadlineExceeded, ConnectionError *)
| Fatal.              (* any other exception *)

(** What the environment does to one stream: how long it lives, how it ends,
    and whether [stop()] was called from another thread while it lived. *)
Record attempt := { ends_with : outcome; lasts : Z; stopped : bool }.

(** What the worker does, in order: it opens a stream, sees it end (how and
    when), sleeps, or leaves its loop. *)
Inductive wevent :=
| Opened (t : time)
| Ended (o : outcome) (t : time)
| Slept (d : Z)
| Exited.

(** [min(1.0 * consecutive_errors, 5.0)] seconds. *)
Definition backoff (consecutive_errors : Z) : Z :=
  Z.min (1000 * consecutive_errors) 5000.

(** The [while] loop of [_stream_audio], one iteration for each scripted
    attempt; when the script is used up the stream just opened stays open. *)
Fixpoint stream_audio (attempts : list attempt) (now : time)
    (consecutive_errors : Z) (p : processor) : processor * list wevent :=
  if is_running p && (restart_count p <? max_restarts) then
    match attempts with
    | [] => (p, [Opened now])
    | a :: rest =>
        let t := now + lasts a in
        let p1 := if stopped a then stop p else p in
        let again := stream_audio rest in
        let '(p', tr) :=
          match ends_with a with
          | Finished => again t 0 p1
          | Cancelled =>
              if negb (is_running p1) then (p1, [Exited])
              else again t consecutive_errors p1
          | UnknownIterating =>
              let consecutive_errors := consecutive_errors + 1 in
              if consecutive_errors >=? max_consecutive_errors
              then (p1, [Exited])
              else
                let '(ok, p2) := should_restart t p1 in
                if ok then
                  let d := backoff consecutive_errors in
                  let '(p3, tr) := again (t + d) consecutive_errors p2 in
                  (p3, Slept d :: tr)
                else (p2, [Exited])
          | UnknownOther => (p1, [Exited])
          | Transient =>
              let consecutive_errors := consecutive_errors + 1 in
              if consecutive_errors >=? max_consecutive_errors
              then (p1, [Exited])
              else
                let '(ok, p2) := should_restart t p1 in
                if ok then
                  let d := backoff consecutive_errors in
                  let '(p3, tr) := again (t + d) consecutive_errors p2 in
                  (p3, Slept d :: tr)
                else again t consecutive_errors p2
          | Fatal => (p1, [Exited])
          end in
        (p', Opened now :: Ended (ends_with a) t :: tr)
    end
  else (p, [Exited]).

(** The outcomes the restart policy is about. *)
Definition transient (o : outcome) : bool :=
  match o with
  | UnknownIterating | Transient => true
  | _ => false
  end.

(** The next thing the worker does, sleeping apart, is to open a stream. *)
Fixpoint opens_next (tr : list wevent) : bool :=
  match tr with
  | Slept _ :: tr' => opens_next tr'
  | Opened _ :: _ => true
  | _ => false
  end.

(** The restarts of a trace: the times of the transient errors after which
    the worker opened a stream again. *)
Fixpoint restarts (tr : list wevent) : list time :=
  match tr with
  | [] => []
  | Ended o t :: tr' =>
      if transient o && opens_next tr' then t :: restarts tr'
      else restarts tr'
  | _ :: tr' => restarts tr'
  end.

(** Successive times are at least [gap] apart. *)
Fixpoint spaced (gap : Z) (ts : list time) : bool :=
  match ts with
  | a :: ((b :: _) as rest) => (gap <=? b - a) && spaced gap rest
  | _ => true
  end.

(** *** Notions used to state the properties *)

(** The calls of [start], [stop], [mute] and [unmute]. *)
Definition is_control (e : event) : bool :=
  match e with
  | EStart | EStop | EMute | EUnmute => true
  | _ => false
  end.

(** Listening implies running. *)
Definition listening_implies_running (p : processor) : Prop :=
  is_listening p = true -> is_running p = true.

(** The statement that every sequence of control calls on a new processor
    keeps [listening_implies_running]. *)
Definition control_keeps_invariant : Prop :=
  forall (now : time) (calls : list event),
    forallb is_control calls = true ->
    listening_implies_running (fst (run calls (init now))).

(** Every [unmute] of the sequence is called on a running processor. *)
Fixpoint unmute_while_running (es : list event) (p : processor) : bool :=
  match es with
  | [] => true
  | e :: es' =>
      (match e with EUnmute => is_running p | _ => true end)
      && unmute_while_running es' (fst (step e p))
  end.

(** The queue holds no audio: it is empty or holds the shutdown signal. *)
Definition no_audio (p : processor) : Prop :=
  audio_queue p = [] \/ audio_queue p = [None].

(** A processor that is not running has no audio on its queue. *)
Definition idle_queue (p : processor) : Prop :=
  is_running p = false -> no_audio p.

(** The statement that the queue is empty when [add_audio] is called after
    [stop] has returned. *)
Definition queue_empty_after_stop : Prop :=
  forall (now t : time) (before : list event) (b : chunk),
    audio_queue
      (fst (run (before ++ [EStop; EAddAudio t b]) (init now))) = [].

(** The number of streams a trace opens. *)
Fixpoint opened (tr : list wevent) : nat :=
  match tr with
  | [] => O
  | Opened _ :: tr' => S (opened tr')
  | _ :: tr' => opened tr'
  end.

(** The statement that the restarts of every run of the worker are at least
    the cooldown apart. *)
Definition restarts_respect_cooldown : Prop :=
  forall (attempts : list attempt) (now : time) (p : processor),
    spaced restart_cooldown
      (restarts (snd (stream_audio attempts now 0 (start p)))) = true.

(** A run against a back end that is unavailable: the first stream fails
    after five seconds, the second one 200 ms after it was opened. *)
Definition unavailable_twice : list attempt :=
  [ {| ends_with := Transient; lasts := 5000; stopped := false |};
    {| ends_with := Transient; lasts := 200; stopped := false |} ].

(** [add_audio] for each chunk of a burst, in order. *)
Definition add_all (now : time) (bs : list chunk) (p : processor) : processor :=
  fold_left (fun p b => add_audio now b p) bs p.

(** [" ".join(fs)] *)
Fixpoint space_join (fs : list string) : string :=
  match fs with
  | [] => ""
  | [f] => f
  | f :: rest => f +:+ " " +:+ space_join rest
  end.

(** Final results, one for each text and time, as the events of their
    arrival. *)
Definition fragments (fts : list (string * time)) : list event :=
  map (fun ft => EResponse (final_fragment (fst ft)) (snd ft)) fts.

(** What happens while the candidate speaks: a final result with one
    alternative is read, or a silence check started by an earlier final
    result wakes. *)
Inductive heard :=
| Said (text : string) (t : time)
| Woke (c : time).

Definition heard_event (u : heard) : event :=
  match u with
  | Said text t => EResponse (final_fragment text) t
  | Woke c => ECheckSilence c
  end.

(** The utterance is going on: every final result is kept (its stripped
    text has two characters or more), and every check wakes less than the
    threshold after the latest final result read before it, [latest] at the
    start; a check that wakes before any final result is free. *)
Fixpoint going_on (latest : option time) (us : list heard) : bool :=
  match us with
  | [] => true
  | Said text t :: us' =>
      (1 <? PyStr.len (PyStr.strip text)) && going_on (Some t) us'
  | Woke c :: us' =>
      match latest with
      | None => true
      | Some t => c - t <? SILENCE_THRESHOLD
      end && going_on latest us'
  end.

(** The texts of the final results, in order. *)
Fixpoint said (us : list heard) : list string :=
  match us with
  | [] => []
  | Said text _ :: us' => text :: said us'
  | Woke _ :: us' => said us'
  end.

(** The time of the last final result. *)
Fixpoint last_said (us : list heard) : option time :=
  match us with
  | [] => None
  | Said _ t :: us' =>
      match last_said us' with
      | Some t' => Some t'
      | None => Some t
      end
  | Woke _ :: us' => last_said us'
  end.


(** The sleeps of a trace. *)
Fixpoint sleeps (tr : list wevent) : list Z :=
  match tr with
  | [] => []
  | Slept d :: tr' => d :: sleeps tr'
  | _ :: tr' => sleeps tr'
  end.

End Stt.

(** ** Sessions and their turn history ([sockets/events.py]) *)

Module Session.

(** One entry of [chat_history]. The code builds four shapes of dict:
    the metadata entry [{resume, jd, question_type}], an opening or fallback
    question [{interviewer}], an evaluated question
    [{interviewer, evaluation, score}] and an answer [{candidate}]. *)
Record entry := {
  resume : option string;
  jd : option string;
  question_type : option string;
  interviewer : option string;
  evaluation : option string;
  score : option Z;
  candidate : option string
}.

Definition empty_entry : entry :=
  {| resume := None; jd := None; question_type := None; interviewer := None;
     evaluation := None; score := None; candidate := None |}.

(** [{"resume": r, "jd": j, "question_type": q}] *)
Definition metadata (r j q : string) : entry :=
  {| resume := Some r; jd := Some j; question_type := Some q;
     interviewer := None; evaluation := None; score := None;
     candidate := None |}.

(** [{"interviewer": q}] *)
Definition question (q : string) : entry :=
  {| resume := None; jd := None; question_type := None;
     interviewer := Some q; evaluation := None; score := None;
     candidate := None |}.

(** [{"interviewer": q, "evaluation": e, "score": n}] *)
Definition evaluated_question (q e : string) (n : Z) : entry :=
  {| resume := None; jd := None; question_type := None;
     interviewer := Some q; evaluation := Some e; score := Some n;
     candidate := None |}.

(** [{"candidate": a}] *)
Definition answer (a : string) : entry :=
  {| resume := None; jd := None; question_type := None;
     interviewer := None; evaluation := None; score := None;
     candidate := Some a |}.

(** The value kept for a session id in [sessions]. *)
Record session := {
  is_running : bool;
  chat_history : list entry;
  audio_processor : option Stt.processor
}.

(** ['interviewer' in entry and 'resume' not in entry] *)
Definition is_question (e : entry) : bool :=
  bool_decide (is_Some (interviewer e)) && negb (bool_decide (is_Some (resume e))).

End Session.

(** ** Report assembly ([services/report.py]) *)

Module Report.

Import Session.

(** One element of [qa_pairs]. *)
Record qa_pair := {
  qa_question : string;
  qa_answer : string;
  qa_score : Z;
  qa_evaluation : string
}.

Definition pending_evaluation : string :=
  "Response received and being evaluated".

(** The evaluation and score read at [chat_history[i + 2]], when that entry
    exists and has the key [interviewer]; the empty text and zero otherwise. *)
Definition evaluation_after (h : list entry) (i : nat) : string * Z :=
  match h !! (i + 2)%nat with
  | Some e2 =>
      if bool_decide (is_Some (interviewer e2))
      then (default "" (evaluation e2), default 0 (score e2))
      else ("", 0)
  | None => ("", 0)
  end.

(** The [while i < len(chat_history)] loop of [generate_dynamic_report];
    [fuel] is the number of iterations left, that is [len(chat_history) - i]. *)
Fixpoint pair_loop (fuel i : nat) (h : list entry)
    (qa_pairs : list qa_pair) (scores : list Z) : list qa_pair * list Z :=
  match fuel with
  | O => (qa_pairs, scores)
  | S fuel' =>
      match h !! i with
      | None => (qa_pairs, scores)
      | Some current_entry =>
          if is_question current_entry then
            let question := default "" (interviewer current_entry) in
            match h !! (i + 1)%nat ≫= candidate with
            | Some answer =>
                let '(evaluation, score) := evaluation_after h i in
                let pair :=
                  {| qa_question := question; qa_answer := answer;
                     qa_score := score;
                     qa_evaluation := if PyStr.truthy evaluation
                                      then evaluation
                                      else pending_evaluation |} in
                pair_loop fuel' (i + 1) h (qa_pairs ++ [pair])
                          (if 0 <? score then scores ++ [score] else scores)
            | None => pair_loop fuel' (i + 1) h qa_pairs scores
            end
          else pair_loop fuel' (i + 1) h qa_pairs scores
      end
  end.

(** [qa_pairs] and [scores] as they stand after the loop, which starts at
    [i = 1]. *)
Definition collect_pairs (h : list entry) : list qa_pair * list Z :=
  pair_loop (length h - 1) 1 h [] [].

Definition qa_pairs_of (h : list entry) : list qa_pair := fst (collect_pairs h).

(** *** The pairing rule, to compare the loop with *)

(** The entry two places after index [i], when it is an interviewer entry. *)
Definition interviewer_two_later (h : list entry) (i : nat) : option entry :=
  match h !! (i + 2)%nat with
  | Some e => if bool_decide (is_Some (interviewer e)) then Some e else None
  | None => None
  end.

(** The evaluation as the report shows it: the fixed text stands in for an
    empty one. *)
Definition shown (evaluation : string) : string :=
  if PyStr.truthy evaluation then evaluation else pending_evaluation.

(** The pairing rule in the words of the report design: the question at
    index [i], when it is a question and the next entry is an answer, is
    paired with that answer and with the evaluation and score of the
    interviewer entry that follows the answer (nothing and zero when there
    is none). *)
Definition pair_at (h : list entry) (i : nat) : option qa_pair :=
  match h !! i, h !! (i + 1)%nat ≫= candidate with
  | Some q, Some a =>
      if is_question q then
        Some {| qa_question := default "" (interviewer q);
                qa_answer := a;
                qa_score :=
                  default 0 (interviewer_two_later h i ≫= score);
                qa_evaluation :=
                  shown (default "" (interviewer_two_later h i ≫= evaluation)) |}
      else None
  | _, _ => None
  end.

(** *** The rule based analysis ([generate_fallback_analysis]) *)

Definition unclear_words : list string :=
  ["don't remember"; "don't know"; "not sure"; "maybe"; "i think"].

(** [sum(1 for qa in qa_pairs if len(qa['answer'].split()) < 15)] *)
Definition short_answers (qa_pairs : list qa_pair) : Z :=
  Z.of_nat (length (filter
    (fun qa => (length (PyStr.split (qa_answer qa)) <? 15)%nat = true) qa_pairs)).

(** [sum(1 for qa in qa_pairs if any(word in qa['answer'].lower() ...))] *)
Definition unclear_answers (qa_pairs : list qa_pair) : Z :=
  Z.of_nat (length (filter
    (fun qa => existsb (fun word => PyStr.contains word (PyStr.lower (qa_answer qa)))
                       unclear_words = true) qa_pairs)).

(** [while len(l) < 3: l.append(filler)], with the number of iterations left. *)
Fixpoint pad_loop (fuel : nat) (filler : string) (l : list string) : list string :=
  match fuel with
  | O => l
  | S fuel' =>
      if (length l <? 3)%nat then pad_loop fuel' filler (l ++ [filler]) else l
  end.

(** The fields of the analysis that do not format or round a float. *)
Record analysis := {
  recommendation : string;
  key_strengths : list string;
  areas_for_improvement : list string;
  resume_alignment : string;
  job_fit : string;
  next_steps : string
}.

(** The strengths and improvements of [generate_fallback_analysis] as they
    stand before the two padding loops. [avg_score] is a rational;
    [qa_count / 2] is a true division, so [short_answers < qa_count / 2] is
    [2 * short_answers < qa_count]. *)
Definition analysis_points (avg_score : Q) (qa_count : Z)
    (qa_pairs : list qa_pair) : list string * list string :=
  let short_answers := short_answers qa_pairs in
  let unclear_answers := unclear_answers qa_pairs in
  let ge (x : Q) := Qle_bool x avg_score in
  let strengths : list string := [] in
  let improvements : list string := [] in
  let '(strengths, improvements) :=
    if qa_count >=? 8 then
      (strengths ++ ["Completed comprehensive interview (" +:+ PyStr.str_of_Z qa_count +:+ " questions)"],
       improvements)
    else
      (strengths,
       improvements ++ ["Interview concluded early with only " +:+ PyStr.str_of_Z qa_count +:+ " questions covered"]) in
  let '(strengths, improvements) :=
    if unclear_answers =? 0 then
      (strengths ++ ["Provided confident responses without hesitation"], improvements)
    else
      (strengths,
       improvements ++ ["Showed uncertainty in " +:+ PyStr.str_of_Z unclear_answers +:+ " responses, indicating knowledge gaps"]) in
  let '(strengths, improvements) :=
    if 2 * short_answers <? qa_count then
      (strengths ++ ["Generally provided detailed explanations"], improvements)
    else
      (strengths,
       improvements ++ ["Many responses were brief (" +:+ PyStr.str_of_Z short_answers +:+ "/" +:+ PyStr.str_of_Z qa_count +:+ "), lacking technical depth"]) in
  let '(strengths, improvements) :=
    if ge 7%Q then
      (strengths ++ ["Demonstrated solid technical foundation"],
       improvements ++ ["Could improve by providing more specific examples"])
    else
      (strengths,
       (improvements ++ ["Needs to strengthen core technical knowledge and practical experience"])
         ++ ["Should work on articulating technical concepts more clearly"]) in
  (strengths, improvements).

Definition strengths_filler : string :=
  "Maintained professional demeanor throughout interview".
Definition improvements_filler : string :=
  "Requires more hands-on experience with technologies mentioned in resume".

(** [generate_fallback_analysis]; the comparisons of [avg_score] against the
    constants are those of the source. *)
Definition generate_fallback_analysis (avg_score : Q) (qa_count : Z)
    (qa_pairs : list qa_pair) : analysis :=
  let unclear_answers := unclear_answers qa_pairs in
  let ge (x : Q) := Qle_bool x avg_score in
  let recommendation :=
    if ge 8%Q && (unclear_answers =? 0) then
      "Strong Hire - Demonstrated excellent technical competence and clear communication"
    else if ge 7%Q && (unclear_answers <=? 1) then
      "Hire - Good technical foundation with clear potential"
    else if ge 6%Q then
      "Maybe - Some potential but notable gaps identified"
    else if ge 5%Q then
      "Maybe - Needs significant development"
    else
      "No Hire - Significant skill gaps and communication issues" in
  let '(strengths, improvements) :=
    analysis_points avg_score qa_count qa_pairs in
  let strengths :=
    pad_loop 3 strengths_filler strengths in
  let improvements :=
    pad_loop 3 improvements_filler improvements in
  {| recommendation := recommendation;
     key_strengths := take 3 strengths;
     areas_for_improvement := take 3 improvements;
     resume_alignment :=
       "Based on " +:+ PyStr.str_of_Z qa_count +:+ " questions, candidate's responses "
       +:+ (if ge 7%Q then "align well with" else "show discrepancies from")
       +:+ " resume claims.";
     job_fit :=
       "Candidate demonstrates "
       +:+ (if ge (15 # 2)%Q then "strong" else if ge 6%Q then "partial" else "limited")
       +:+ " alignment with job requirements.";
     next_steps :=
       if ge (15 # 2)%Q then "Proceed to technical round with senior engineer"
       else if ge 6%Q then "Consider additional screening"
       else "Thank candidate for their time, not proceeding" |}.

(** *** The fallback report ([generate_fallback_report]) *)

(** One element of the [qa_pairs] of the fallback report. *)
Record fallback_pair := {
  fb_question : string;
  fb_answer : string;
  fb_score : Z
}.

(** The [while i < len(chat_history)] loop of [generate_fallback_report];
    [fuel] is the number of iterations left. *)
Fixpoint fallback_loop (fuel i : nat) (h : list entry)
    (qa_pairs : list fallback_pair) (scores : list Z)
  : list fallback_pair * list Z :=
  match fuel with
  | O => (qa_pairs, scores)
  | S fuel' =>
      match h !! i with
      | None => (qa_pairs, scores)
      | Some entry =>
          if bool_decide (is_Some (interviewer entry)) then
            let question := default "" (interviewer entry) in
            let score := default 0 (score entry) in
            let answer := default "" (h !! (i + 1)%nat ≫= candidate) in
            if PyStr.truthy answer then
              fallback_loop fuel' (i + 1) h
                (qa_pairs ++ [ {| fb_question := question;
                                  fb_answer := answer;
                                  fb_score := score |} ])
                (if 0 <? score then scores ++ [score] else scores)
            else fallback_loop fuel' (i + 1) h qa_pairs scores
          else fallback_loop fuel' (i + 1) h qa_pairs scores
      end
  end.

Definition fallback_pairs_of (h : list entry) : list fallback_pair :=
  fst (fallback_loop (length h - 1) 1 h [] []).

(** The pairing of the fallback report at index [i], to compare its loop
    with: an interviewer entry followed by an answer that is not empty, with
    the score of the interviewer entry itself. *)
Definition fallback_pair_at (h : list entry) (i : nat) : option fallback_pair :=
  match h !! i with
  | Some q =>
      if bool_decide (is_Some (interviewer q)) then
        let a := default "" (h !! (i + 1)%nat ≫= candidate) in
        if PyStr.truthy a then
          Some {| fb_question := default "" (interviewer q);
                  fb_answer := a;
                  fb_score := default 0 (score q) |}
        else None
      else None
  | None => None
  end.

(** [text[:400] + '...' if len(text) > 400 else text], the summary of the
    resume and of the job description in a report. *)
Definition summary (text : string) : string :=
  if (400 <? String.length text)%nat then PyStr.take 400 text +:+ "..."
  else text.

(** *** The whole of [generate_dynamic_report] *)

(** [sum(scores) / len(scores)], as the exact quotient. *)
Definition average (scores : list Z) : Q :=
  Qmake (fold_right Z.add 0 scores) (Pos.of_nat (length scores)).

(** The nearest integer, the even one of two that are equally near. *)
Definition round_half_even (x : Q) : Z :=
  let f := Qfloor x in
  match Qcompare (x - inject_Z f) (1 # 2) with
  | Lt => f
  | Gt => f + 1
  | Eq => if Z.even f then f else f + 1
  end.

(** [round(x, 2) == 0], on the exact quotient. *)
Definition rounds_to_zero (x : Q) : bool :=
  round_half_even (x * 100) =? 0.

(** The double quote. *)
Definition quote : string := String (ascii_of_nat 34) EmptyString.

(** The text of [analysis_prompt] is an f-string. The braces around the
    JSON example are doubled, those of the object given for
    ["technical_assessment"] (line 95) are not: they make a replacement field
    whose expression is the literal ["depth_of_knowledge"] and whose format
    spec is the text from the colon to the closing brace. *)
Definition assessment_spec : string :=
  " 7, " +:+ quote +:+ "problem_solving" +:+ quote +:+ ": 6, "
  +:+ quote +:+ "communication" +:+ quote +:+ ": 5, "
  +:+ quote +:+ "experience_relevance" +:+ quote +:+ ": 6".

(** What that field gives when the f-string is evaluated; the fields before
    it have no format spec. [None] is [ValueError]. *)
Definition assessment_field : option string :=
  PyStr.str_format "depth_of_knowledge" assessment_spec.

(** The report that is returned, by the function that built it, with its
    [detailed_qa]; the other keys (time stamp, statistics, analysis) are
    left out. *)
Inductive report :=
| MinimalReport (detailed_qa : list qa_pair)
| FullReport (detailed_qa : list qa_pair)
| FallbackReport (detailed_qa : list fallback_pair).

Section Assembly.

(** What stands around the prompt and can raise, lines 64 to 65 and 108 to
    135: reading the environment, the request to the analysis back end and
    the reading of its reply; [false] when one of them raises. *)
Variable request_analysis : string -> bool.

(** [generate_fallback_report]; [None] for a session id that is not in
    [sessions], whose [KeyError] the bare [except] turns into [None]. *)
Definition generate_fallback_report (sessions : gmap string session)
    (session_id : string) : option report :=
  match sessions !! session_id with
  | None => None
  | Some s => Some (FallbackReport (fallback_pairs_of (chat_history s)))
  end.

(** [generate_dynamic_report]. Whatever is raised inside is caught by
    [except Exception], which returns [generate_fallback_report]. *)
Definition generate_dynamic_report (sessions : gmap string session)
    (session_id : string) : option report :=
  match sessions !! session_id with
  | None => generate_fallback_report sessions session_id
  | Some s =>
      let chat_history := chat_history s in
      if (length chat_history <? 2)%nat then None
      else
        let '(qa_pairs, scores) := collect_pairs chat_history in
        let no_scores := bool_decide (scores = []) in
        if no_scores || rounds_to_zero (average scores) then
          Some (MinimalReport qa_pairs)
        else
          match assessment_field with
          | None => generate_fallback_report sessions session_id
          | Some field =>
              if request_analysis field then Some (FullReport qa_pairs)
              else generate_fallback_report sessions session_id
          end
  end.

End Assembly.

End Report.

(** ** The dialogue orchestrator ([services/flow.py]) *)

Module Reply.

(** The object the dialogue back end is asked to return, as [json.loads]
    gives it: each key may be absent. *)
Record reply := {
  evaluation : option string;
  score : option Z;
  next_question : option string;
  should_continue : option bool;
  interview_stage : option string
}.

(** The three ways [json.loads] followed by the [.get] calls can go: the
    text is not JSON ([json.JSONDecodeError]), it is a JSON object, or it is
    JSON of another kind, on which [.get] raises [AttributeError]. *)
Inductive parsed :=
| DecodeError
| Object (r : reply)
| NotAnObject.

End Reply.

Module Flow.

Import Session.

(** Modelled from the spec: the constants [MIN_QUESTIONS] and [MAX_QUESTIONS]
    of the [state] module, which is imported by [flow.py] but is not among
    the sources; section 4.3 gives minimum 4 and maximum 10. *)
Definition MIN_QUESTIONS : Z := 4.
Definition MAX_QUESTIONS : Z := 10.

(** [get_question_count] *)
Fixpoint get_question_count (chat_history : list entry) : Z :=
  match chat_history with
  | [] => 0
  | e :: rest =>
      (if is_question e then 1 else 0) + get_question_count rest
  end.

Definition stop_phrases : list string :=
  ["stop the interview"; "end the interview"; "stop interview"; "end interview";
   "finish interview"; "conclude interview"; "that's all"; "i'm done";
   "no more questions"].

(** [check_stop_command] *)
Definition check_stop_command (text : string) : bool :=
  let text_lower := PyStr.lower text in
  existsb (fun phrase => PyStr.contains phrase text_lower) stop_phrases.

(** *** Letter case, to state what [check_stop_command] accepts *)

(** The character [c] of a transcript stands for the character [d] of a
    phrase: it is [d] itself, or [d] is one of the letters a-z and [c] is its
    capital. *)
Definition same_letter (c d : ascii) : bool :=
  Ascii.eqb c d
  || ((97 <=? nat_of_ascii d) && (nat_of_ascii d <=? 122)
      && (nat_of_ascii c + 32 =? nat_of_ascii d))%nat.

(** The text [w] is the phrase, letter case apart. *)
Fixpoint same_text (w phrase : string) : bool :=
  match w, phrase with
  | EmptyString, EmptyString => true
  | String c w', String d phrase' => same_letter c d && same_text w' phrase'
  | _, _ => false
  end.

(** A character of the phrases: below 128 and not a capital. *)
Definition plain_char (d : ascii) : bool :=
  ((nat_of_ascii d <? 128)
   && negb ((65 <=? nat_of_ascii d) && (nat_of_ascii d <=? 90)))%nat.

Fixpoint plain (phrase : string) : bool :=
  match phrase with
  | EmptyString => true
  | String d phrase' => plain_char d && plain phrase'
  end.

(** An [ai_message] event; the keys a branch does not set are [None]. *)
Record ai_message := {
  text : string;
  audio : string;
  evaluation : option string;
  score : option Z;
  question_number : option Z;
  interview_stage : option string;
  should_continue : option bool;
  requires_confirmation : option bool;
  is_final : option bool
}.

(** What a call leaves behind besides the new [sessions]: events sent to the
    session's room, and the report thread started by the closing sequence
    with its [total_wait_time] in milliseconds. *)
Inductive effect :=
| EmitAiMessage (m : ai_message)
| EmitUserTranscript (text : string)
| StartReportThread (total_wait_time : Z).

Definition plain_message (t a : string) : ai_message :=
  {| text := t; audio := a; evaluation := None; score := None;
     question_number := None; interview_stage := None;
     should_continue := None; requires_confirmation := None;
     is_final := None |}.

Definition quote : string := String "034"%char EmptyString.

Definition json_pair (key value : string) : string :=
  quote +:+ key +:+ quote +:+ ": " +:+ value.

Definition json_text (s : string) : string := quote +:+ s +:+ quote.

(** The [json.dumps] of the stand-in reply used when the back end gave an
    empty text. *)
Definition default_reply : string :=
  "{" +:+ json_pair "evaluation" (json_text "Let's continue our discussion")
  +:+ ", " +:+ json_pair "score" "0"
  +:+ ", " +:+ json_pair "next_question"
        (json_text "Thank you for that response. Let's explore another technical area.")
  +:+ ", " +:+ json_pair "should_continue" "true"
  +:+ ", " +:+ json_pair "interview_stage" (json_text "mid") +:+ "}".

(** The table of [clean_transcript], in the order of the dict. *)
Definition corrections : list (string * string) :=
  [ ("\bfrustrated\b", "first of all");
    ("\bbye\b(?!\s*bye)", "by");
    ("\bsafe introduction\b", "self introduction");
    ("\bepic opportunity\b", "this opportunity");
    ("\bcoming to my place\b", "coming to my background");
    ("\bworked has\b", "worked as");
    ("\bworked ass\b", "worked as");
    ("\bhave experience\b", "have experience in");
    ("\bI am from\s+(?:my|the)\s+", "I am from ");
    ("\breact js\b", "React");
    ("\bnode js\b", "Node.js");
    ("\bmongo db\b", "MongoDB");
    ("\bpost gre sql\b", "PostgreSQL");
    ("\bmy sql\b", "MySQL");
    ("\brest api\b", "REST API");
    ("\bgraph ql\b", "GraphQL");
    ("\bci cd\b", "CI/CD") ].

Definition positive_words : list string :=
  ["excellent"; "great"; "good"; "well"; "correct"; "strong"; "impressive"].
Definition hedging_words : list string :=
  ["okay"; "decent"; "fair"; "partial"; "some"; "adequate"].
Definition negative_words : list string :=
  ["unclear"; "incomplete"; "missing"; "weak"; "incorrect"].

Section Orchestrator.

(** The library and back end calls the orchestrator makes. *)
Variable re_sub : string -> string -> bool -> string -> string.
  (* re.sub(pattern, repl, text), with the IGNORECASE flag or without *)
Variable json_loads : string -> Reply.parsed.
Variable synthesize_speech : string -> string.
Variable get_llm_response : list entry -> string -> string.
  (* the reply for a history and the candidate's answer *)
Variable random_choice : list string -> string.

(** [clean_transcript] *)
Definition clean_transcript (text : string) : string :=
  if negb (PyStr.truthy text) then text
  else
    let cleaned :=
      fold_left (fun cleaned pr => re_sub (fst pr) (snd pr) true cleaned)
                corrections text in
    PyStr.strip (re_sub "\s+" " " false cleaned).

(** [create_conversational_feedback] *)
Definition create_conversational_feedback (evaluation next_question : string)
  : string :=
  let evaluation_lower :=
    if PyStr.truthy evaluation then PyStr.lower evaluation else "" in
  let any_in words :=
    existsb (fun word => PyStr.contains word evaluation_lower) words in
  let transitions :=
    if any_in positive_words then
      ["Excellent. "; "That's very good. "; "Well explained. ";
       "Good understanding. "; "Perfect. "]
    else if any_in hedging_words then
      ["I see. "; "Understood. "; "Alright. "; "Thank you. "]
    else if any_in negative_words then
      ["Let me ask about... "; "Could you clarify... ";
       "I'd like to understand... "; "Please explain... "]
    else ["Alright. "; "Thank you. "; "I understand. "] in
  random_choice transitions +:+ next_question.

(** [if audio_processor: audio_processor.f()] on the session's processor. *)
Definition on_processor (f : Stt.processor -> Stt.processor) (s : session)
  : session :=
  {| is_running := is_running s; chat_history := chat_history s;
     audio_processor := f <$> audio_processor s |}.

(** [chat_history.append(e)] *)
Definition append_entry (e : entry) (s : session) : session :=
  {| is_running := is_running s; chat_history := chat_history s ++ [e];
     audio_processor := audio_processor s |}.

Definition closing_message (questions_asked : Z) (user_initiated : bool)
  : string :=
  if user_initiated then
    "Thank you for your time and responses today. We've discussed "
    +:+ PyStr.str_of_Z questions_asked
    +:+ " questions, which provides valuable insight into your capabilities. "
    +:+ "I appreciate your openness in sharing your experience. This concludes our technical interview session."
  else
    "Thank you for this comprehensive discussion. We've thoroughly covered "
    +:+ PyStr.str_of_Z questions_asked
    +:+ " questions across various technical domains, "
    +:+ "and I have a clear understanding of your expertise and approach to problem-solving. This concludes our technical interview session.".

(** [(word_count / 150) * 30 + 3] seconds, in milliseconds: 200 for each
    word and 3000 on top. *)
Definition total_wait_time (message : string) : Z :=
  Z.of_nat (length (PyStr.split message)) * 200 + 3000.

(** [end_interview_naturally], for a session that exists. *)
Definition end_interview_naturally (sessions : gmap string session)
    (session_id : string) (s : session) (questions_asked : Z)
    (user_initiated : bool) : gmap string session * list effect :=
  let s' := {| is_running := false; chat_history := chat_history s;
               audio_processor := Stt.stop <$> audio_processor s |} in
  let message := closing_message questions_asked user_initiated in
  let audio_base64 := synthesize_speech message in
  (<[session_id := s']> sessions,
   [EmitAiMessage
      {| text := message; audio := audio_base64; evaluation := None;
         score := None; question_number := None; interview_stage := None;
         should_continue := None; requires_confirmation := None;
         is_final := Some true |};
    StartReportThread (total_wait_time message)]).

Definition confirmation_msg (questions_asked : Z) : string :=
  "I understand you'd like to conclude the interview. However, we've only covered "
  +:+ PyStr.str_of_Z questions_asked +:+ " questions. "
  +:+ "To provide a comprehensive assessment, I'd recommend answering at least "
  +:+ PyStr.str_of_Z (MIN_QUESTIONS - questions_asked) +:+ " more question(s). "
  +:+ "Would you like to continue, or shall we conclude with the current assessment?".

(** The message of the stop intent branch when too few questions were
    asked. *)
Definition confirmation (questions_asked : Z) : ai_message :=
  {| text := confirmation_msg questions_asked;
     audio := synthesize_speech (confirmation_msg questions_asked);
     evaluation := None; score := None; question_number := None;
     interview_stage := None; should_continue := None;
     requires_confirmation := Some true; is_final := None |}.

(** The text handed to [json.loads]: the reply stripped, without its fence
    markers, stripped again. *)
Definition strip_fences (next_response : string) : string :=
  let cleaned_response := PyStr.strip next_response in
  let cleaned_response :=
    if PyStr.startswith "```json" cleaned_response
    then PyStr.drop 7 cleaned_response
    else if PyStr.startswith "```" cleaned_response
    then PyStr.drop 3 cleaned_response
    else cleaned_response in
  let cleaned_response :=
    if PyStr.endswith "```" cleaned_response
    then PyStr.drop_end 3 cleaned_response
    else cleaned_response in
  PyStr.strip cleaned_response.

(** [process_user_transcript]. The result is [None] when an exception leaves
    the function, which is the case of a session id that is not in
    [sessions]: the handler of the outer [try] looks the id up again. *)
Definition process_user_transcript (sessions : gmap string session)
    (session_id user_text : string)
  : option (gmap string session * list effect) :=
  match sessions !! session_id with
  | None => None
  | Some s =>
      let user_text := clean_transcript user_text in
      if negb (PyStr.truthy user_text) || (PyStr.len user_text <? 3) then
        Some (<[session_id := on_processor Stt.unmute s]> sessions, [])
      else if check_stop_command user_text then
        let questions_asked := get_question_count (chat_history s) in
        if questions_asked >=? MIN_QUESTIONS then
          Some (end_interview_naturally sessions session_id s
                                        questions_asked true)
        else
          Some (<[session_id := on_processor Stt.mute s]> sessions,
                [EmitAiMessage (confirmation questions_asked)])
      else
        let s1 := append_entry (answer user_text) (on_processor Stt.mute s) in
        let sent := [EmitUserTranscript user_text] in
        let questions_asked := get_question_count (chat_history s1) in
        if questions_asked >=? MAX_QUESTIONS then
          let '(sessions', out) :=
            end_interview_naturally (<[session_id := s1]> sessions)
                                    session_id s1 questions_asked false in
          Some (sessions', sent ++ out)
        else
          let next_response := get_llm_response (chat_history s1) user_text in
          let next_response :=
            if negb (PyStr.truthy next_response) then default_reply
            else next_response in
          match json_loads (strip_fences next_response) with
          | Reply.Object response_data =>
              let evaluation := default "" (Reply.evaluation response_data) in
              let score := default 0 (Reply.score response_data) in
              let next_question :=
                default "Let's continue our discussion."
                        (Reply.next_question response_data) in
              let should_continue :=
                default true (Reply.should_continue response_data) in
              let interview_stage :=
                default "mid" (Reply.interview_stage response_data) in
              let questions_asked := get_question_count (chat_history s1) in
              let s2 :=
                append_entry
                  (evaluated_question next_question evaluation score) s1 in
              if (negb should_continue || (questions_asked >=? MAX_QUESTIONS))
                 && (questions_asked >=? MIN_QUESTIONS) then
                let '(sessions', out) :=
                  end_interview_naturally (<[session_id := s2]> sessions)
                                          session_id s2 (questions_asked + 1)
                                          false in
                Some (sessions', sent ++ out)
              else
                let conversational_response :=
                  create_conversational_feedback evaluation next_question in
                let audio_base64 := synthesize_speech conversational_response in
                Some (<[session_id := s2]> sessions,
                      sent ++
                      [EmitAiMessage
                         {| text := conversational_response;
                            audio := audio_base64;
                            evaluation := Some evaluation;
                            score := Some score;
                            question_number := Some (questions_asked + 1);
                            interview_stage := Some interview_stage;
                            should_continue := Some should_continue;
                            requires_confirmation := None;
                            is_final := None |}])
          | Reply.DecodeError =>
              let questions_asked := get_question_count (chat_history s1) in
              let s2 := append_entry (question next_response) s1 in
              let audio_base64 := synthesize_speech next_response in
              Some (<[session_id := s2]> sessions,
                    sent ++
                    [EmitAiMessage
                       {| text := next_response; audio := audio_base64;
                          evaluation := None; score := None;
                          question_number := Some (questions_asked + 1);
                          interview_stage := None; should_continue := None;
                          requires_confirmation := None;
                          is_final := None |}])
          | Reply.NotAnObject =>
              Some (<[session_id := on_processor Stt.unmute s1]> sessions, sent)
          end
  end.

(** The statement that, once a confirmation was asked for, the next
    utterance is not looked at for stop intent again: it is never answered
    with another request for confirmation. *)
Definition confirmation_is_one_shot : Prop :=
  forall (sessions sessions1 sessions2 : gmap string session)
         (session_id first next : string) (m : ai_message)
         (out : list effect),
    process_user_transcript sessions session_id first
    = Some (sessions1, [EmitAiMessage m]) ->
    requires_confirmation m = Some true ->
    process_user_transcript sessions1 session_id next
    = Some (sessions2, out) ->
    forall m', In (EmitAiMessage m') out ->
               requires_confirmation m' <> Some true.

End Orchestrator.

(** *** The report thread of the closing sequence *)

(** What [generate_and_send_report] does, with the clock readings at which
    each step begins and ends. *)
Inductive report_step {R : Type} :=
| Assembled (from to : Stt.time)
| Waited (from to : Stt.time)
| Delivered (at_time : Stt.time) (report : R).
Arguments report_step : clear implicits.

(** [generate_and_send_report], started at [now]: [generate_dynamic_report]
    takes [assembly] milliseconds and returns [report]; without a report the
    thread returns, otherwise it sleeps [wait] and sends [interview_complete]. *)
Definition generate_and_send_report {R : Type} (report : option R)
    (assembly wait : Z) (now : Stt.time) : list (report_step R) :=
  let done := now + assembly in
  Assembled now done ::
  match report with
  | None => []
  | Some r => [Waited done (done + wait); Delivered (done + wait) r]
  end.

(** Two stretches of time run concurrently when they share more than an
    instant. *)
Definition overlap (a1 a2 b1 b2 : Stt.time) : bool :=
  (Z.max a1 b1 <? Z.min a2 b2).

(** The assembly and the wait of a thread's trace run concurrently. *)
Definition assembly_during_wait {R : Type} (tr : list (report_step R)) : bool :=
  match tr with
  | Assembled a1 a2 :: Waited b1 b2 :: _ => overlap a1 a2 b1 b2
  | _ => false
  end.

(** The statement that, in the report thread, the assembly of the report
    and the wait run concurrently. *)
Definition assembly_concurrent_with_wait : Prop :=
  forall (R : Type) (r : R) (assembly wait : Z) (now : Stt.time),
    0 < assembly -> 0 < wait ->
    assembly_during_wait (generate_and_send_report (Some r) assembly wait now)
    = true.

End Flow.

(** ** The socket handlers and the session as a whole ([sockets/events.py]) *)

Module Events.

Import Session.

(** The payload of [start_interview]; each key may be absent. *)
Record start_data := {
  data_resume : option string;
  data_jd : option string;
  data_question_type : option string
}.

(** What reaches the session's room: [info] and [error] events, what the
    orchestrator sends or starts, what the processor sends or starts. *)
Inductive sent :=
| Info (message : string)
| Error (message : string)
| FromFlow (e : Flow.effect)
| FromStt (o : Stt.output).

(** The question used when the back end gives an empty opening. *)
Definition default_opening : string :=
  "Good morning. I'm Tara, Senior Technical Interviewer at Hiringhood. Thank you for taking the time to speak with us today. "
  +:+ "I'll be conducting your technical interview to assess your qualifications for this position. To begin, I'd like you to provide a comprehensive introduction about yourself, "
  +:+ "covering your educational background, professional experience, and key technical skills.".

(** What a client or a thread of the processor asks of one session. *)
Inductive request :=
| Connect
| Disconnect
| StartInterview (data : start_data)
| AudioChunk (audio : option string)
| AiSpeechEnded
| StopInterview
| Response (r : Stt.response)     (* one response read by [_process_responses] *)
| SilenceCheck.                   (* one [_check_silence] thread waking up *)

Section Handlers.

Variable re_sub : string -> string -> bool -> string -> string.
Variable json_loads : string -> Reply.parsed.
Variable synthesize_speech : string -> string.
Variable get_llm_response : list entry -> string -> string.
Variable random_choice : list string -> string.
Variable get_opening_question : string -> string -> string -> string.
  (* get_llm_response for a resume, a job description and a category *)
Variable b64decode : string -> option Stt.chunk.
  (* base64.b64decode; None when it raises *)

Definition new_session : session :=
  {| is_running := false; chat_history := []; audio_processor := None |}.

(** [handle_connect] *)
Definition handle_connect (session_id : string)
    (sessions : gmap string session) : gmap string session * list sent :=
  (<[session_id := new_session]> sessions, [Info "Connected to server"]).

(** [handle_disconnect]: the processor is stopped and the entry deleted. *)
Definition handle_disconnect (session_id : string)
    (sessions : gmap string session) : gmap string session * list sent :=
  match sessions !! session_id with
  | Some _ => (delete session_id sessions, [])
  | None => (sessions, [])
  end.

(** [start_interview] at time [now]; [None] is the [KeyError] of a session id
    that is not in [sessions]. *)
Definition start_interview (now : Stt.time) (session_id : string)
    (data : start_data) (sessions : gmap string session)
  : option (gmap string session * list sent) :=
  match sessions !! session_id with
  | None => None
  | Some s =>
      if is_running s then
        Some (sessions, [Error "Interview already running"])
      else
        let resume_text := default "" (data_resume data) in
        let job_description := default "" (data_jd data) in
        let category := default "technical" (data_question_type data) in
        let question :=
          get_opening_question resume_text job_description category in
        let question :=
          if negb (PyStr.truthy question) then default_opening else question in
        let s' :=
          {| is_running := true;
             chat_history :=
               [metadata resume_text job_description category]
               ++ [Session.question question];
             audio_processor := Some (Stt.init now) |} in
        Some (<[session_id := s']> sessions,
              [FromFlow (Flow.EmitAiMessage
                 {| Flow.text := question;
                    Flow.audio := synthesize_speech question;
                    Flow.evaluation := None; Flow.score := None;
                    Flow.question_number := Some 1;
                    Flow.interview_stage := Some "early";
                    Flow.should_continue := Some true;
                    Flow.requires_confirmation := None;
                    Flow.is_final := None |})])
  end.

(** [handle_audio_chunk] at time [now]; [None] is the exception of
    [base64.b64decode]. *)
Definition handle_audio_chunk (now : Stt.time) (session_id : string)
    (audio : option string) (sessions : gmap string session)
  : option (gmap string session * list sent) :=
  match sessions !! session_id with
  | None => Some (sessions, [])
  | Some s =>
      if negb (is_running s) then Some (sessions, [])
      else
        let audio_b64 := default "" audio in
        if negb (PyStr.truthy audio_b64) then Some (sessions, [])
        else
          match b64decode audio_b64 with
          | None => None
          | Some audio_data =>
              Some (<[session_id :=
                        Flow.on_processor (Stt.add_audio now audio_data) s]>
                      sessions, [])
          end
  end.

(** [handle_ai_speech_ended] *)
Definition handle_ai_speech_ended (session_id : string)
    (sessions : gmap string session) : gmap string session * list sent :=
  match sessions !! session_id with
  | None => (sessions, [])
  | Some s =>
      if is_running s then
        (<[session_id :=
             Flow.on_processor
               (fun p => if negb (Stt.is_running p) then Stt.start p
                         else Stt.unmute p) s]> sessions, [])
      else (sessions, [])
  end.

(** [stop_interview] *)
Definition stop_interview (session_id : string)
    (sessions : gmap string session) : gmap string session * list sent :=
  match sessions !! session_id with
  | None => (sessions, [])
  | Some s =>
      if is_running s then
        (<[session_id :=
             {| is_running := false; chat_history := chat_history s;
                audio_processor := Stt.stop <$> audio_processor s |}]>
           sessions, [Info "Interview ended"])
      else (sessions, [])
  end.

(** A step of a thread of the session's processor: the processor moves, and
    the text it hands to [on_transcript_callback], when there is one, goes to
    [process_user_transcript] of this session (the callback given to
    [StreamingAudioProcessor] by [start_interview]). *)
Definition thread_step (session_id : string) (e : Stt.event)
    (sessions : gmap string session)
  : option (gmap string session * list sent) :=
  match sessions !! session_id with
  | None => Some (sessions, [])
  | Some s =>
      match audio_processor s with
      | None => Some (sessions, [])
      | Some p =>
          let sessions1 :=
            <[session_id := Flow.on_processor (fun _ => fst (Stt.step e p)) s]>
              sessions in
          let out := snd (Stt.step e p) in
          match Stt.callbacks out with
          | [] => Some (sessions1, FromStt <$> out)
          | text :: _ =>
              match Flow.process_user_transcript re_sub json_loads
                      synthesize_speech get_llm_response random_choice
                      sessions1 session_id text with
              | None => None
              | Some (sessions2, effects) =>
                  Some (sessions2, (FromStt <$> out) ++ (FromFlow <$> effects))
              end
          end
      end
  end.

(** One request on one session, at time [now]. *)
Definition handle (now : Stt.time) (session_id : string) (r : request)
    (sessions : gmap string session)
  : option (gmap string session * list sent) :=
  match r with
  | Connect => Some (handle_connect session_id sessions)
  | Disconnect => Some (handle_disconnect session_id sessions)
  | StartInterview data => start_interview now session_id data sessions
  | AudioChunk audio => handle_audio_chunk now session_id audio sessions
  | AiSpeechEnded => Some (handle_ai_speech_ended session_id sessions)
  | StopInterview => Some (stop_interview session_id sessions)
  | Response r => thread_step session_id (Stt.EResponse r now) sessions
  | SilenceCheck => thread_step session_id (Stt.ECheckSilence now) sessions
  end.

(** Requests in order, each with its time and its session; [None] as soon as
    one of them raises. *)
Fixpoint serve (rs : list (Stt.time * string * request))
    (sessions : gmap string session)
  : option (gmap string session * list sent) :=
  match rs with
  | [] => Some (sessions, [])
  | (now, session_id, r) :: rs' =>
      match handle now session_id r sessions with
      | None => None
      | Some (sessions1, out1) =>
          match serve rs' sessions1 with
          | None => None
          | Some (sessions2, out2) => Some (sessions2, out1 ++ out2)
          end
      end
  end.

End Handlers.

(** *** Notions used to state the properties *)

(** The flags of a session and of its processor agree: a processor that
    listens runs, and a processor that runs belongs to a running session. *)
Definition flags_agree (s : session) : Prop :=
  match audio_processor s with
  | None => True
  | Some p =>
      (Stt.is_listening p = true -> Stt.is_running p = true)
      /\ (Stt.is_running p = true -> is_running s = true)
  end.

(** The history is empty or begins with the one metadata entry it has. *)
Definition well_formed_history (h : list entry) : Prop :=
  match h with
  | [] => True
  | m :: rest =>
      is_Some (resume m) /\ Forall (fun e => resume e = None) rest
  end.

(** The history of a session is empty or begins with its one metadata
    entry, holds no more than [MAX_QUESTIONS] questions, and is not empty
    once the session has a processor. *)
Definition history_agrees (s : session) : Prop :=
  well_formed_history (chat_history s)
  /\ Flow.get_question_count (chat_history s) <= Flow.MAX_QUESTIONS
  /\ (is_Some (audio_processor s) -> chat_history s <> []).

(** The two properties every session has. *)
Definition session_ok (s : session) : Prop := flags_agree s /\ history_agrees s.

End Events.

(** ** The debug endpoint ([routes/main.py]) *)

Module Routes.

Import Session.

Inductive entry_type := METADATA | INTERVIEWER | CANDIDATE | UNKNOWN.

(** The tag [debug_session] gives an entry. *)
Definition type_of (e : entry) : entry_type :=
  if bool_decide (is_Some (resume e)) then METADATA
  else if bool_decide (is_Some (interviewer e)) then INTERVIEWER
  else if bool_decide (is_Some (candidate e)) then CANDIDATE
  else UNKNOWN.

Definition is_interviewer (t : entry_type) : bool :=
  match t with INTERVIEWER => true | _ => false end.

(** The number of entries that [debug_session] tags [INTERVIEWER]. *)
Definition interviewer_tags (h : list entry) : Z :=
  Z.of_nat (length (filter (fun e => is_interviewer (type_of e) = true) h)).

End Routes.

(** ** A concrete session and environment *)

Module Example.

(** A concrete environment. [re.sub] as it acts on the utterances used
    below, which have no match of the table of [clean_transcript] and no run
    of white space longer than one: the text comes back as it is. A dialogue
    back end whose reply is prose, which [json.loads] rejects; a speech back
    end that is down and returns the empty audio. *)
Definition plain_re_sub (pattern repl : string) (ignorecase : bool)
    (text : string) : string := text.
Definition reject_json (text : string) : Reply.parsed := Reply.DecodeError.
Definition silent_speech (text : string) : string := "".
Definition prose_reply (h : list Session.entry) (answer : string) : string :=
  "Tell me about your last project.".
Definition first_choice (l : list string) : string := hd "" l.

(** A session with one question asked and its processor started. *)
Definition one_question : Session.session :=
  {| Session.is_running := true;
     Session.chat_history :=
       [Session.metadata "resume" "jd" "technical";
        Session.question "Please introduce yourself."];
     Session.audio_processor := Some (Stt.start (Stt.init 0)) |}.

Definition one_session : gmap string Session.session :=
  {[ "sid" := one_question ]}.

(** A reply that parses, scores the answer and asks to stop. *)
Definition stop_reply : Reply.reply :=
  {| Reply.evaluation := Some "Good answer";
     Reply.score := Some 7;
     Reply.next_question := Some "What else have you built?";
     Reply.should_continue := Some false;
     Reply.interview_stage := Some "late" |}.

Definition accept_json (text : string) : Reply.parsed :=
  Reply.Object stop_reply.

(** A running session in which [n] questions were asked. *)
Definition asked (n : nat) : Session.session :=
  {| Session.is_running := true;
     Session.chat_history :=
       Session.metadata "resume" "jd" "technical"
       :: replicate n (Session.question "Tell me more.");
     Session.audio_processor := Some (Stt.start (Stt.init 0)) |}.

(** An opening question, a decoder that accepts every text, a payload. *)
Definition opening (resume_text job_description category : string) : string :=
  "Please introduce yourself.".
Definition decode_all (text : string) : option Stt.chunk := Some [x01%byte].
Definition payload : Events.start_data :=
  {| Events.data_resume := Some "resume";
     Events.data_jd := Some "jd";
     Events.data_question_type := None |}.

(** A client connects, starts the interview, reports the end of the first
    play back, sends audio; the candidate asks to stop and a silence check
    hands that utterance to the orchestrator. *)
Definition requests : list (Stt.time * string * Events.request) :=
  [ (1000, "sid", Events.Connect);
    (2000, "sid", Events.StartInterview payload);
    (9000, "sid", Events.AiSpeechEnded);
    (9100, "sid", Events.AudioChunk (Some "AQ=="));
    (12000, "sid",
     Events.Response (Stt.final_fragment "let's stop the interview"));
    (15000, "sid", Events.SilenceCheck) ].

Definition served : option (gmap string Session.session * list Events.sent) :=
  Events.serve plain_re_sub reject_json silent_speech prose_reply first_choice
    opening decode_all requests ∅.

Definition served_sessions : gmap string Session.session :=
  default ∅ (fst <$> served).

Definition served_session : Session.session :=
  default Events.new_session (served_sessions !! "sid").

End Example.

(** * Properties *)

(** ** Strings *)

Section StringFacts.

Lemma startswith_spec (p s : string) :
  PyStr.startswith p s = true <-> exists post, s = p +:+ post.
Proof.
  revert s; induction p as [|a p IH]; intros s; simpl.
  - split; [intros _; exists s; reflexivity | reflexivity].
  - destruct s as [|b s].
    + split; [discriminate | intros [post H]; discriminate].
    + destruct (Ascii.eqb_spec a b) as [->|Hne].
      * rewrite IH. split; intros [post H]; exists post.
        -- now rewrite H.
        -- now inversion H.
      * split; [discriminate | intros [post H]; inversion H; congruence].
Qed.

Lemma contains_spec (p s : string) :
  PyStr.contains p s = true <-> exists pre post, s = pre +:+ p +:+ post.
Proof.
  induction s as [|c s IH]; simpl.
  - rewrite orb_false_r, startswith_spec. split.
    + intros [post H]. exists "", post. exact H.
    + intros [pre [post H]]. destruct pre; [exists post; exact H | discriminate].
  - rewrite orb_true_iff, startswith_spec, IH. split.
    + intros [[post H] | [pre [post H]]].
      * exists "", post. exact H.
      * exists (String c pre), post. simpl. now rewrite H.
    + intros [pre [post H]]. destruct pre as [|d pre]; simpl in H.
      * left. exists post. exact H.
      * right. inversion H. exists pre, post. reflexivity.
Qed.

Lemma lower_app (a b : string) :
  PyStr.lower (a +:+ b) = PyStr.lower a +:+ PyStr.lower b.
Proof. induction a as [|c a IH]; simpl; [reflexivity | now rewrite IH]. Qed.

End StringFacts.

(** ** Stop intent *)

Section Case.

Lemma lower_char_plain (c d : ascii) :
  Flow.plain_char d = true ->
  PyStr.lower_char c = d <-> Flow.same_letter c d = true.
Proof.
  unfold Flow.plain_char, Flow.same_letter, PyStr.lower_char.
  intros Hd. apply andb_true_iff in Hd as [Hlt Hup].
  apply Nat.ltb_lt in Hlt. apply negb_true_iff in Hup.
  assert (Hc := nat_ascii_bounded c).
  set (n := nat_of_ascii c) in *. set (m := nat_of_ascii d) in *.
  assert (Hup' : ~ (65 <= m <= 90)%nat).
  { intros [H1 H2]. apply Nat.leb_le in H1, H2. now rewrite H1, H2 in Hup. }
  destruct ((65 <=? n) && (n <=? 90)
            || (192 <=? n) && (n <=? 222) && negb (n =? 215))%nat eqn:E.
  - assert (Hr : (65 <= n <= 90 \/ 192 <= n <= 222)%nat).
    { apply orb_true_iff in E as [E|E].
      - apply andb_true_iff in E as [E1 E2].
        apply Nat.leb_le in E1, E2. lia.
      - apply andb_true_iff in E as [E _].
        apply andb_true_iff in E as [E1 E2].
        apply Nat.leb_le in E1, E2. lia. }
    split.
    + intros H. apply (f_equal nat_of_ascii) in H.
      rewrite nat_ascii_embedding in H by lia. fold m in H.
      apply orb_true_iff. right.
      rewrite !andb_true_iff, !Nat.leb_le, Nat.eqb_eq. lia.
    + intros H. apply orb_true_iff in H as [H|H].
      * apply Ascii.eqb_eq in H. subst d. fold n in Hup', Hlt. lia.
      * rewrite !andb_true_iff, !Nat.leb_le, Nat.eqb_eq in H.
        destruct H as [_ H]. rewrite H. unfold m. apply ascii_nat_embedding.
  - assert (Hr : ~ (65 <= n <= 90)%nat).
    { intros [H1 H2]. apply Nat.leb_le in H1, H2.
      now rewrite H1, H2 in E. }
    split.
    + intros ->. apply orb_true_iff. left. apply Ascii.eqb_refl.
    + intros H. apply orb_true_iff in H as [H|H].
      * now apply Ascii.eqb_eq in H.
      * rewrite !andb_true_iff, !Nat.leb_le, Nat.eqb_eq in H. lia.
Qed.

Lemma lower_plain (phrase : string) :
  Flow.plain phrase = true ->
  forall w, PyStr.lower w = phrase <-> Flow.same_text w phrase = true.
Proof.
  induction phrase as [|d phrase IH]; intros Hp w.
  - destruct w; simpl; split; try reflexivity; discriminate.
  - cbn [Flow.plain] in Hp. apply andb_true_iff in Hp as [Hd Hp].
    destruct w as [|c w]; cbn [PyStr.lower Flow.same_text];
      [split; discriminate|].
    rewrite andb_true_iff, <- (IH Hp), <- (lower_char_plain c d Hd).
    split; [intros H; inversion H; auto | intros [-> ->]; reflexivity].
Qed.

(** A block of the lowered text is the lowering of a block of the text. *)
Lemma lower_block (pre' mid' post' : string) :
  forall text,
    PyStr.lower text = pre' +:+ mid' +:+ post' ->
    exists pre mid post,
      text = pre +:+ mid +:+ post /\ PyStr.lower mid = mid'.
Proof.
  assert (Hmid : forall mid' text,
             PyStr.lower text = mid' +:+ post' ->
             exists mid post, text = mid +:+ post /\ PyStr.lower mid = mid').
  { clear. induction mid' as [|d mid' IH]; intros text H.
    - exists "", text. split; reflexivity.
    - destruct text as [|c text]; [discriminate|].
      change (String d mid' +:+ post') with (String d (mid' +:+ post')) in H.
      cbn [PyStr.lower] in H. inversion H as [[Hc Ht]].
      destruct (IH text Ht) as [mid [post [-> Hl]]].
      exists (String c mid), post. split; [reflexivity|].
      cbn [PyStr.lower]. now rewrite Hl. }
  induction pre' as [|a pre' IH]; intros text H.
  - destruct (Hmid mid' text H) as [mid [post [-> Hl]]].
    exists "", mid, post. split; [reflexivity | exact Hl].
  - destruct text as [|c text]; [discriminate|].
    change (String a pre' +:+ mid' +:+ post')
      with (String a (pre' +:+ mid' +:+ post')) in H.
    cbn [PyStr.lower] in H. inversion H as [[Hc Ht]].
    destruct (IH text Ht) as [pre [mid [post [-> Hl]]]].
    exists (String c pre), mid, post. split; [reflexivity | exact Hl].
Qed.

End Case.

(** C9. [check_stop_command] is a test of containment, letter case apart:
    it is true exactly when the transcript has one of the nine stop phrases
    somewhere inside it, each letter of the phrase in either case, whatever
    stands before and after; said with [str.lower] as the code has it, when
    the lowered transcript has the phrase inside it. So "we should not stop
    the interview" counts as stop intent, in capitals too, and a transcript
    with no such phrase does not. *)
Theorem check_stop_command_substring :
  (forall text,
      Flow.check_stop_command text = true <->
      exists phrase pre w post,
        In phrase Flow.stop_phrases /\
        text = pre +:+ w +:+ post /\
        Flow.same_text w phrase = true)
  /\ (forall text,
         Flow.check_stop_command text = true <->
         exists phrase pre post,
           In phrase Flow.stop_phrases /\
           PyStr.lower text = pre +:+ phrase +:+ post)
  /\ length Flow.stop_phrases = 9%nat
  /\ Flow.check_stop_command "we should not stop the interview" = true
  /\ Flow.check_stop_command "We should NOT Stop The INTERVIEW, please" = true
  /\ Flow.check_stop_command "we should carry on with the interview" = false
  /\ (forall pre mid post,
         In (PyStr.lower mid) Flow.stop_phrases ->
         Flow.check_stop_command (pre +:+ mid +:+ post) = true).
Proof.
  assert (Hiff : forall text,
      Flow.check_stop_command text = true <->
      exists phrase pre post,
        In phrase Flow.stop_phrases /\
        PyStr.lower text = pre +:+ phrase +:+ post).
  { intros text. unfold Flow.check_stop_command. rewrite existsb_exists.
    split.
    - intros [phrase [Hin Hc]]. apply contains_spec in Hc as [pre [post H]].
      exists phrase, pre, post. auto.
    - intros [phrase [pre [post [Hin H]]]]. exists phrase. split; [exact Hin|].
      apply contains_spec. eauto. }
  assert (Hplain : forall phrase,
             In phrase Flow.stop_phrases -> Flow.plain phrase = true).
  { intros phrase Hin. unfold Flow.stop_phrases in Hin. simpl in Hin.
    repeat (destruct Hin as [<-|Hin]; [reflexivity|]). contradiction. }
  split; [|split; [exact Hiff|]].
  - intros text. rewrite Hiff. split.
    + intros [phrase [pre' [post' [Hin H]]]].
      destruct (lower_block pre' phrase post' text H)
        as [pre [w [post [-> Hl]]]].
      exists phrase, pre, w, post. split; [exact Hin|]. split; [reflexivity|].
      apply (lower_plain phrase (Hplain phrase Hin)). exact Hl.
    + intros [phrase [pre [w [post [Hin [-> Hs]]]]]].
      exists phrase, (PyStr.lower pre), (PyStr.lower post).
      split; [exact Hin|]. rewrite !lower_app.
      apply (lower_plain phrase (Hplain phrase Hin)) in Hs. now rewrite Hs.
  - split; [reflexivity|]. split; [reflexivity|]. split; [reflexivity|].
    split; [reflexivity|].
    intros pre mid post Hin. apply Hiff.
    exists (PyStr.lower mid), (PyStr.lower pre), (PyStr.lower post).
    split; [exact Hin|]. now rewrite !lower_app.
Qed.

(** ** The silence check is a debounce *)

Section Silence.

Import Stt.

Lemma process_final_fragment (text : string) (now : time) (p : processor) :
  is_running p = true -> is_listening p = true ->
  PyStr.truthy (PyStr.strip text) = true -> 1 < PyStr.len (PyStr.strip text) ->
  process_response (final_fragment text) now p =
  (true,
   set_segment (current_transcript p +:+ PyStr.strip text +:+ " ") (Some now) p,
   [Emit "final_transcript_part" (PyStr.strip text); SpawnCheck now]).
Proof.
  intros Hrun Hlis Htr Hlen. unfold process_response, final_fragment. simpl.
  rewrite Hrun, Hlis, Htr. simpl.
  destruct (Z.ltb_spec 1 (PyStr.len (PyStr.strip text))); [reflexivity | lia].
Qed.

(** A check that wakes up when nothing is pending does nothing. *)
Lemma check_silence_idle (now : time) (p : processor) :
  last_final_time p = None -> check_silence now p = (p, []).
Proof.
  intros H. unfold check_silence, silence_elapsed. now rewrite H.
Qed.

(** A check that wakes up less than the threshold after the last fragment
    does nothing: it is the later check that decides. *)
Lemma check_silence_stale (now t : time) (p : processor) :
  last_final_time p = Some t -> now - t < SILENCE_THRESHOLD ->
  check_silence now p = (p, []).
Proof.
  intros H Hlt. unfold check_silence, silence_elapsed. rewrite H.
  destruct (Z.geb_spec (now - t) SILENCE_THRESHOLD); [lia|].
  now rewrite andb_false_r.
Qed.

(** A check that wakes up at least the threshold after the last fragment
    hands the utterance over and clears the segment. *)
Lemma check_silence_fires (now t : time) (p : processor) :
  last_final_time p = Some t -> t <> 0 -> SILENCE_THRESHOLD <= now - t ->
  is_listening p = true ->
  2 < PyStr.len (PyStr.strip (current_transcript p)) ->
  PyStr.isspace (PyStr.strip (current_transcript p)) = false ->
  check_silence now p =
  (set_segment "" None p, [Callback (PyStr.strip (current_transcript p))]).
Proof.
  intros H Ht Hge Hlis Hlen Hsp. unfold check_silence, silence_elapsed.
  rewrite H, Hlis, Hsp.
  destruct (Z.eqb_spec t 0); [contradiction|].
  destruct (Z.geb_spec (now - t) SILENCE_THRESHOLD); [|lia]. simpl.
  destruct (PyStr.strip (current_transcript p)) eqn:E;
    [unfold PyStr.len in Hlen; simpl in Hlen; lia|].
  simpl. destruct (Z.ltb_spec 2 (PyStr.len (String a s))); [reflexivity|lia].
Qed.

(** When no two silence checks overlap (each runs from its first statement
    to its last before the other begins): two final fragments "hello" and
    "world" less than the threshold apart, on a running, listening processor
    with an empty segment, and then the two silence checks they started,
    each waking up no earlier than the threshold after its own fragment and
    in either order: the callback is called once, with "hello world". *)
Theorem silence_debounce_hello_world
    (p : processor) (t1 t2 c1 c2 : time) (checks : list event) :
  is_running p = true -> is_listening p = true ->
  current_transcript p = "" ->
  0 < t1 -> t1 <= t2 -> t2 - t1 < SILENCE_THRESHOLD ->
  t1 + SILENCE_THRESHOLD <= c1 -> t2 + SILENCE_THRESHOLD <= c2 ->
  Permutation [ECheckSilence c1; ECheckSilence c2] checks ->
  callbacks
    (snd (run (EResponse (final_fragment "hello") t1
               :: EResponse (final_fragment "world") t2 :: checks) p))
  = ["hello world"].
Proof.
  intros Hrun Hlis Hcur Ht1 Ht12 Hnear Hc1 Hc2 Hperm.
  set (p1 := set_segment "hello " (Some t1) p).
  set (p2 := set_segment "hello world " (Some t2) p1).
  assert (E1 : step (EResponse (final_fragment "hello") t1) p
               = (p1, [Emit "final_transcript_part" "hello"; SpawnCheck t1])).
  { simpl. rewrite process_final_fragment; try assumption; try reflexivity.
    rewrite Hcur. reflexivity. }
  assert (E2 : step (EResponse (final_fragment "world") t2) p1
               = (p2, [Emit "final_transcript_part" "world"; SpawnCheck t2])).
  { simpl. rewrite process_final_fragment; try assumption; reflexivity. }
  assert (Efire : forall now, t2 + SILENCE_THRESHOLD <= now ->
            check_silence now p2
            = (set_segment "" None p2, [Callback "hello world"])).
  { intros now Hnow.
    rewrite (check_silence_fires now t2); try reflexivity; try assumption; lia. }
  assert (Eidle : forall now,
            check_silence now (set_segment "" None p2)
            = (set_segment "" None p2, [])).
  { intros now. apply check_silence_idle. reflexivity. }
  assert (Estale : forall now, now - t2 < SILENCE_THRESHOLD ->
            check_silence now p2 = (p2, [])).
  { intros now Hnow. apply (check_silence_stale now t2); [reflexivity | exact Hnow]. }
  cbn [run]. rewrite E1, E2.
  apply Permutation_length_2_inv in Hperm as [-> | ->]; cbn [run step].
  - destruct (Z.le_gt_cases (t2 + SILENCE_THRESHOLD) c1) as [Hlate | Hearly].
    + rewrite (Efire c1 Hlate), Eidle. reflexivity.
    + rewrite (Estale c1) by lia. rewrite (Efire c2 Hc2). reflexivity.
  - rewrite (Efire c2 Hc2), Eidle. reflexivity.
Qed.

Lemma silence_debounce_hello_world_witness :
  callbacks
    (snd (run [EResponse (final_fragment "hello") 10000;
               EResponse (final_fragment "world") 11500;
               ECheckSilence 13000; ECheckSilence 14500]
              (start (init 0))))
  = ["hello world"].
Proof.
  apply (silence_debounce_hello_world (start (init 0)) 10000 11500 13000 14500);
    try reflexivity; unfold SILENCE_THRESHOLD; lia.
Defined.

(** A check that no other thread interrupts is [check_silence]. *)
Lemma check_alone_is_check_silence (now : time) (p : processor) :
  check_alone 6 now TestElapsed p = check_silence now p.
Proof.
  unfold check_silence. cbn [check_alone check_step].
  destruct (silence_elapsed now p); [|reflexivity].
  cbn [check_alone check_step].
  destruct (PyStr.truthy (PyStr.strip (current_transcript p))
            && is_listening p); cbn [check_alone check_step];
    [|reflexivity].
  destruct ((2 <? PyStr.len (PyStr.strip (current_transcript p)))
            && negb (PyStr.isspace (PyStr.strip (current_transcript p))));
    reflexivity.
Qed.

Lemma interleave_turn (a : turn) (turns : list turn) (w w1 : world)
    (o1 : list output) (rest : list string) :
  turn_step a w = (w1, o1) ->
  callbacks (snd (interleave turns w1)) = rest ->
  callbacks (snd (interleave (a :: turns) w)) = callbacks o1 ++ rest.
Proof.
  intros H <-. cbn [interleave]. rewrite H.
  destruct (interleave turns w1) as [w2 o2]. cbn [snd].
  unfold callbacks. apply flat_map_app.
Qed.

Lemma runs_turn (i : nat) (now : time) (p p' : processor)
    (l : list check_pc) (pc pc' : check_pc) (out : list output) :
  l !! i = Some pc ->
  check_step now pc p = (pc', p', out) ->
  turn_step (Runs i now) {| shared := p; checks := l |}
  = ({| shared := p'; checks := <[i := pc']> l |}, out).
Proof. intros Hl Hs. unfold turn_step. cbn [shared checks]. now rewrite Hl, Hs. Qed.

Lemma check_wakes (now since : time) (p : processor) :
  since + SILENCE_THRESHOLD <= now ->
  check_step now (Sleeping since) p = (TestElapsed, p, []).
Proof.
  intros H. cbn [check_step].
  destruct (Z.geb_spec (now - since) SILENCE_THRESHOLD); [reflexivity | lia].
Qed.

Lemma check_passes_elapsed (now t : time) (p : processor) :
  last_final_time p = Some t -> t <> 0 -> t + SILENCE_THRESHOLD <= now ->
  check_step now TestElapsed p = (TestText, p, []).
Proof.
  intros Hl Ht H. cbn [check_step]. unfold silence_elapsed. rewrite Hl.
  destruct (Z.eqb_spec t 0); [contradiction|].
  destruct (Z.geb_spec (now - t) SILENCE_THRESHOLD); [reflexivity | lia].
Qed.

(** When the first check has returned before the second begins, the
    second finds nothing pending: one callback. *)
Lemma checks_in_turn_call_back_once (now t1 t2 c1 c2 : time) :
  0 < t1 -> t1 <= t2 -> t2 - t1 < SILENCE_THRESHOLD ->
  t2 + SILENCE_THRESHOLD <= c1 -> c1 <= c2 ->
  callbacks
    (snd (interleave (checks_in_turn t1 t2 c1 c2)
            {| shared := start (init now); checks := [] |}))
  = ["hello world"].
Proof.
  intros H1 H12 Hnear Hc1 Hc2.
  assert (Ht2 : t2 <> 0) by lia.
  unfold checks_in_turn.
  etransitivity.
  { eapply interleave_turn; [reflexivity|].
    eapply interleave_turn; [reflexivity|].
    eapply interleave_turn;
      [eapply runs_turn; [reflexivity | apply check_wakes; lia]|].
    eapply interleave_turn;
      [eapply runs_turn;
       [reflexivity
       | apply (check_passes_elapsed c1 t2); [reflexivity | exact Ht2 | lia]]|].
    do 5 (eapply interleave_turn; [eapply runs_turn; reflexivity|]).
    eapply interleave_turn;
      [eapply runs_turn; [reflexivity | apply check_wakes; lia]|].
    eapply interleave_turn; [eapply runs_turn; reflexivity|].
    reflexivity. }
  reflexivity.
Qed.

(** C1, on the code. "hello" and "world" arrive less than the threshold
    apart on a processor that was started, and nothing follows. The two
    silence checks they started both wake at least the threshold after
    "world"; the second passes the tests of lines 324 and 325 before the
    first has cleared the segment (nothing makes the two exclude each
    other). Both then read "hello world" and both call back: the callback is
    called twice for the one utterance. *)
Theorem overlapping_checks_call_back_twice (now t1 t2 c1 c2 : time) :
  0 < t1 -> t1 <= t2 -> t2 - t1 < SILENCE_THRESHOLD ->
  t2 + SILENCE_THRESHOLD <= c1 -> c1 <= c2 ->
  callbacks
    (snd (interleave (overlapping_checks t1 t2 c1 c2)
            {| shared := start (init now); checks := [] |}))
  = ["hello world"; "hello world"].
Proof.
  intros H1 H12 Hnear Hc1 Hc2.
  assert (Ht2 : t2 <> 0) by lia.
  unfold overlapping_checks.
  etransitivity.
  { (* the two final results *)
    eapply interleave_turn; [reflexivity|].
    eapply interleave_turn; [reflexivity|].
    (* the first check wakes and passes both tests *)
    eapply interleave_turn;
      [eapply runs_turn; [reflexivity | apply check_wakes; lia]|].
    eapply interleave_turn;
      [eapply runs_turn;
       [reflexivity
       | apply (check_passes_elapsed c1 t2); [reflexivity | exact Ht2 | lia]]|].
    eapply interleave_turn; [eapply runs_turn; reflexivity|].
    (* so does the second *)
    eapply interleave_turn;
      [eapply runs_turn; [reflexivity | apply check_wakes; lia]|].
    eapply interleave_turn;
      [eapply runs_turn;
       [reflexivity
       | apply (check_passes_elapsed c2 t2); [reflexivity | exact Ht2 | lia]]|].
    eapply interleave_turn; [eapply runs_turn; reflexivity|].
    (* both read the segment, then each clears it and calls back *)
    do 8 (eapply interleave_turn; [eapply runs_turn; reflexivity|]).
    reflexivity. }
  reflexivity.
Qed.
Lemma overlapping_checks_call_back_twice_witness :
  callbacks
    (snd (interleave (overlapping_checks 10000 10001 13001 13002)
            {| shared := start (init 0); checks := [] |}))
  = ["hello world"; "hello world"].
Proof.
  apply (overlapping_checks_call_back_twice 0 10000 10001 13001 13002);
    unfold SILENCE_THRESHOLD; lia.
Defined.

End Silence.

(** ** The flags and the queue under the public methods *)

Section Flags.

Import Stt.

Lemma run_cons (e : event) (es : list event) (p : processor) :
  fst (run (e :: es) p) = fst (run es (fst (step e p))).
Proof.
  cbn [run]. destruct (step e p) as [p1 o1]. cbn [fst].
  destruct (run es p1) as [p2 o2]. reflexivity.
Qed.

Lemma run_app (es1 es2 : list event) (p : processor) :
  fst (run (es1 ++ es2) p) = fst (run es2 (fst (run es1 p))).
Proof.
  revert p; induction es1 as [|e es1 IH]; intros p; [reflexivity|].
  rewrite <- app_comm_cons, !run_cons. apply IH.
Qed.

Lemma start_invariant (p : processor) :
  listening_implies_running p -> listening_implies_running (start p).
Proof.
  unfold listening_implies_running, start. intros H.
  destruct (is_running p) eqn:E; simpl; intros _; [exact E | reflexivity].
Qed.

Lemma stop_invariant (p : processor) :
  listening_implies_running p -> listening_implies_running (stop p).
Proof.
  unfold listening_implies_running, stop. intros H.
  destruct (is_running p) eqn:E; simpl; [discriminate | rewrite E; exact H].
Qed.

Lemma mute_invariant (p : processor) : listening_implies_running (mute p).
Proof. unfold listening_implies_running. simpl. discriminate. Qed.

Lemma unmute_invariant (p : processor) :
  is_running p = true -> listening_implies_running (unmute p).
Proof. unfold listening_implies_running. simpl. auto. Qed.

(** [unmute] sets the listening flag whatever the running flag is. *)
Lemma unmute_listening (p : processor) :
  is_listening (unmute p) = true /\ is_running (unmute p) = is_running p.
Proof. split; reflexivity. Qed.

(** C3, as stated, fails: [unmute] on a processor that was never started
    leaves it listening and not running. *)
Lemma unmute_breaks_invariant : ~ control_keeps_invariant.
Proof.
  intros H. specialize (H 0 [EUnmute] eq_refl).
  unfold listening_implies_running in H. simpl in H.
  specialize (H eq_refl). discriminate.
Qed.

(** C3, amended. For every sequence of [start], [stop], [mute] and [unmute]
    in which [unmute] is only called while the processor is running,
    listening implies running after the sequence (and so after each call,
    every prefix being such a sequence). *)
Theorem control_keeps_invariant_when_unmute_guarded
    (calls : list event) (p : processor) :
  listening_implies_running p ->
  forallb is_control calls = true ->
  unmute_while_running calls p = true ->
  listening_implies_running (fst (run calls p)).
Proof.
  revert p; induction calls as [|e calls IH]; intros p Hinv Hctl Hgu.
  - exact Hinv.
  - rewrite run_cons. simpl in Hctl, Hgu.
    apply andb_true_iff in Hctl as [He Hctl].
    apply andb_true_iff in Hgu as [Hg Hgu].
    apply IH; [|exact Hctl|exact Hgu].
    destruct e; try discriminate He; simpl.
    + now apply start_invariant.
    + now apply stop_invariant.
    + apply mute_invariant.
    + now apply unmute_invariant.
Qed.

Lemma control_keeps_invariant_when_unmute_guarded_witness :
  listening_implies_running
    (fst (run [EStart; EMute; EUnmute; EStop; EMute; EStart] (init 0))).
Proof.
  apply (control_keeps_invariant_when_unmute_guarded
           [EStart; EMute; EUnmute; EStop; EMute; EStart] (init 0));
    [intros H; discriminate H | reflexivity | reflexivity].
Defined.

(** *** The queue after [stop] *)

Ltac case_split :=
  repeat match goal with
         | |- context [if ?c then _ else _] => destruct c eqn:?; simpl
         | |- context [match ?x with _ => _ end] => destruct x eqn:?; simpl
         end.

(** The responses and the silence checks touch neither the running flag nor
    the queue. *)
Lemma response_frame (r : response) (now : time) (p : processor) :
  let p' := fst (step (EResponse r now) p) in
  is_running p' = is_running p /\ audio_queue p' = audio_queue p.
Proof.
  simpl. unfold process_response. case_split; auto.
Qed.

Lemma check_silence_frame (now : time) (p : processor) :
  let p' := fst (check_silence now p) in
  is_running p' = is_running p /\ audio_queue p' = audio_queue p.
Proof.
  simpl. unfold check_silence. case_split; auto.
Qed.

Lemma step_idle_queue (e : event) (p : processor) :
  idle_queue p -> idle_queue (fst (step e p)).
Proof.
  unfold idle_queue, no_audio. intros Hinv.
  destruct e.
  1-7: simpl;
    unfold start, stop, add_audio, queue_get, should_restart;
    case_split; intros Hr; auto; try congruence.
  - destruct (Hinv Hr) as [H|H]; [discriminate | inversion H; auto].
  - destruct (response_frame r now p) as [-> ->]. exact Hinv.
  - destruct (check_silence_frame now p) as [H1 H2]. simpl.
    rewrite H1, H2. exact Hinv.
Qed.

Lemma run_idle_queue (es : list event) (p : processor) :
  idle_queue p -> idle_queue (fst (run es p)).
Proof.
  revert p; induction es as [|e es IH]; intros p H; [exact H|].
  rewrite run_cons. apply IH, step_idle_queue, H.
Qed.

Lemma step_stays_stopped (e : event) (p : processor) :
  e <> EStart -> is_running p = false -> is_running (fst (step e p)) = false.
Proof.
  intros Hne Hr. destruct e; try congruence.
  1-6: simpl; unfold stop, add_audio, queue_get, should_restart;
    case_split; auto; congruence.
  - destruct (response_frame r now p) as [-> _]. exact Hr.
  - destruct (check_silence_frame now p) as [H1 _]. simpl.
    rewrite H1. exact Hr.
Qed.

Lemma run_stays_stopped (es : list event) (p : processor) :
  Forall (fun e => e <> EStart) es -> is_running p = false ->
  is_running (fst (run es p)) = false.
Proof.
  revert p; induction es as [|e es IH]; intros p Hall Hr; [exact Hr|].
  rewrite run_cons. inversion Hall; subst.
  apply IH; [assumption|]. now apply step_stays_stopped.
Qed.

Lemma stop_not_running (p : processor) : is_running (stop p) = false.
Proof. unfold stop. destruct (is_running p) eqn:E; simpl; auto. Qed.

(** C7, as stated, fails on the queue: [stop] on a running processor puts
    the shutdown signal on the queue it has just emptied, and the queue still
    holds it when [add_audio] is called. *)
Lemma stop_leaves_signal_on_queue : ~ queue_empty_after_stop.
Proof.
  intros H. specialize (H 0 1 [EStart] []). discriminate H.
Qed.

(** C7, amended. After [stop], and whatever happens next short of a call of
    [start], the processor is not running, [add_audio] leaves it exactly as
    it is for every chunk, and its queue holds no audio: it is empty or
    holds only the shutdown signal put there by [stop]. *)
Theorem add_audio_after_stop_is_noop
    (now : time) (before after : list event) :
  Forall (fun e => e <> EStart) after ->
  let p := fst (run (before ++ EStop :: after) (init now)) in
  is_running p = false
  /\ (forall t b, add_audio t b p = p)
  /\ no_audio p.
Proof.
  intros Hafter p.
  assert (Hr : is_running p = false).
  { unfold p. rewrite run_app, run_cons. apply run_stays_stopped; [exact Hafter|].
    apply stop_not_running. }
  split; [exact Hr|]. split.
  - intros t b. unfold add_audio. now rewrite Hr.
  - unfold p in *. apply run_idle_queue; [|exact Hr].
    intros _. left. reflexivity.
Qed.

Lemma add_audio_after_stop_is_noop_witness :
  let p := fst (run ([EStart; EAddAudio 5 [x01%byte]]
                     ++ EStop :: [EAddAudio 9 [x02%byte]; EMute]) (init 0)) in
  is_running p = false
  /\ (forall t b, add_audio t b p = p)
  /\ no_audio p.
Proof.
  apply (add_audio_after_stop_is_noop 0 [EStart; EAddAudio 5 [x01%byte]]
           [EAddAudio 9 [x02%byte]; EMute]).
  repeat constructor; discriminate.
Defined.

End Flags.

(** ** The restart policy of the streaming worker *)

Section Restart.

Import Stt.

(** [_should_restart] says yes exactly when the processor is running, the
    restart counter is below its ceiling and the cooldown has elapsed; it
    then counts the restart, records its time and clears the queue. *)
Lemma should_restart_spec (now : time) (p : processor) :
  (fst (should_restart now p) = true <->
   is_running p = true /\ restart_count p < max_restarts
   /\ restart_cooldown <= now - last_restart_time p)
  /\ (fst (should_restart now p) = true ->
      let p' := snd (should_restart now p) in
      restart_count p' = restart_count p + 1
      /\ last_restart_time p' = now /\ audio_queue p' = []
      /\ is_running p' = true)
  /\ (fst (should_restart now p) = false -> snd (should_restart now p) = p).
Proof.
  unfold should_restart.
  destruct (is_running p) eqn:Er; simpl;
    [ destruct (Z.geb_spec (restart_count p) max_restarts); simpl;
      [ | destruct (Z.ltb_spec (now - last_restart_time p) restart_cooldown);
          simpl ] | ];
    intuition (try discriminate; try lia; auto).
Qed.

Lemma stop_last_restart_time (p : processor) :
  last_restart_time (stop p) = last_restart_time p.
Proof. unfold stop. destruct (is_running p); reflexivity. Qed.

Lemma spaced_head_le (gap b b' : Z) (ts : list time) :
  b <= b' -> spaced gap (b' :: ts) = true -> spaced gap (b :: ts) = true.
Proof.
  intros Hle. destruct ts as [|c ts]; [reflexivity|]. simpl.
  rewrite !andb_true_iff, !Z.leb_le. intros [H1 H2]. split; [lia | exact H2].
Qed.

Lemma spaced_tail (gap b : Z) (ts : list time) :
  spaced gap (b :: ts) = true -> spaced gap ts = true.
Proof.
  destruct ts as [|c ts]; [reflexivity|]. simpl.
  rewrite andb_true_iff. tauto.
Qed.

(** On the path of the "iterating requests" errors, which leaves the loop
    when [_should_restart] says no, the restarts are at least the cooldown
    apart, and the first is at least the cooldown after the recorded time of
    the last restart. *)
Lemma iterating_restarts_spaced (attempts : list attempt) :
  Forall (fun a => ends_with a <> Transient) attempts ->
  forall (now : time) (consecutive_errors : Z) (p : processor),
    spaced restart_cooldown
      (last_restart_time p
       :: restarts (snd (stream_audio attempts now consecutive_errors p)))
    = true.
Proof.
  induction 1 as [|a rest Ha Hrest IH]; intros now c p; simpl.
  - destruct (is_running p && (restart_count p <? max_restarts)); reflexivity.
  - destruct (is_running p && (restart_count p <? max_restarts));
      [|reflexivity].
    set (t := now + lasts a).
    set (p1 := if stopped a then stop p else p).
    assert (Hl : last_restart_time p1 = last_restart_time p).
    { unfold p1. destruct (stopped a); [apply stop_last_restart_time | reflexivity]. }
    destruct (ends_with a) eqn:Eo; try contradiction.
    + specialize (IH t 0 p1). destruct (stream_audio rest t 0 p1) as [p' tr].
      simpl in *. now rewrite <- Hl.
    + destruct (negb (is_running p1)); [reflexivity|].
      specialize (IH t c p1). destruct (stream_audio rest t c p1) as [p' tr].
      simpl in *. now rewrite <- Hl.
    + destruct (c + 1 >=? max_consecutive_errors); [reflexivity|].
      destruct (should_restart_spec t p1) as [Hiff [Hupd Hno]].
      destruct (should_restart t p1) as [ok p2]. simpl in *.
      destruct ok; [|reflexivity].
      destruct (proj1 Hiff eq_refl) as [_ [_ Hcool]].
      destruct (Hupd eq_refl) as [_ [Hlast _]].
      specialize (IH (t + backoff (c + 1)) (c + 1) p2).
      destruct (stream_audio rest (t + backoff (c + 1)) (c + 1) p2) as [p3 tr].
      simpl in *. rewrite Hlast in IH. rewrite Hl in Hcool.
      destruct (opens_next tr); simpl.
      * apply andb_true_iff. split; [apply Z.leb_le; exact Hcool | exact IH].
      * apply (spaced_head_le _ _ t); [unfold restart_cooldown in Hcool; lia | exact IH].
    + reflexivity.
    + reflexivity.
Qed.

Lemma last_exited_cons (e : wevent) (tr : list wevent) :
  last tr = Some Exited -> last (e :: tr) = Some Exited.
Proof. intros H. rewrite last_cons, H. reflexivity. Qed.

(** With [n + 1] consecutive errors still allowed and the next [n + 1]
    attempts all ending in a transient error, the worker opens at most
    [n + 1] streams and leaves its loop, whatever the script holds after
    them. *)
Lemma consecutive_errors_exit (n : nat) :
  forall (attempts : list attempt) (now : time)
         (consecutive_errors : Z) (p : processor),
    Z.of_nat (S n) = max_consecutive_errors - consecutive_errors ->
    (S n <= length attempts)%nat ->
    Forall (fun a => transient (ends_with a) = true) (firstn (S n) attempts) ->
    let tr := snd (stream_audio attempts now consecutive_errors p) in
    last tr = Some Exited /\ (opened tr <= S n)%nat.
Proof.
  unfold max_consecutive_errors.
  induction n as [|n IH]; intros attempts now c p Hn Hlen Hall;
    (destruct attempts as [|a rest]; [simpl in Hlen; lia|]);
    cbn [stream_audio];
    (destruct (is_running p && (restart_count p <? max_restarts));
     [|simpl; split; [reflexivity | lia]]);
    cbn [firstn] in Hall; inversion Hall as [|? ? Ha Hall']; subst;
    set (t := now + lasts a);
    set (p1 := if stopped a then stop p else p);
    destruct (ends_with a) eqn:Eo; try discriminate Ha.
  - destruct (Z.geb_spec (c + 1) max_consecutive_errors) as [_|Hlt];
      [|unfold max_consecutive_errors in Hlt; lia].
    simpl. split; [reflexivity | lia].
  - destruct (Z.geb_spec (c + 1) max_consecutive_errors) as [_|Hlt];
      [|unfold max_consecutive_errors in Hlt; lia].
    simpl. split; [reflexivity | lia].
  - destruct (Z.geb_spec (c + 1) max_consecutive_errors) as [Hge|_];
      [unfold max_consecutive_errors in Hge; lia|].
    destruct (should_restart t p1) as [ok p2]. destruct ok.
    + assert (Hrec := IH rest (t + backoff (c + 1)) (c + 1) p2).
      destruct (stream_audio rest (t + backoff (c + 1)) (c + 1) p2) as [p3 tr].
      simpl in Hlen. destruct Hrec as [Hlast Hop]; [lia | lia | exact Hall' |].
      cbn [snd] in *. split.
      * do 3 apply last_exited_cons. exact Hlast.
      * simpl. lia.
    + simpl. split; [reflexivity | lia].
  - destruct (Z.geb_spec (c + 1) max_consecutive_errors) as [Hge|_];
      [unfold max_consecutive_errors in Hge; lia|].
    destruct (should_restart t p1) as [ok p2]. destruct ok.
    + assert (Hrec := IH rest (t + backoff (c + 1)) (c + 1) p2).
      destruct (stream_audio rest (t + backoff (c + 1)) (c + 1) p2) as [p3 tr].
      simpl in Hlen. destruct Hrec as [Hlast Hop]; [lia | lia | exact Hall' |].
      cbn [snd] in *. split.
      * do 3 apply last_exited_cons. exact Hlast.
      * simpl. lia.
    + assert (Hrec := IH rest t (c + 1) p2).
      destruct (stream_audio rest t (c + 1) p2) as [p3 tr].
      simpl in Hlen. destruct Hrec as [Hlast Hop]; [lia | lia | exact Hall' |].
      cbn [snd] in *. split.
      * do 2 apply last_exited_cons. exact Hlast.
      * simpl. lia.
Qed.

(** After three transient errors in a row with no stream that ended well in
    between, the worker has left its loop and no fourth stream is opened. *)
Lemma three_errors_exit (a1 a2 a3 : attempt) (rest : list attempt)
    (now : time) (p : processor) :
  transient (ends_with a1) = true -> transient (ends_with a2) = true ->
  transient (ends_with a3) = true ->
  let tr := snd (stream_audio (a1 :: a2 :: a3 :: rest) now 0 p) in
  last tr = Some Exited /\ (opened tr <= 3)%nat.
Proof.
  intros H1 H2 H3.
  apply (consecutive_errors_exit 2); [reflexivity | simpl; lia |].
  simpl. repeat constructor; assumption.
Qed.

(** C2, on the code. The handler of the service errors calls
    [_should_restart] and, when the answer is no, neither sleeps nor leaves
    the loop: after the second error, 1200 ms after the restart that was
    counted, a third stream is opened at once, with the cooldown not elapsed
    and the restart not counted. The restarts of this run are 1200 ms apart,
    less than the cooldown. *)
Theorem service_error_restarts_inside_cooldown :
  let '(p, tr) := stream_audio unavailable_twice 1000000 0 (start (init 0)) in
  tr = [Opened 1000000; Ended Transient 1005000; Slept 1000;
        Opened 1006000; Ended Transient 1006200; Opened 1006200]
  /\ restarts tr = [1005000; 1006200]
  /\ fst (should_restart 1006200 p) = false
  /\ restart_count p = 1 /\ last_restart_time p = 1005000
  /\ ~ restarts_respect_cooldown.
Proof.
  simpl. repeat split.
  intros H. specialize (H unavailable_twice 1000000 (init 0)).
  discriminate H.
Qed.

End Restart.

(** ** The orchestrator *)

Section OrchestratorFacts.

Import Session Flow.

Variable re_sub : string -> string -> bool -> string -> string.
Variable json_loads : string -> Reply.parsed.
Variable synthesize_speech : string -> string.
Variable get_llm_response : list entry -> string -> string.
Variable random_choice : list string -> string.

Abbreviation clean := (clean_transcript re_sub).
Abbreviation process :=
  (process_user_transcript re_sub json_loads synthesize_speech
                           get_llm_response random_choice).

Lemma get_question_count_app (h1 h2 : list entry) :
  get_question_count (h1 ++ h2) = get_question_count h1 + get_question_count h2.
Proof.
  induction h1 as [|e h1 IH]; simpl; [reflexivity|]. rewrite IH. lia.
Qed.

Lemma long_is_truthy (t : string) : 3 <= PyStr.len t -> PyStr.truthy t = true.
Proof. destruct t; [unfold PyStr.len; simpl; lia | reflexivity]. Qed.


(** C5, amended. An utterance that matches a stop phrase while fewer than
    [MIN_QUESTIONS] questions were asked: the processor is muted, the one
    event sent is the confirmation message with [requires_confirmation] set,
    the session's running flag and history are as before. Nothing records
    that a confirmation is pending: a next utterance that matches a stop
    phrase gets the same confirmation again, whatever happened to the
    processor in between. *)
Theorem stop_intent_below_minimum_asks_again
    (sessions : gmap string session) (session_id user_text : string)
    (s : session) :
  let n := get_question_count (chat_history s) in
  sessions !! session_id = Some s ->
  3 <= PyStr.len (clean user_text) ->
  check_stop_command (clean user_text) = true ->
  n < MIN_QUESTIONS ->
  process sessions session_id user_text =
    Some (<[session_id := on_processor Stt.mute s]> sessions,
          [EmitAiMessage (confirmation synthesize_speech n)])
  /\ requires_confirmation (confirmation synthesize_speech n) = Some true
  /\ is_running (on_processor Stt.mute s) = is_running s
  /\ chat_history (on_processor Stt.mute s) = chat_history s
  /\ Stt.is_listening <$> audio_processor (on_processor Stt.mute s)
     = (fun _ => false) <$> audio_processor s
  /\ forall (sessions1 : gmap string session) (s1 : session) (next : string),
       sessions1 !! session_id = Some s1 ->
       chat_history s1 = chat_history s ->
       3 <= PyStr.len (clean next) ->
       check_stop_command (clean next) = true ->
       process sessions1 session_id next =
         Some (<[session_id := on_processor Stt.mute s1]> sessions1,
               [EmitAiMessage (confirmation synthesize_speech n)]).
Proof.
  intros n Hs Hlen Hstop Hmin.
  assert (Hgen : forall (sessions1 : gmap string session) (s1 : session)
                        (next : string),
             sessions1 !! session_id = Some s1 ->
             chat_history s1 = chat_history s ->
             3 <= PyStr.len (clean next) ->
             check_stop_command (clean next) = true ->
             process sessions1 session_id next =
               Some (<[session_id := on_processor Stt.mute s1]> sessions1,
                     [EmitAiMessage (confirmation synthesize_speech n)])).
  { intros sessions1 s1 next Hs1 Hh Hl Hst.
    unfold process_user_transcript. rewrite Hs1.
    rewrite (long_is_truthy _ Hl). simpl.
    destruct (Z.ltb_spec (PyStr.len (clean next)) 3); [lia|].
    rewrite Hst, Hh. fold n.
    destruct (Z.geb_spec n MIN_QUESTIONS); [lia|]. reflexivity. }
  split; [apply Hgen; auto|]. split; [reflexivity|]. split; [reflexivity|].
  split; [reflexivity|]. split; [|exact Hgen].
  simpl. destruct (audio_processor s); reflexivity.
Qed.

End OrchestratorFacts.


Lemma stop_intent_below_minimum_asks_again_witness :
  Flow.process_user_transcript Example.plain_re_sub Example.reject_json Example.silent_speech
    Example.prose_reply Example.first_choice Example.one_session "sid" "let's stop the interview"
  = Some (<["sid" := Flow.on_processor Stt.mute Example.one_question]> Example.one_session,
          [Flow.EmitAiMessage (Flow.confirmation Example.silent_speech 1)]).
Proof.
  apply (stop_intent_below_minimum_asks_again Example.plain_re_sub Example.reject_json
           Example.silent_speech Example.prose_reply Example.first_choice Example.one_session "sid"
           "let's stop the interview" Example.one_question);
    first [reflexivity | vm_compute; discriminate].
Defined.

(** C5, as stated, fails on its last part: after "let's stop the interview"
    was answered with a request for confirmation, the next utterance "yes,
    stop the interview" is looked at for stop intent like any other and is
    answered with a request for confirmation again. *)
Lemma confirmation_is_asked_twice :
  ~ Flow.confirmation_is_one_shot Example.plain_re_sub Example.reject_json Example.silent_speech
      Example.prose_reply Example.first_choice.
Proof.
  intros H.
  apply (H Example.one_session
           (<["sid" := Flow.on_processor Stt.mute Example.one_question]> Example.one_session)
           (<["sid" := Flow.on_processor Stt.mute Example.one_question]> Example.one_session)
           "sid" "let's stop the interview" "yes, stop the interview"
           (Flow.confirmation Example.silent_speech 1)
           [Flow.EmitAiMessage (Flow.confirmation Example.silent_speech 1)]
           eq_refl eq_refl eq_refl
           (Flow.confirmation Example.silent_speech 1)); [left|]; reflexivity.
Qed.

(** ** The closing sequence *)

Section Closing.

Import Session Flow.

Variable synthesize_speech : string -> string.

(** C8, as stated, fails on its first part: with a report that takes five
    seconds to assemble and a wait of 9.6 seconds, the wait begins when the
    assembly has ended; the two share no stretch of time. *)
Lemma wait_begins_after_assembly : ~ assembly_concurrent_with_wait.
Proof.
  intros H. specialize (H unit tt 5000 9600 0).
  discriminate H; reflexivity.
Qed.

Lemma overlap_adjacent (a b c : Z) : overlap a b b c = false.
Proof. unfold overlap. apply Z.ltb_ge. lia. Qed.

(** C8, amended. The closing sequence sends the closing message with
    [is_final] set and then starts the report thread with the estimated play
    back time of the message, 200 ms a word and three seconds on top. The
    thread assembles the report first; the wait begins when the assembly has
    ended, so that the two do not run at the same time and the assembly does
    not come after the wait; [interview_complete] is sent when the wait has
    elapsed, hence no earlier than the wait after the thread was started.
    Without a report nothing is sent. *)
Theorem report_assembled_then_deferred
    (sessions : gmap string session) (session_id : string) (s : session)
    (questions_asked : Z) (user_initiated : bool)
    (R : Type) (report : option R) (assembly : Z) (now : Stt.time) :
  0 <= assembly ->
  let msg := closing_message questions_asked user_initiated in
  let wait := total_wait_time msg in
  let tr := generate_and_send_report report assembly wait now in
  snd (end_interview_naturally synthesize_speech sessions session_id s
                               questions_asked user_initiated)
  = [EmitAiMessage
       {| text := msg; audio := synthesize_speech msg; evaluation := None;
          score := None; question_number := None; interview_stage := None;
          should_continue := None; requires_confirmation := None;
          is_final := Some true |};
     StartReportThread wait]
  /\ 3000 <= wait
  /\ assembly_during_wait tr = false
  /\ tr = Assembled now (now + assembly)
          :: match report with
             | Some r => [Waited (now + assembly) (now + assembly + wait);
                          Delivered (now + assembly + wait) r]
             | None => []
             end
  /\ forall t r, In (Delivered t r) tr -> now + wait <= t.
Proof.
  intros Hasm msg wait tr.
  assert (Hwait : 3000 <= wait) by (unfold wait, total_wait_time; lia).
  split; [reflexivity|]. split; [exact Hwait|].
  unfold tr, generate_and_send_report. destruct report as [r|]; simpl.
  - split; [apply overlap_adjacent|]. split; [reflexivity|].
    intros t r' [H|[H|[H|[]]]]; inversion H; subst. lia.
  - split; [reflexivity|]. split; [reflexivity|].
    intros t r' [H|[]]. discriminate H.
Qed.

End Closing.

Lemma report_assembled_then_deferred_witness :
  let tr := Flow.generate_and_send_report (Some tt) 5000
              (Flow.total_wait_time (Flow.closing_message 4 true)) 0 in
  tr = [Flow.Assembled 0 5000; Flow.Waited 5000 14600;
        Flow.Delivered 14600 tt]
  /\ Flow.assembly_during_wait tr = false.
Proof.
  destruct (report_assembled_then_deferred Example.silent_speech Example.one_session "sid" Example.one_question 4 true
              unit (Some tt) 5000 0) as [_ [_ [Hno [Htr _]]]]; [lia|].
  split; [exact Htr | exact Hno].
Defined.

(** ** Report pairing *)

Section Pairing.

Import Session Report.

Lemma evaluation_after_two_later (h : list entry) (i : nat) :
  evaluation_after h i =
  (default "" (interviewer_two_later h i ≫= evaluation),
   default 0 (interviewer_two_later h i ≫= score)).
Proof.
  unfold evaluation_after, interviewer_two_later.
  destruct (h !! (i + 2)%nat) as [e|]; [|reflexivity].
  destruct (bool_decide (is_Some (interviewer e))); reflexivity.
Qed.

Lemma omap_step {A B : Type} (f : A -> option B) (x : A) (l : list A) :
  omap f (x :: l) = match f x with
                    | Some y => y :: omap f l
                    | None => omap f l
                    end.
Proof. reflexivity. Qed.

Lemma pair_loop_spec (h : list entry) (fuel : nat) :
  forall (i : nat) (qa_pairs : list qa_pair) (scores : list Z),
    (i + fuel <= length h)%nat ->
    fst (pair_loop fuel i h qa_pairs scores)
    = qa_pairs ++ omap (pair_at h) (seq i fuel).
Proof.
  induction fuel as [|fuel IH]; intros i qa_pairs scores Hlen.
  - simpl. now rewrite app_nil_r.
  - destruct (lookup_lt_is_Some_2 h i) as [cur Hcur]; [lia|].
    cbn [pair_loop seq]. rewrite omap_step. unfold pair_at at 1.
    rewrite Hcur, evaluation_after_two_later, Nat.add_1_r.
    destruct (is_question cur).
    + destruct (h !! S i ≫= candidate) as [a|].
      * rewrite IH by lia. rewrite <- app_assoc. reflexivity.
      * apply IH. lia.
    + destruct (h !! S i ≫= candidate); apply IH; lia.
Qed.

(** The list [qa_pairs] as the loop of lines 21 to 51 leaves it holds, in
    order, the pairs of the pairing rule at the indices after the metadata
    entry: each question is paired with the answer that follows it and with
    the evaluation and score of the interviewer entry two places later. For
    a history of a metadata entry, Q1, A1, Q2 and A2, the pair of Q1 in that
    list has the score and evaluation found on Q2 and not those on Q1. *)
Theorem report_pairs_question_with_later_evaluation :
  (forall h : list entry,
      qa_pairs_of h = omap (pair_at h) (seq 1 (length h - 1)))
  /\ (forall (m : entry) (q1 e1 a1 q2 e2 a2 : string) (n1 n2 : Z),
         qa_pairs_of [m; evaluated_question q1 e1 n1; answer a1;
                      evaluated_question q2 e2 n2; answer a2]
         = [ {| qa_question := q1; qa_answer := a1; qa_score := n2;
                qa_evaluation := shown e2 |};
             {| qa_question := q2; qa_answer := a2; qa_score := 0;
                qa_evaluation := pending_evaluation |} ]).
Proof.
  split.
  - intros h. unfold qa_pairs_of, collect_pairs.
    destruct h as [|m h]; [reflexivity|].
    rewrite pair_loop_spec; [reflexivity | simpl; lia].
  - intros. reflexivity.
Qed.

End Pairing.

(** ** The report that is returned *)

Section AssemblyFacts.

Import Session Report.

Variable request_analysis : string -> bool.

(** The replacement field of line 95 raises: its format spec is not one. *)
Lemma assessment_field_raises : assessment_field = None.
Proof. vm_compute. reflexivity. Qed.

Lemma pair_loop_positive (h : list entry) (fuel : nat) :
  forall (i : nat) (qa_pairs : list qa_pair) (scores : list Z),
    Forall (fun n => 0 < n) scores ->
    Forall (fun n => 0 < n) (snd (pair_loop fuel i h qa_pairs scores)).
Proof.
  induction fuel as [|fuel IH]; intros i qa_pairs scores Hs; [exact Hs|].
  cbn [pair_loop]. destruct (h !! i) as [cur|]; [|exact Hs].
  destruct (is_question cur); [|apply IH; exact Hs].
  destruct (h !! (i + 1)%nat ≫= candidate) as [a|]; [|apply IH; exact Hs].
  destruct (evaluation_after h i) as [e n].
  apply IH. destruct (Z.ltb_spec 0 n); [|exact Hs].
  apply Forall_app. split; [exact Hs | repeat constructor; assumption].
Qed.

Lemma average_positive (scores : list Z) :
  scores <> [] -> Forall (fun n => 0 < n) scores ->
  (1 <= average scores)%Q.
Proof.
  intros Hne Hall. unfold average, Qle. cbn [Qnum Qden].
  assert (Hsum : Z.of_nat (length scores) <= fold_right Z.add 0 scores).
  { clear Hne. induction Hall as [|n l Hn _ IH]; [reflexivity|].
    cbn [length fold_right]. lia. }
  destruct scores as [|n l]; [contradiction|].
  rewrite <- (Nat2Pos.id (length (n :: l))) in Hsum by discriminate.
  rewrite positive_nat_Z in Hsum. lia.
Qed.

Lemma rounds_to_zero_above_one (x : Q) :
  (1 <= x)%Q -> rounds_to_zero x = false.
Proof.
  intros H. unfold rounds_to_zero, round_half_even.
  assert (Hf : 100 <= Qfloor (x * 100)).
  { change 100 with (Qfloor (inject_Z 100)). apply Qfloor_resp_le.
    apply Qle_trans with (1 * 100)%Q; [discriminate|].
    apply Qmult_le_compat_r; [exact H | discriminate]. }
  apply Z.eqb_neq.
  destruct (Qcompare (x * 100 - inject_Z (Qfloor (x * 100))) (1 # 2));
    [destruct (Z.even (Qfloor (x * 100)))| |]; lia.
Qed.

(** With a positive score among the pairs, [generate_dynamic_report] never
    gets past its prompt: what it returns is the fallback report. *)
Lemma scored_history_gives_fallback_report
    (sessions : gmap string session) (session_id : string) (s : session) :
  sessions !! session_id = Some s ->
  snd (collect_pairs (chat_history s)) <> [] ->
  generate_dynamic_report request_analysis sessions session_id
  = Some (FallbackReport (fallback_pairs_of (chat_history s))).
Proof.
  intros Hs Hne. unfold generate_dynamic_report. rewrite Hs.
  assert (Hlen : (length (chat_history s) <? 2)%nat = false).
  { apply Nat.ltb_ge. unfold collect_pairs in Hne.
    destruct (chat_history s) as [|m [|e rest]]; cbn in Hne |- *;
      [contradiction | contradiction | lia]. }
  rewrite Hlen.
  assert (Hpos : Forall (fun n => 0 < n) (snd (collect_pairs (chat_history s))))
    by (apply pair_loop_positive; constructor).
  destruct (collect_pairs (chat_history s)) as [qa_pairs scores].
  cbn [snd] in *.
  rewrite bool_decide_eq_false_2 by exact Hne.
  rewrite (rounds_to_zero_above_one _ (average_positive _ Hne Hpos)).
  cbn [orb]. rewrite assessment_field_raises.
  unfold generate_fallback_report. rewrite Hs. reflexivity.
Qed.

(** With no positive score among the pairs, the report is the minimal one,
    and its pairs are those of the loop. *)
Lemma unscored_history_gives_minimal_report
    (sessions : gmap string session) (session_id : string) (s : session) :
  sessions !! session_id = Some s ->
  (2 <= length (chat_history s))%nat ->
  snd (collect_pairs (chat_history s)) = [] ->
  generate_dynamic_report request_analysis sessions session_id
  = Some (MinimalReport (qa_pairs_of (chat_history s))).
Proof.
  intros Hs Hlen He. unfold generate_dynamic_report, qa_pairs_of. rewrite Hs.
  destruct (Nat.ltb_spec (length (chat_history s)) 2); [lia|].
  destruct (collect_pairs (chat_history s)) as [qa_pairs scores].
  cbn [snd fst] in *. subst scores. reflexivity.
Qed.

(** C6, on the code. For a history of a metadata entry, Q1, A1, Q2 with a
    positive score, and A2, the loop of lines 21 to 51 does pair Q1 with the
    score and evaluation found on Q2; but the report that is returned is
    the fallback report, built after the prompt of line 66 has raised, and
    there the pair of Q1 has the score found on Q1 (zero when Q1 has none)
    and no evaluation, and the score that Q2 carries for A1 stands with
    Q2. *)
Theorem scored_report_pairs_question_with_own_score
    (sessions : gmap string session) (session_id : string) (s : session)
    (m first : entry) (q1 a1 q2 e2 a2 : string) (n2 : Z) :
  sessions !! session_id = Some s ->
  chat_history s = [m; first; answer a1; evaluated_question q2 e2 n2;
                    answer a2] ->
  interviewer first = Some q1 -> resume first = None ->
  0 < n2 ->
  PyStr.truthy a1 = true -> PyStr.truthy a2 = true ->
  qa_pairs_of (chat_history s)
  = [ {| qa_question := q1; qa_answer := a1; qa_score := n2;
         qa_evaluation := shown e2 |};
      {| qa_question := q2; qa_answer := a2; qa_score := 0;
         qa_evaluation := pending_evaluation |} ]
  /\ generate_dynamic_report request_analysis sessions session_id
     = Some (FallbackReport
               [ {| fb_question := q1; fb_answer := a1;
                    fb_score := default 0 (score first) |};
                 {| fb_question := q2; fb_answer := a2; fb_score := n2 |} ]).
Proof.
  intros Hs Hh Hq Hr Hn Ha1 Ha2.
  assert (Hq1 : is_question first = true).
  { unfold is_question. rewrite Hq, Hr. reflexivity. }
  assert (Hpairs : collect_pairs (chat_history s)
                   = ([ {| qa_question := q1; qa_answer := a1; qa_score := n2;
                           qa_evaluation := shown e2 |};
                        {| qa_question := q2; qa_answer := a2; qa_score := 0;
                           qa_evaluation := pending_evaluation |} ], [n2])).
  { rewrite Hh. unfold collect_pairs. cbn [length Nat.sub pair_loop].
    cbn. rewrite Hq1, Hq. cbn.
    destruct (Z.ltb_spec 0 n2); [reflexivity | lia]. }
  split.
  - unfold qa_pairs_of. rewrite Hpairs. reflexivity.
  - rewrite (scored_history_gives_fallback_report sessions session_id s Hs).
    + rewrite Hh. unfold fallback_pairs_of. cbn [length Nat.sub fallback_loop].
      cbn. rewrite Hq. cbn. rewrite Ha1, Ha2. reflexivity.
    + rewrite Hpairs. discriminate.
Qed.

End AssemblyFacts.

Lemma scored_report_pairs_question_with_own_score_witness :
  Report.generate_dynamic_report (fun _ => true)
    {[ "sid" :=
         {| Session.is_running := false;
            Session.chat_history :=
              [Session.metadata "resume" "jd" "technical";
               Session.question "Tell me about yourself.";
               Session.answer "I build payment systems.";
               Session.evaluated_question "What is a mutex?" "Clear." 8;
               Session.answer "A lock."];
            Session.audio_processor := None |} ]} "sid"
  = Some (Report.FallbackReport
            [ {| Report.fb_question := "Tell me about yourself.";
                 Report.fb_answer := "I build payment systems.";
                 Report.fb_score := 0 |};
              {| Report.fb_question := "What is a mutex?";
                 Report.fb_answer := "A lock.";
                 Report.fb_score := 8 |} ]).
Proof.
  apply (scored_report_pairs_question_with_own_score (fun _ => true)
           {[ "sid" :=
                {| Session.is_running := false;
                   Session.chat_history :=
                     [Session.metadata "resume" "jd" "technical";
                      Session.question "Tell me about yourself.";
                      Session.answer "I build payment systems.";
                      Session.evaluated_question "What is a mutex?" "Clear." 8;
                      Session.answer "A lock."];
                   Session.audio_processor := None |} ]} "sid"
           {| Session.is_running := false;
              Session.chat_history :=
                [Session.metadata "resume" "jd" "technical";
                 Session.question "Tell me about yourself.";
                 Session.answer "I build payment systems.";
                 Session.evaluated_question "What is a mutex?" "Clear." 8;
                 Session.answer "A lock."];
              Session.audio_processor := None |}
           (Session.metadata "resume" "jd" "technical")
           (Session.question "Tell me about yourself.")
           "Tell me about yourself." "I build payment systems."
           "What is a mutex?" "Clear." "A lock." 8);
    first [reflexivity | lia].
Defined.

(** ** The rule based analysis *)

Section Fallback.

Import Report.


Lemma analysis_points_bounds (avg_score : Q) (qa_count : Z)
    (qa_pairs : list qa_pair) :
  let '(strengths, improvements) := analysis_points avg_score qa_count qa_pairs in
  (length strengths <= 4)%nat
  /\ (1 <= length improvements <= 5)%nat
  /\ (length strengths + length improvements = 5)%nat.
Proof.
  unfold analysis_points.
  destruct (qa_count >=? 8), (unclear_answers qa_pairs =? 0),
    (2 * short_answers qa_pairs <? qa_count), (Qle_bool 7 avg_score);
    simpl; lia.
Qed.


End Fallback.

(** * Further properties of the code *)

Ltac split_cases :=
  repeat match goal with
         | |- context [if ?c then _ else _] => destruct c eqn:?; simpl
         | |- context [match ?x with _ => _ end] => destruct x eqn:?; simpl
         end.

(** ** The audio queue *)

Section Queue.

Import Stt.

Lemma add_audio_running (now : time) (b : chunk) (p : processor) :
  is_running (add_audio now b p) = is_running p.
Proof. unfold add_audio. destruct (is_running p) eqn:E; simpl; auto. Qed.

Lemma add_all_snoc (now : time) (bs : list chunk) (b : chunk) (p : processor) :
  add_all now (bs ++ [b]) p = add_audio now b (add_all now bs p).
Proof. unfold add_all. now rewrite fold_left_app. Qed.

Lemma add_all_running (now : time) (bs : list chunk) (p : processor) :
  is_running (add_all now bs p) = is_running p.
Proof.
  induction bs as [|b bs IH] using rev_ind; [reflexivity|].
  now rewrite add_all_snoc, add_audio_running.
Qed.

(** After a burst of chunks on a running processor with an empty queue, the
    queue holds the last hundred of them (all of them when there are fewer),
    oldest first: a full queue gives up its oldest chunk for the newest. *)
Theorem burst_keeps_newest (now : time) (bs : list chunk) (p : processor) :
  is_running p = true -> audio_queue p = [] ->
  audio_queue (add_all now bs p)
  = Some <$> drop (length bs - queue_maxsize) bs.
Proof.
  intros Hr Hq. induction bs as [|b bs IH] using rev_ind.
  - simpl. exact Hq.
  - rewrite add_all_snoc. unfold add_audio at 1.
    rewrite add_all_running, Hr. cbn [audio_queue]. rewrite IH.
    rewrite length_fmap, length_drop, length_app. cbn [length].
    unfold queue_maxsize.
    destruct (Nat.ltb_spec (length bs - (length bs - 100)) 100) as [Hlt|Hge].
    + replace (length bs - 100)%nat with 0%nat by lia.
      replace (length bs + 1 - 100)%nat with 0%nat by lia.
      rewrite !drop_0, fmap_app. reflexivity.
    + assert (Hn : (100 <= length bs)%nat) by lia.
      destruct (drop (length bs - 100) bs) as [|x rest] eqn:Ed.
      { apply (f_equal length) in Ed. rewrite length_drop in Ed.
        simpl in Ed. lia. }
      cbn [fmap list_fmap].
      rewrite drop_app_le by lia.
      replace (length bs + 1 - 100)%nat with (length bs - 100 + 1)%nat by lia.
      rewrite <- drop_drop, Ed, fmap_app. reflexivity.
Qed.

Lemma burst_keeps_newest_witness :
  audio_queue (add_all 7 [[x01%byte]; [x02%byte]] (start (init 0)))
  = [Some [x01%byte]; Some [x02%byte]].
Proof.
  apply (burst_keeps_newest 7 [[x01%byte]; [x02%byte]] (start (init 0)));
    reflexivity.
Defined.

(** Whatever happens to a new processor, its queue never holds more than
    [queue_maxsize] items. *)
Theorem queue_stays_bounded (now : time) (es : list event) :
  (length (audio_queue (fst (run es (init now)))) <= queue_maxsize)%nat.
Proof.
  assert (Hstep : forall e p,
             (length (audio_queue p) <= queue_maxsize)%nat ->
             (length (audio_queue (fst (step e p))) <= queue_maxsize)%nat).
  { intros e p Hp. unfold queue_maxsize in *.
    destruct e as [| | | | t b | | t | r t | t].
    1-7: simpl; unfold start, stop, add_audio, queue_get, should_restart;
      split_cases; simpl in *; try rewrite length_app; simpl; try lia;
      repeat match goal with
             | H : (_ <? _)%nat = true |- _ =>
                 apply Nat.ltb_lt in H; unfold queue_maxsize in H
             end; try lia;
      try (match goal with
           | H : audio_queue _ = _ |- _ => rewrite H; simpl; lia
           end).
    - destruct (response_frame r t p) as [_ ->]. exact Hp.
    - destruct (check_silence_frame t p) as [_ H2]. simpl.
      rewrite H2. exact Hp. }
  assert (Hrun : forall es p,
             (length (audio_queue p) <= queue_maxsize)%nat ->
             (length (audio_queue (fst (run es p))) <= queue_maxsize)%nat).
  { intros es'. induction es' as [|e es' IH]; intros p Hp; [exact Hp|].
    rewrite run_cons. apply IH, Hstep, Hp. }
  apply Hrun. simpl. unfold queue_maxsize. lia.
Qed.

End Queue.

(** ** Stripping *)

Section StripFacts.

Lemma app_nil_str (b : string) : "" +:+ b = b.
Proof. reflexivity. Qed.

Lemma app_cons_str (c : ascii) (a b : string) :
  String c a +:+ b = String c (a +:+ b).
Proof. reflexivity. Qed.

Lemma rstrip_app (a b : string) :
  PyStr.rstrip (a +:+ b) =
  match PyStr.rstrip b with
  | EmptyString => PyStr.rstrip a
  | r => a +:+ r
  end.
Proof.
  induction a as [|c a IH].
  - rewrite app_nil_str. destruct (PyStr.rstrip b); reflexivity.
  - rewrite app_cons_str. cbn [PyStr.rstrip]. rewrite IH.
    destruct (PyStr.rstrip b) as [|x r]; [reflexivity|].
    destruct a; reflexivity.
Qed.

Lemma rstrip_idem (s : string) : PyStr.rstrip (PyStr.rstrip s) = PyStr.rstrip s.
Proof.
  induction s as [|c s IH]; simpl; [reflexivity|].
  destruct (PyStr.rstrip s) as [|x r] eqn:E.
  - destruct (PyStr.is_space c) eqn:Ec; simpl; [reflexivity|].
    now rewrite Ec.
  - simpl in *. rewrite IH. reflexivity.
Qed.

Lemma lstrip_solid (s : string) : s = "" \/ PyStr.starts_solid s -> PyStr.lstrip s = s.
Proof.
  destruct s as [|c s]; simpl; [reflexivity|].
  intros [H|H]; [discriminate | now rewrite H].
Qed.

Lemma lstrip_result (s : string) :
  PyStr.lstrip s = "" \/ PyStr.starts_solid (PyStr.lstrip s).
Proof.
  induction s as [|c s IH]; simpl; [now left|].
  destruct (PyStr.is_space c) eqn:E; [exact IH | right; exact E].
Qed.

Lemma rstrip_result (s : string) :
  s = "" \/ PyStr.starts_solid s ->
  PyStr.rstrip s = "" \/ PyStr.starts_solid (PyStr.rstrip s).
Proof.
  destruct s as [|c s]; simpl; [now left|].
  intros [H|H]; [discriminate|].
  destruct (PyStr.rstrip s); [rewrite H|]; right; exact H.
Qed.

Lemma strip_result (s : string) :
  PyStr.strip s = "" \/ PyStr.starts_solid (PyStr.strip s).
Proof. apply rstrip_result, lstrip_result. Qed.

Lemma strip_idem (s : string) : PyStr.strip (PyStr.strip s) = PyStr.strip s.
Proof.
  unfold PyStr.strip at 1. rewrite (lstrip_solid _ (strip_result s)).
  apply rstrip_idem.
Qed.

Lemma strip_not_isspace (s : string) : PyStr.isspace (PyStr.strip s) = false.
Proof.
  destruct (strip_result s) as [->|H]; [reflexivity|].
  destruct (PyStr.strip s) as [|c r]; [contradiction|].
  simpl in *. now rewrite H.
Qed.

Lemma solid_app (a b : string) :
  PyStr.starts_solid a -> PyStr.starts_solid (a +:+ b).
Proof. destruct a; [contradiction | rewrite app_cons_str; auto]. Qed.

Lemma rstrip_space : PyStr.rstrip " " = "".
Proof. reflexivity. Qed.

Lemma app_empty_r (s : string) : s +:+ "" = s.
Proof.
  induction s as [|c s IH]; [reflexivity | now rewrite app_cons_str, IH].
Qed.

Lemma app_assoc_str (a b c : string) : (a +:+ b) +:+ c = a +:+ (b +:+ c).
Proof.
  induction a as [|x a IH]; [reflexivity | now rewrite !app_cons_str, IH].
Qed.

End StripFacts.

(** ** Segmentation in general *)

Section Segmentation.

Import Stt.

Lemma run_app_full (es1 es2 : list event) (p : processor) :
  run (es1 ++ es2) p =
  (fst (run es2 (fst (run es1 p))),
   snd (run es1 p) ++ snd (run es2 (fst (run es1 p)))).
Proof.
  revert p; induction es1 as [|e es1 IH]; intros p.
  - cbn [app run fst snd]. destruct (run es2 p); reflexivity.
  - rewrite <- app_comm_cons. cbn [run]. destruct (step e p) as [p1 o1].
    rewrite IH. destruct (run es1 p1) as [p2 o2]. cbn [fst snd].
    now rewrite app_assoc.
Qed.

Lemma callbacks_app (o1 o2 : list output) :
  callbacks (o1 ++ o2) = callbacks o1 ++ callbacks o2.
Proof. unfold callbacks. apply flat_map_app. Qed.

Lemma space_join_cons (f g : string) (rest : list string) :
  space_join (f :: g :: rest) = f +:+ " " +:+ space_join (g :: rest).
Proof. reflexivity. Qed.

(** A text whose stripped form has at least two characters, as the final
    results that are kept have. *)
Lemma kept_is_solid (f : string) :
  1 < PyStr.len (PyStr.strip f) ->
  PyStr.truthy (PyStr.strip f) = true /\ PyStr.starts_solid (PyStr.strip f).
Proof.
  intros H. destruct (strip_result f) as [E|Hs].
  - rewrite E in H. unfold PyStr.len in H. simpl in H. lia.
  - split; [|exact Hs]. destruct (PyStr.strip f); [contradiction|reflexivity].
Qed.

Lemma rstrip_strip (f : string) : PyStr.rstrip (PyStr.strip f) = PyStr.strip f.
Proof. unfold PyStr.strip. apply rstrip_idem. Qed.

Lemma space_join_stripped (fs : list string) :
  fs <> [] ->
  Forall (fun f => 1 < PyStr.len (PyStr.strip f)) fs ->
  PyStr.starts_solid (space_join (map PyStr.strip fs))
  /\ PyStr.rstrip (space_join (map PyStr.strip fs))
     = space_join (map PyStr.strip fs).
Proof.
  induction fs as [|f [|g rest] IH]; intros Hne Hall; [contradiction| |].
  - inversion Hall; subst. split; [apply kept_is_solid; assumption|].
    apply rstrip_strip.
  - inversion Hall as [|? ? Hf Hrest]; subst.
    destruct IH as [Hs Hr]; [discriminate | exact Hrest |].
    cbn [map] in *. rewrite space_join_cons. split.
    + apply solid_app, kept_is_solid, Hf.
    + rewrite rstrip_app, rstrip_app, Hr.
      destruct (space_join (PyStr.strip g :: map PyStr.strip rest)) eqn:E;
        [contradiction | reflexivity].
Qed.

Lemma strip_segment (fs : list string) :
  fs <> [] ->
  Forall (fun f => 1 < PyStr.len (PyStr.strip f)) fs ->
  PyStr.strip (space_join (map PyStr.strip fs) +:+ " ")
  = space_join (map PyStr.strip fs).
Proof.
  intros Hne Hall. destruct (space_join_stripped fs Hne Hall) as [Hs Hr].
  unfold PyStr.strip. rewrite lstrip_solid by (right; now apply solid_app).
  rewrite rstrip_app. exact Hr.
Qed.

Lemma run_fragments (fts : list (string * time)) :
  fts <> [] ->
  Forall (fun ft => 1 < PyStr.len (PyStr.strip (fst ft))) fts ->
  forall p : processor,
    is_running p = true -> is_listening p = true ->
    let p' := fst (run (fragments fts) p) in
    is_running p' = true /\ is_listening p' = true
    /\ current_transcript p'
       = current_transcript p
         +:+ space_join (map PyStr.strip (map fst fts)) +:+ " "
    /\ last_final_time p' = snd <$> last fts
    /\ callbacks (snd (run (fragments fts) p)) = [].
Proof.
  induction fts as [|[f t] [|g rest] IH]; intros Hne Hall p Hr Hl;
    [contradiction| |].
  - inversion Hall as [|? ? Hf _]; subst. cbn [fst] in Hf.
    destruct (kept_is_solid f Hf) as [Ht _].
    cbn [fragments map run step fst snd].
    rewrite (process_final_fragment f t p Hr Hl Ht Hf). cbn.
    repeat split; auto.
  - inversion Hall as [|? ? Hf Hrest]; subst. cbn [fst] in Hf.
    destruct (kept_is_solid f Hf) as [Ht _].
    change (fragments ((f, t) :: g :: rest))
      with (EResponse (final_fragment f) t :: fragments (g :: rest)).
    cbn [run step]. rewrite (process_final_fragment f t p Hr Hl Ht Hf).
    cbn [fst snd].
    set (p1 := set_segment (current_transcript p +:+ PyStr.strip f +:+ " ")
                           (Some t) p).
    destruct (IH ltac:(discriminate) Hrest p1 Hr Hl)
      as [H1 [H2 [H3 [H4 H5]]]].
    destruct (run (fragments (g :: rest)) p1) as [p2 o2]. cbn [fst snd] in *.
    split; [exact H1|]. split; [exact H2|]. split; [|split].
    + rewrite H3. unfold p1. cbn [current_transcript set_segment map fst].
      rewrite space_join_cons, !app_assoc_str. reflexivity.
    + rewrite H4. reflexivity.
    + rewrite callbacks_app. cbn. exact H5.
Qed.

(** While the utterance is going on the segment grows by the stripped
    texts, each followed by a space, and nothing is handed over. *)
Lemma run_going_on (us : list heard) :
  forall (latest : option time) (p : processor),
    is_running p = true -> is_listening p = true ->
    last_final_time p = latest ->
    going_on latest us = true ->
    let r := run (map heard_event us) p in
    is_running (fst r) = true /\ is_listening (fst r) = true
    /\ current_transcript (fst r)
       = current_transcript p
         +:+ match said us with
             | [] => ""
             | _ => space_join (map PyStr.strip (said us)) +:+ " "
             end
    /\ last_final_time (fst r) = from_option Some latest (last_said us)
    /\ callbacks (snd r) = [].
Proof.
  induction us as [|[f t|c] us IH]; intros latest p Hr Hl Hlast Hgo.
  - cbn. rewrite app_empty_r. auto.
  - cbn [going_on] in Hgo. apply andb_true_iff in Hgo as [Hf Hgo].
    apply Z.ltb_lt in Hf. destruct (kept_is_solid f Hf) as [Ht _].
    cbn [map heard_event run step].
    rewrite (process_final_fragment f t p Hr Hl Ht Hf). cbn [fst snd].
    set (p1 := set_segment (current_transcript p +:+ PyStr.strip f +:+ " ")
                           (Some t) p).
    destruct (IH (Some t) p1 Hr Hl eq_refl Hgo) as [H1 [H2 [H3 [H4 H5]]]].
    destruct (run (map heard_event us) p1) as [p2 o2]. cbn [fst snd] in *.
    split; [exact H1|]. split; [exact H2|]. split; [|split].
    + rewrite H3. unfold p1. cbn [current_transcript set_segment said map].
      destruct (said us) as [|g rest].
      * cbn [map space_join]. rewrite app_empty_r. reflexivity.
      * cbn [map]. rewrite space_join_cons, !app_assoc_str. reflexivity.
    + rewrite H4. cbn [last_said]. destruct (last_said us); reflexivity.
    + rewrite callbacks_app. cbn. exact H5.
  - cbn [going_on] in Hgo. apply andb_true_iff in Hgo as [Hc Hgo].
    cbn [map heard_event run step].
    assert (E : check_silence c p = (p, [])).
    { destruct latest as [t|].
      - apply (check_silence_stale c t); [exact Hlast|].
        apply Z.ltb_lt. exact Hc.
      - apply check_silence_idle. exact Hlast. }
    rewrite E.
    destruct (IH latest p Hr Hl Hlast Hgo) as [H1 [H2 [H3 [H4 H5]]]].
    destruct (run (map heard_event us) p) as [p2 o2]. cbn [fst snd] in *.
    auto.
Qed.

(** Checks that wake when nothing is pending change nothing. *)
Lemma run_checks_idle (later : list time) (p : processor) :
  last_final_time p = None ->
  run (map ECheckSilence later) p = (p, []).
Proof.
  intros H. induction later as [|c later IH]; [reflexivity|].
  cbn [map run step]. rewrite (check_silence_idle c p H), IH. reflexivity.
Qed.

(** No two silence checks overlapping (each is one step of [run]): on a
    processor that runs and listens with an empty segment, while final
    results that are all kept are read and the checks they started wake
    less than the threshold after the latest of them, nothing is handed
    over; the first check that wakes at least the threshold after the last
    final result calls back once, with the stripped texts joined by single
    spaces, provided that text has more than two characters; and the checks
    that wake after it, however many, do nothing. *)
Theorem utterance_is_joined_fragments
    (p : processor) (us : list heard) (t_last c : time) (later : list time) :
  is_running p = true -> is_listening p = true ->
  current_transcript p = "" -> last_final_time p = None ->
  going_on None us = true ->
  last_said us = Some t_last -> t_last <> 0 ->
  t_last + SILENCE_THRESHOLD <= c ->
  2 < PyStr.len (space_join (map PyStr.strip (said us))) ->
  callbacks
    (snd (run (map heard_event us
               ++ ECheckSilence c :: map ECheckSilence later) p))
  = [space_join (map PyStr.strip (said us))].
Proof.
  intros Hr Hl Hcur Hnone Hgo Hlast Ht Hc Hlen.
  destruct (run_going_on us None p Hr Hl Hnone Hgo) as [H1 [H2 [H3 [H4 H5]]]].
  rewrite run_app_full. cbn [snd]. rewrite callbacks_app, H5. cbn [app].
  set (p' := fst (run (map heard_event us) p)) in *.
  rewrite Hcur, app_nil_str in H3. rewrite Hlast in H4. cbn in H4.
  assert (Hne : said us <> []).
  { intros E. clear - Hlast E. induction us as [|[f t|c'] us IH];
      [discriminate | discriminate | apply IH; assumption]. }
  assert (Hall : Forall (fun f => 1 < PyStr.len (PyStr.strip f)) (said us)).
  { clear - Hgo. revert Hgo. generalize (@None time).
    induction us as [|[f t|c'] us IH]; intros latest Hgo; cbn [said].
    - constructor.
    - cbn [going_on] in Hgo. apply andb_true_iff in Hgo as [Hf Hgo].
      constructor; [apply Z.ltb_lt; exact Hf | apply (IH _ Hgo)].
    - cbn [going_on] in Hgo. apply andb_true_iff in Hgo as [_ Hgo].
      apply (IH _ Hgo). }
  assert (Hs := strip_segment (said us) Hne Hall).
  destruct (said us) as [|g rest] eqn:Esaid; [contradiction|].
  cbn [run step].
  rewrite (check_silence_fires c t_last p'); auto.
  - rewrite (run_checks_idle later (set_segment "" None p') eq_refl).
    cbn [snd callbacks flat_map app]. rewrite H3, Hs. reflexivity.
  - lia.
  - rewrite H3, Hs. exact Hlen.
  - rewrite H3, Hs. rewrite <- Hs at 1. apply strip_not_isspace.
Qed.

Lemma utterance_is_joined_fragments_witness :
  callbacks
    (snd (run (map heard_event
                 [Said " I have" 1000; Said "worked on " 2500;
                  Woke 4000; Said "payment" 4500; Said " systems." 4600;
                  Woke 5500]
               ++ ECheckSilence 7600 :: map ECheckSilence [7650])
              (start (init 0))))
  = ["I have worked on payment systems."].
Proof.
  apply (utterance_is_joined_fragments (start (init 0))
           [Said " I have" 1000; Said "worked on " 2500;
            Woke 4000; Said "payment" 4500; Said " systems." 4600;
            Woke 5500]
           4600 7600 [7650]);
    try reflexivity; try (unfold SILENCE_THRESHOLD; lia).
Defined.

(** A final result whose stripped text has exactly two characters ("no",
    "ok") is sent on as a part, but the utterance it makes alone is dropped
    by the silence check: the callback is not called and the segment is
    cleared. *)
Theorem two_character_utterance_is_dropped
    (p : processor) (f : string) (t c : time) :
  is_running p = true -> is_listening p = true ->
  current_transcript p = "" ->
  PyStr.len (PyStr.strip f) = 2 ->
  t <> 0 -> t + SILENCE_THRESHOLD <= c ->
  run [EResponse (final_fragment f) t; ECheckSilence c] p
  = (set_segment "" None p,
     [Emit "final_transcript_part" (PyStr.strip f); SpawnCheck t]).
Proof.
  intros Hr Hl Hcur Hlen Ht Hc.
  assert (Hk : 1 < PyStr.len (PyStr.strip f)) by lia.
  destruct (kept_is_solid f Hk) as [Htr Hs].
  assert (Hstrip : PyStr.strip (PyStr.strip f +:+ " ") = PyStr.strip f).
  { apply (strip_segment [f]); [discriminate | repeat constructor; exact Hk]. }
  cbn [run step]. rewrite (process_final_fragment f t p Hr Hl Htr Hk).
  cbn [fst snd]. rewrite Hcur, app_nil_str.
  unfold check_silence, silence_elapsed.
  cbn [last_final_time current_transcript is_listening set_segment].
  rewrite Hstrip, Htr, Hl.
  destruct (Z.eqb_spec t 0); [contradiction|].
  destruct (Z.geb_spec (c - t) SILENCE_THRESHOLD); [|lia].
  destruct (Z.ltb_spec 2 (PyStr.len (PyStr.strip f))); [lia|].
  reflexivity.
Qed.

Lemma two_character_utterance_is_dropped_witness :
  run [EResponse (final_fragment "no") 1000; ECheckSilence 4000]
      (start (init 0))
  = (set_segment "" None (start (init 0)),
     [Emit "final_transcript_part" "no"; SpawnCheck 1000]).
Proof.
  apply (two_character_utterance_is_dropped (start (init 0)) "no" 1000 4000);
    try reflexivity; try (unfold SILENCE_THRESHOLD; lia).
Defined.



End Segmentation.

(** ** The worker's loop *)

Section Worker.

Import Stt.

Lemma stop_restart_count (p : processor) :
  restart_count (stop p) = restart_count p.
Proof. unfold stop. destruct (is_running p); reflexivity. Qed.

Lemma should_restart_count (now : time) (p : processor) :
  restart_count p <= restart_count (snd (should_restart now p))
  /\ (restart_count p <= max_restarts ->
      restart_count (snd (should_restart now p)) <= max_restarts).
Proof.
  unfold should_restart.
  destruct (is_running p); simpl; [|lia].
  destruct (Z.geb_spec (restart_count p) max_restarts); simpl; [lia|].
  destruct (now - last_restart_time p <? restart_cooldown); simpl; lia.
Qed.

(** Over a run of the worker the restart counter only grows, and it stays
    at or below its ceiling when it starts there. *)
Theorem restart_counter_grows_to_ceiling (attempts : list attempt) :
  forall (now : time) (consecutive_errors : Z) (p : processor),
    let p' := fst (stream_audio attempts now consecutive_errors p) in
    restart_count p <= restart_count p'
    /\ (restart_count p <= max_restarts -> restart_count p' <= max_restarts).
Proof.
  induction attempts as [|a rest IH]; intros now c p; cbn [stream_audio].
  - destruct (is_running p && (restart_count p <? max_restarts)); simpl; lia.
  - destruct (is_running p && (restart_count p <? max_restarts));
      [|simpl; lia].
    set (t := now + lasts a).
    set (p1 := if stopped a then stop p else p).
    assert (H1 : restart_count p1 = restart_count p).
    { unfold p1. destruct (stopped a); [apply stop_restart_count|reflexivity]. }
    assert (Hs := should_restart_count t p1).
    destruct (ends_with a).
    + specialize (IH t 0 p1). destruct (stream_audio rest t 0 p1).
      simpl in *. lia.
    + destruct (negb (is_running p1)); [simpl; lia|].
      specialize (IH t c p1). destruct (stream_audio rest t c p1).
      simpl in *. lia.
    + destruct (c + 1 >=? max_consecutive_errors); [simpl; lia|].
      destruct (should_restart t p1) as [ok p2]. simpl in Hs.
      destruct ok; [|simpl; lia].
      specialize (IH (t + backoff (c + 1)) (c + 1) p2).
      destruct (stream_audio rest (t + backoff (c + 1)) (c + 1) p2).
      simpl in *. lia.
    + simpl; lia.
    + destruct (c + 1 >=? max_consecutive_errors); [simpl; lia|].
      destruct (should_restart t p1) as [ok p2]. simpl in Hs.
      destruct ok.
      * specialize (IH (t + backoff (c + 1)) (c + 1) p2).
        destruct (stream_audio rest (t + backoff (c + 1)) (c + 1) p2).
        simpl in *. lia.
      * specialize (IH t (c + 1) p2).
        destruct (stream_audio rest t (c + 1) p2). simpl in *. lia.
    + simpl; lia.
Qed.

Lemma sleeps_bounded (attempts : list attempt) :
  forall (now : time) (consecutive_errors : Z) (p : processor),
    0 <= consecutive_errors < max_consecutive_errors ->
    Forall (fun d => d = 1000 \/ d = 2000)
           (sleeps (snd (stream_audio attempts now consecutive_errors p))).
Proof.
  induction attempts as [|a rest IH]; intros now c p Hc; cbn [stream_audio].
  - destruct (is_running p && (restart_count p <? max_restarts));
      simpl; constructor.
  - destruct (is_running p && (restart_count p <? max_restarts));
      [|simpl; constructor].
    set (t := now + lasts a).
    set (p1 := if stopped a then stop p else p).
    assert (Hb : forall c', 0 <= c' < max_consecutive_errors ->
                 c' + 1 < max_consecutive_errors ->
                 backoff (c' + 1) = 1000 \/ backoff (c' + 1) = 2000).
    { unfold max_consecutive_errors, backoff. intros. lia. }
    destruct (ends_with a).
    + assert (H0 : 0 <= 0 < max_consecutive_errors)
        by (unfold max_consecutive_errors; lia).
      specialize (IH t 0 p1 H0). destruct (stream_audio rest t 0 p1).
      exact IH.
    + destruct (negb (is_running p1)); [simpl; constructor|].
      specialize (IH t c p1 Hc). destruct (stream_audio rest t c p1).
      exact IH.
    + destruct (Z.geb_spec (c + 1) max_consecutive_errors) as [|Hlt];
        [simpl; constructor|].
      destruct (should_restart t p1) as [ok p2].
      destruct ok; [|simpl; constructor].
      specialize (IH (t + backoff (c + 1)) (c + 1) p2 ltac:(lia)).
      destruct (stream_audio rest (t + backoff (c + 1)) (c + 1) p2).
      cbn [snd sleeps] in *. constructor; [apply Hb; assumption | exact IH].
    + simpl; constructor.
    + destruct (Z.geb_spec (c + 1) max_consecutive_errors) as [|Hlt];
        [simpl; constructor|].
      destruct (should_restart t p1) as [ok p2]. destruct ok.
      * specialize (IH (t + backoff (c + 1)) (c + 1) p2 ltac:(lia)).
        destruct (stream_audio rest (t + backoff (c + 1)) (c + 1) p2).
        cbn [snd sleeps] in *. constructor; [apply Hb; assumption | exact IH].
      * specialize (IH t (c + 1) p2 ltac:(lia)).
        destruct (stream_audio rest t (c + 1) p2). exact IH.
    + simpl; constructor.
Qed.

(** The worker, launched with no error counted, only ever sleeps one or two
    seconds before it opens a stream again: the third error in a row ends
    it, so the five second cap of the back off is never reached. *)
Theorem worker_sleeps_one_or_two_seconds
    (attempts : list attempt) (now : time) (p : processor) :
  Forall (fun d => d = 1000 \/ d = 2000)
         (sleeps (snd (stream_audio attempts now 0 p))).
Proof. apply sleeps_bounded. unfold max_consecutive_errors. lia. Qed.

(** [stop] called while a stream is open ends the worker with that stream,
    however the stream ends: no other stream is opened and the processor is
    left as [stop] left it. *)
Theorem stop_ends_worker_with_current_stream
    (a : attempt) (rest : list attempt) (now : time)
    (consecutive_errors : Z) (p : processor) :
  is_running p = true -> restart_count p < max_restarts ->
  stopped a = true ->
  stream_audio (a :: rest) now consecutive_errors p
  = (stop p, [Opened now; Ended (ends_with a) (now + lasts a); Exited]).
Proof.
  intros Hr Hc Hs. cbn [stream_audio]. rewrite Hr, Hs.
  destruct (Z.ltb_spec (restart_count p) max_restarts); [|lia]. cbn [andb].
  assert (Hstop : is_running (stop p) = false) by apply stop_not_running.
  assert (Hnext : forall t c, stream_audio rest t c (stop p) = (stop p, [Exited])).
  { intros t c. destruct rest; cbn [stream_audio]; now rewrite Hstop. }
  assert (Hno : forall t, should_restart t (stop p) = (false, stop p)).
  { intros t. unfold should_restart. now rewrite Hstop. }
  destruct (ends_with a); rewrite ?Hstop, ?Hno, ?Hnext; cbn [negb];
    try reflexivity;
    destruct (consecutive_errors + 1 >=? max_consecutive_errors);
    rewrite ?Hno, ?Hnext; reflexivity.
Qed.

Lemma stop_ends_worker_with_current_stream_witness :
  stream_audio
    [ {| ends_with := Cancelled; lasts := 4000; stopped := true |};
      {| ends_with := Finished; lasts := 10; stopped := false |} ]
    1000000 0 (start (init 0))
  = (stop (start (init 0)),
     [Opened 1000000; Ended Cancelled 1004000; Exited]).
Proof.
  apply (stop_ends_worker_with_current_stream
           {| ends_with := Cancelled; lasts := 4000; stopped := true |}
           [ {| ends_with := Finished; lasts := 10; stopped := false |} ]
           1000000 0 (start (init 0)));
    first [reflexivity | unfold max_restarts; simpl; lia].
Defined.

(** Three streams in a row that end in a transient error, with no error
    counted before: the worker has left its loop after at most three streams
    and opens no fourth, whatever the back end would do next. *)
Theorem third_transient_error_ends_worker
    (a1 a2 a3 : attempt) (rest : list attempt) (now : time) (p : processor) :
  transient (ends_with a1) = true -> transient (ends_with a2) = true ->
  transient (ends_with a3) = true ->
  let tr := snd (stream_audio (a1 :: a2 :: a3 :: rest) now 0 p) in
  last tr = Some Exited /\ (opened tr <= 3)%nat.
Proof.
  intros H1 H2 H3.
  apply (consecutive_errors_exit 2); [reflexivity | simpl; lia |].
  simpl. repeat constructor; assumption.
Qed.

Lemma third_transient_error_ends_worker_witness :
  let failing := {| ends_with := UnknownIterating; lasts := 3000;
                    stopped := false |} in
  let tr := snd (stream_audio [failing; failing; failing; failing]
                              1000000 0 (start (init 0))) in
  last tr = Some Exited /\ (opened tr <= 3)%nat.
Proof.
  intros failing.
  apply (third_transient_error_ends_worker failing failing failing [failing]
           1000000 (start (init 0))); reflexivity.
Defined.

(** On runs in which no stream ends in a service error (the errors of the
    request iterator, the cancellations, the fatal errors and the normal
    ends remain), the restarts, that is the times at which a stream ended
    in an error and [_should_restart] let the worker open another, are at
    least the cooldown apart, the first of them at least the cooldown after
    the restart recorded last. A stream that ends normally, or is cancelled
    while the processor runs, is followed by another at once: that is no
    restart, [_should_restart] is not asked, and nothing is said of it
    here. *)
Theorem restarts_spaced_without_service_errors
    (attempts : list attempt) (now : time) (consecutive_errors : Z)
    (p : processor) :
  Forall (fun a => ends_with a <> Transient) attempts ->
  spaced restart_cooldown
    (last_restart_time p
     :: restarts (snd (stream_audio attempts now consecutive_errors p)))
  = true.
Proof.
  intros H.
  assert (Hcd := should_restart_spec).
  revert now consecutive_errors p.
  induction H as [|a rest Ha Hrest IH]; intros now c p; cbn [stream_audio].
  - destruct (is_running p && (restart_count p <? max_restarts)); reflexivity.
  - destruct (is_running p && (restart_count p <? max_restarts));
      [|reflexivity].
    set (t := now + lasts a).
    set (p1 := if stopped a then stop p else p).
    assert (Hl : last_restart_time p1 = last_restart_time p).
    { unfold p1. destruct (stopped a); [apply stop_last_restart_time | reflexivity]. }
    destruct (ends_with a) eqn:Eo; try contradiction.
    + specialize (IH t 0 p1). destruct (stream_audio rest t 0 p1) as [p' tr].
      simpl in *. now rewrite <- Hl.
    + destruct (negb (is_running p1)); [reflexivity|].
      specialize (IH t c p1). destruct (stream_audio rest t c p1) as [p' tr].
      simpl in *. now rewrite <- Hl.
    + destruct (c + 1 >=? max_consecutive_errors); [reflexivity|].
      destruct (Hcd t p1) as [Hiff [Hupd Hno]].
      destruct (should_restart t p1) as [ok p2]. simpl in *.
      destruct ok; [|reflexivity].
      destruct (proj1 Hiff eq_refl) as [_ [_ Hcool]].
      destruct (Hupd eq_refl) as [_ [Hlast _]].
      specialize (IH (t + backoff (c + 1)) (c + 1) p2).
      destruct (stream_audio rest (t + backoff (c + 1)) (c + 1) p2) as [p3 tr].
      simpl in *. rewrite Hlast in IH. rewrite Hl in Hcool.
      destruct (opens_next tr); simpl.
      * apply andb_true_iff. split; [apply Z.leb_le; exact Hcool | exact IH].
      * apply (spaced_head_le _ _ t); [unfold restart_cooldown in Hcool; lia | exact IH].
    + reflexivity.
    + reflexivity.
Qed.

Lemma restarts_spaced_without_service_errors_witness :
  let failing := {| ends_with := UnknownIterating; lasts := 3000;
                    stopped := false |} in
  spaced restart_cooldown
    (last_restart_time (start (init 0))
     :: restarts (snd (stream_audio [failing; failing] 1000000 0
                                    (start (init 0)))))
  = true.
Proof.
  intros failing.
  apply (restarts_spaced_without_service_errors [failing; failing] 1000000 0
           (start (init 0))).
  repeat constructor; discriminate.
Defined.

End Worker.

(** ** The orchestrator on any utterance *)

Section OrchestratorMore.

Import Session Flow.

Variable re_sub : string -> string -> bool -> string -> string.
Variable json_loads : string -> Reply.parsed.
Variable synthesize_speech : string -> string.
Variable get_llm_response : list entry -> string -> string.
Variable random_choice : list string -> string.

Abbreviation clean := (clean_transcript re_sub).
Abbreviation process :=
  (process_user_transcript re_sub json_loads synthesize_speech
                           get_llm_response random_choice).

(** What one call does to the session it is about: the map changes at that
    id only, and the history either stays, or grows by the answer, or grows
    by the answer and one question (then fewer than [MAX_QUESTIONS] were
    asked before). *)
Lemma process_shape (sessions sessions' : gmap string session)
    (session_id user_text : string) (s : session) (out : list effect) :
  sessions !! session_id = Some s ->
  process sessions session_id user_text = Some (sessions', out) ->
  exists s',
    sessions' = <[session_id := s']> sessions
    /\ (chat_history s' = chat_history s
        \/ chat_history s' = chat_history s ++ [answer (clean user_text)]
        \/ (get_question_count (chat_history s) < MAX_QUESTIONS
            /\ exists q,
                 chat_history s'
                 = chat_history s ++ [answer (clean user_text); q]
                 /\ is_question q = true /\ resume q = None)).
Proof.
  intros Hs. unfold process_user_transcript, end_interview_naturally.
  rewrite Hs.
  assert (Hcount : get_question_count
                     (chat_history s ++ [answer (clean user_text)])
                   = get_question_count (chat_history s)).
  { rewrite get_question_count_app. simpl. lia. }
  cbn [append_entry on_processor chat_history]. rewrite Hcount.
  split_cases; intros H; inversion H; subst; clear H;
    rewrite ?insert_insert_eq;
    eexists; (split; [reflexivity|]);
    cbn [chat_history on_processor append_entry];
    try (left; reflexivity);
    try (right; left; reflexivity).
  all: right; right;
    (split; [ match goal with
              | H : (_ >=? MAX_QUESTIONS) = false |- _ =>
                  rewrite Z.geb_leb in H; apply Z.leb_gt in H; exact H
              end |]);
    eexists; rewrite <- app_assoc; (split; [reflexivity|]);
    split; reflexivity.
Qed.

(** A call of [process_user_transcript] raises if and only if the session
    id is not in [sessions]: every failure inside is absorbed. *)
Theorem process_raises_only_for_unknown_session
    (sessions : gmap string session) (session_id user_text : string) :
  process sessions session_id user_text = None
  <-> sessions !! session_id = None.
Proof.
  unfold process_user_transcript, end_interview_naturally.
  destruct (sessions !! session_id) as [s|]; [|tauto].
  split; [|discriminate]. split_cases; discriminate.
Qed.

(** A call about one session leaves every other session as it is. *)
Theorem process_leaves_other_sessions
    (sessions sessions' : gmap string session)
    (session_id other user_text : string) (out : list effect) :
  process sessions session_id user_text = Some (sessions', out) ->
  other <> session_id ->
  sessions' !! other = sessions !! other.
Proof.
  intros H Hne.
  destruct (sessions !! session_id) as [s|] eqn:Hs.
  - destruct (process_shape _ _ _ _ _ _ Hs H) as [s' [-> _]].
    apply lookup_insert_ne. congruence.
  - unfold process_user_transcript in H. rewrite Hs in H. discriminate H.
Qed.

(** The history of a session is only ever appended to: a call adds at most
    two entries, none of them a metadata entry. *)
Theorem history_is_append_only
    (sessions sessions' : gmap string session)
    (session_id user_text : string) (s : session) (out : list effect) :
  sessions !! session_id = Some s ->
  process sessions session_id user_text = Some (sessions', out) ->
  exists s' added,
    sessions' !! session_id = Some s'
    /\ chat_history s' = chat_history s ++ added
    /\ (length added <= 2)%nat
    /\ Forall (fun e => resume e = None) added.
Proof.
  intros Hs H. destruct (process_shape _ _ _ _ _ _ Hs H) as [s' [-> Hh]].
  exists s'. destruct Hh as [Hh | [Hh | [_ [q [Hh [_ Hq]]]]]].
  - exists []. rewrite lookup_insert_eq, app_nil_r. repeat split; auto.
  - exists [answer (clean user_text)]. rewrite lookup_insert_eq.
    repeat split; auto.
  - exists [answer (clean user_text); q]. rewrite lookup_insert_eq.
    repeat split; auto.
Qed.

(** The orchestrator never records more than [MAX_QUESTIONS] questions: a
    session at or below the maximum stays there. *)
Theorem question_count_stays_within_maximum
    (sessions sessions' : gmap string session)
    (session_id user_text : string) (s : session) (out : list effect) :
  sessions !! session_id = Some s ->
  process sessions session_id user_text = Some (sessions', out) ->
  get_question_count (chat_history s) <= MAX_QUESTIONS ->
  exists s',
    sessions' !! session_id = Some s'
    /\ get_question_count (chat_history s) <= get_question_count (chat_history s')
    /\ get_question_count (chat_history s') <= MAX_QUESTIONS.
Proof.
  intros Hs H Hmax. destruct (process_shape _ _ _ _ _ _ Hs H) as [s' [-> Hh]].
  exists s'. rewrite lookup_insert_eq. split; [reflexivity|].
  destruct Hh as [-> | [-> | [Hlt [q [-> [Hq _]]]]]];
    rewrite ?get_question_count_app; cbn [get_question_count];
    rewrite ?Hq; simpl; lia.
Qed.

(** An utterance that, cleaned, has fewer than three characters is dropped
    whatever the environment: nothing is sent, the history is as before, the
    back ends are not consulted, and the processor is set listening again. *)
Theorem short_utterance_is_ignored
    (sessions : gmap string session) (session_id user_text : string)
    (s : session) :
  sessions !! session_id = Some s ->
  PyStr.len (clean user_text) < 3 ->
  process sessions session_id user_text
  = Some (<[session_id := on_processor Stt.unmute s]> sessions, []).
Proof.
  intros Hs Hlen. unfold process_user_transcript. rewrite Hs. cbv zeta.
  destruct (Z.ltb_spec (PyStr.len (clean user_text)) 3) as [_|Hge]; [|lia].
  rewrite orb_true_r. reflexivity.
Qed.

(** With [MAX_QUESTIONS] questions asked, an answer ends the interview
    without the dialogue back end being consulted: the answer is recorded,
    the session and its processor are stopped, the closing message follows
    the transcript event, and the result is the same for any two back ends. *)
Theorem maximum_reached_ends_without_backend
    (sessions : gmap string session) (session_id user_text : string)
    (s : session)
    (json_loads' : string -> Reply.parsed)
    (get_llm_response' : list entry -> string -> string)
    (random_choice' : list string -> string) :
  let t := clean user_text in
  let n := get_question_count (chat_history s) in
  sessions !! session_id = Some s ->
  3 <= PyStr.len t ->
  check_stop_command t = false ->
  MAX_QUESTIONS <= n ->
  process sessions session_id user_text
  = Some (<[session_id :=
              {| is_running := false;
                 chat_history := chat_history s ++ [answer t];
                 audio_processor :=
                   Stt.stop <$> (Stt.mute <$> audio_processor s) |}]>
            sessions,
          [EmitUserTranscript t;
           EmitAiMessage
             {| text := closing_message n false;
                audio := synthesize_speech (closing_message n false);
                evaluation := None; score := None; question_number := None;
                interview_stage := None; should_continue := None;
                requires_confirmation := None; is_final := Some true |};
           StartReportThread (total_wait_time (closing_message n false))])
  /\ process_user_transcript re_sub json_loads' synthesize_speech
       get_llm_response' random_choice' sessions session_id user_text
     = process sessions session_id user_text.
Proof.
  intros t n Hs Hlen Hstop Hmax.
  assert (Hcount : get_question_count (chat_history s ++ [answer t]) = n).
  { rewrite get_question_count_app. simpl. unfold n. lia. }
  assert (Hres : forall jl llm rc,
             process_user_transcript re_sub jl synthesize_speech llm rc
               sessions session_id user_text
             = Some (<[session_id :=
                         {| is_running := false;
                            chat_history := chat_history s ++ [answer t];
                            audio_processor :=
                              Stt.stop <$> (Stt.mute <$> audio_processor s) |}]>
                       sessions,
                     [EmitUserTranscript t;
                      EmitAiMessage
                        {| text := closing_message n false;
                           audio := synthesize_speech (closing_message n false);
                           evaluation := None; score := None;
                           question_number := None; interview_stage := None;
                           should_continue := None;
                           requires_confirmation := None;
                           is_final := Some true |};
                      StartReportThread
                        (total_wait_time (closing_message n false))])).
  { intros jl llm rc.
    unfold process_user_transcript, end_interview_naturally. rewrite Hs.
    fold t. rewrite (long_is_truthy t Hlen). cbn [negb orb].
    destruct (Z.ltb_spec (PyStr.len t) 3); [lia|].
    rewrite Hstop.
    cbn [append_entry on_processor chat_history audio_processor].
    rewrite Hcount. destruct (Z.geb_spec n MAX_QUESTIONS); [|lia].
    rewrite insert_insert_eq. reflexivity. }
  split; [apply Hres | now rewrite !Hres].
Qed.

(** The reply of the back end is a JSON object and the maximum is not
    reached: what the call does then. [n] is the number of questions asked
    before the call. *)
Lemma process_object_reply
    (sessions : gmap string session) (session_id user_text : string)
    (s : session) (r : Reply.reply) :
  let t := clean user_text in
  let n := get_question_count (chat_history s) in
  let raw := get_llm_response (chat_history s ++ [answer t]) t in
  let evaluation := default "" (Reply.evaluation r) in
  let score := default 0 (Reply.score r) in
  let next_question :=
    default "Let's continue our discussion." (Reply.next_question r) in
  let go_on := default true (Reply.should_continue r) in
  let s2 :=
    append_entry (evaluated_question next_question evaluation score)
      (append_entry (answer t) (on_processor Stt.mute s)) in
  sessions !! session_id = Some s ->
  3 <= PyStr.len t ->
  check_stop_command t = false ->
  n < MAX_QUESTIONS ->
  json_loads (strip_fences (if negb (PyStr.truthy raw) then default_reply
                            else raw)) = Reply.Object r ->
  process sessions session_id user_text =
  if negb go_on && (n >=? MIN_QUESTIONS) then
    Some (<[session_id :=
              {| is_running := false; chat_history := chat_history s2;
                 audio_processor := Stt.stop <$> audio_processor s2 |}]>
            sessions,
          [EmitUserTranscript t;
           EmitAiMessage
             {| text := closing_message (n + 1) false;
                audio := synthesize_speech (closing_message (n + 1) false);
                evaluation := None; score := None; question_number := None;
                interview_stage := None; should_continue := None;
                requires_confirmation := None; is_final := Some true |};
           StartReportThread
             (total_wait_time (closing_message (n + 1) false))])
  else
    Some (<[session_id := s2]> sessions,
          [EmitUserTranscript t;
           EmitAiMessage
             {| text := create_conversational_feedback random_choice
                          evaluation next_question;
                audio := synthesize_speech
                           (create_conversational_feedback random_choice
                              evaluation next_question);
                evaluation := Some evaluation; score := Some score;
                question_number := Some (n + 1);
                interview_stage :=
                  Some (default "mid" (Reply.interview_stage r));
                should_continue := Some go_on;
                requires_confirmation := None; is_final := None |}]).
Proof.
  intros t n raw evaluation score next_question go_on s2
         Hs Hlen Hstop Hmax Hparse.
  assert (Hcount : get_question_count (chat_history s ++ [answer t]) = n).
  { rewrite get_question_count_app. simpl. unfold n. lia. }
  unfold process_user_transcript, end_interview_naturally. rewrite Hs. fold t.
  rewrite (long_is_truthy t Hlen). cbn [negb orb].
  destruct (Z.ltb_spec (PyStr.len t) 3); [lia|].
  rewrite Hstop.
  cbn [append_entry on_processor chat_history audio_processor].
  rewrite Hcount. destruct (Z.geb_spec n MAX_QUESTIONS) as [|_]; [lia|].
  fold raw. rewrite Hparse. cbn [orb]. rewrite orb_false_r.
  fold evaluation score next_question go_on.
  destruct (negb go_on && (n >=? MIN_QUESTIONS)).
  - rewrite insert_insert_eq. reflexivity.
  - reflexivity.
Qed.

(** The back end asks to stop ([should_continue] false) when fewer than
    [MIN_QUESTIONS] questions were asked: the orchestrator goes on. The
    next question is recorded and sent as a normal turn, numbered one more
    than the questions asked, and the session keeps running; the processor
    is muted, not stopped. *)
Theorem early_stop_wish_is_overruled
    (sessions : gmap string session) (session_id user_text : string)
    (s : session) (r : Reply.reply) :
  let t := clean user_text in
  let n := get_question_count (chat_history s) in
  let raw := get_llm_response (chat_history s ++ [answer t]) t in
  sessions !! session_id = Some s ->
  3 <= PyStr.len t ->
  check_stop_command t = false ->
  n < MIN_QUESTIONS ->
  PyStr.truthy raw = true ->
  json_loads (strip_fences raw) = Reply.Object r ->
  Reply.should_continue r = Some false ->
  exists sessions' s' m,
    process sessions session_id user_text
    = Some (sessions', [EmitUserTranscript t; EmitAiMessage m])
    /\ sessions' !! session_id = Some s'
    /\ is_running s' = is_running s
    /\ audio_processor s' = Stt.mute <$> audio_processor s
    /\ get_question_count (chat_history s') = n + 1
    /\ question_number m = Some (n + 1)
    /\ should_continue m = Some false
    /\ is_final m = None.
Proof.
  intros t n raw Hs Hlen Hstop Hmin Htruthy Hparse Hsc.
  assert (Hmax : n < MAX_QUESTIONS)
    by (unfold MIN_QUESTIONS, MAX_QUESTIONS in *; lia).
  assert (H := process_object_reply sessions session_id user_text s r
                 Hs Hlen Hstop Hmax).
  cbv zeta in H. fold t n raw in H. rewrite Htruthy in H. cbn [negb] in H.
  specialize (H Hparse). rewrite Hsc in H. cbn [default negb andb] in H.
  destruct (Z.geb_spec n MIN_QUESTIONS) as [|_]; [lia|].
  do 3 eexists. split; [exact H|]. rewrite lookup_insert_eq.
  split; [reflexivity|]. split; [reflexivity|]. split; [reflexivity|].
  split; [|repeat split].
  cbn [append_entry chat_history on_processor].
  rewrite <- app_assoc, get_question_count_app. simpl. fold n. lia.
Qed.

(** The back end asks to stop when at least [MIN_QUESTIONS] questions were
    asked: its last question is still recorded, the session and its
    processor are stopped, and the closing message, which counts that last
    question, is the one event that follows the transcript. *)
Theorem late_stop_wish_ends_interview
    (sessions : gmap string session) (session_id user_text : string)
    (s : session) (r : Reply.reply) :
  let t := clean user_text in
  let n := get_question_count (chat_history s) in
  let raw := get_llm_response (chat_history s ++ [answer t]) t in
  sessions !! session_id = Some s ->
  3 <= PyStr.len t ->
  check_stop_command t = false ->
  MIN_QUESTIONS <= n < MAX_QUESTIONS ->
  PyStr.truthy raw = true ->
  json_loads (strip_fences raw) = Reply.Object r ->
  Reply.should_continue r = Some false ->
  exists sessions' s' m,
    process sessions session_id user_text
    = Some (sessions',
            [EmitUserTranscript t; EmitAiMessage m;
             StartReportThread (total_wait_time (closing_message (n + 1) false))])
    /\ sessions' !! session_id = Some s'
    /\ is_running s' = false
    /\ Stt.is_running <$> audio_processor s'
       = (fun _ => false) <$> audio_processor s
    /\ get_question_count (chat_history s') = n + 1
    /\ text m = closing_message (n + 1) false
    /\ is_final m = Some true.
Proof.
  intros t n raw Hs Hlen Hstop [Hmin Hmax] Htruthy Hparse Hsc.
  assert (H := process_object_reply sessions session_id user_text s r
                 Hs Hlen Hstop Hmax).
  cbv zeta in H. fold t n raw in H. rewrite Htruthy in H. cbn [negb] in H.
  specialize (H Hparse). rewrite Hsc in H. cbn [default negb andb] in H.
  destruct (Z.geb_spec n MIN_QUESTIONS) as [_|]; [|lia].
  do 3 eexists. split; [exact H|]. rewrite lookup_insert_eq.
  split; [reflexivity|]. split; [reflexivity|]. split; [|split; [|split]].
  - cbn [append_entry audio_processor on_processor].
    destruct (audio_processor s) as [p|]; [|reflexivity]. cbn.
    f_equal. apply stop_not_running.
  - cbn [append_entry chat_history on_processor].
    rewrite <- app_assoc, get_question_count_app. simpl. fold n. lia.
  - reflexivity.
  - reflexivity.
Qed.

(** An utterance with a stop phrase when at least [MIN_QUESTIONS] questions
    were asked ends the interview at once: nothing is added to the history,
    the session and its processor are stopped, the closing message for an
    end asked by the candidate is sent with [is_final], and the report
    thread is started. *)
Theorem stop_intent_with_enough_questions_ends
    (sessions : gmap string session) (session_id user_text : string)
    (s : session) :
  let t := clean user_text in
  let n := get_question_count (chat_history s) in
  sessions !! session_id = Some s ->
  3 <= PyStr.len t ->
  check_stop_command t = true ->
  MIN_QUESTIONS <= n ->
  process sessions session_id user_text
  = Some (<[session_id :=
              {| is_running := false; chat_history := chat_history s;
                 audio_processor := Stt.stop <$> audio_processor s |}]>
            sessions,
          [EmitAiMessage
             {| text := closing_message n true;
                audio := synthesize_speech (closing_message n true);
                evaluation := None; score := None; question_number := None;
                interview_stage := None; should_continue := None;
                requires_confirmation := None; is_final := Some true |};
           StartReportThread (total_wait_time (closing_message n true))]).
Proof.
  intros t n Hs Hlen Hstop Hmin.
  unfold process_user_transcript, end_interview_naturally. rewrite Hs. fold t.
  rewrite (long_is_truthy t Hlen). cbn [negb orb].
  destruct (Z.ltb_spec (PyStr.len t) 3); [lia|].
  rewrite Hstop. fold n. destruct (Z.geb_spec n MIN_QUESTIONS); [|lia].
  reflexivity.
Qed.

End OrchestratorMore.

Lemma process_leaves_other_sessions_witness :
  (<["sid" := Flow.on_processor Stt.mute Example.one_question]>
     Example.one_session) !! "other"
  = Example.one_session !! "other".
Proof.
  apply (process_leaves_other_sessions Example.plain_re_sub
           Example.reject_json Example.silent_speech Example.prose_reply
           Example.first_choice Example.one_session
           (<["sid" := Flow.on_processor Stt.mute Example.one_question]>
              Example.one_session)
           "sid" "other" "let's stop the interview"
           [Flow.EmitAiMessage (Flow.confirmation Example.silent_speech 1)]);
    [reflexivity | discriminate].
Defined.

Lemma history_is_append_only_witness :
  exists s' added,
    (<["sid" := Flow.on_processor Stt.mute Example.one_question]>
       Example.one_session) !! "sid" = Some s'
    /\ Session.chat_history s'
       = Session.chat_history Example.one_question ++ added
    /\ (length added <= 2)%nat
    /\ Forall (fun e => Session.resume e = None) added.
Proof.
  apply (history_is_append_only Example.plain_re_sub Example.reject_json
           Example.silent_speech Example.prose_reply Example.first_choice
           Example.one_session
           (<["sid" := Flow.on_processor Stt.mute Example.one_question]>
              Example.one_session)
           "sid" "let's stop the interview" Example.one_question
           [Flow.EmitAiMessage (Flow.confirmation Example.silent_speech 1)]);
    reflexivity.
Defined.

Lemma question_count_stays_within_maximum_witness :
  exists s',
    (<["sid" := Flow.on_processor Stt.mute Example.one_question]>
       Example.one_session) !! "sid" = Some s'
    /\ Flow.get_question_count (Session.chat_history Example.one_question)
       <= Flow.get_question_count (Session.chat_history s')
    /\ Flow.get_question_count (Session.chat_history s')
       <= Flow.MAX_QUESTIONS.
Proof.
  apply (question_count_stays_within_maximum Example.plain_re_sub
           Example.reject_json Example.silent_speech Example.prose_reply
           Example.first_choice Example.one_session
           (<["sid" := Flow.on_processor Stt.mute Example.one_question]>
              Example.one_session)
           "sid" "let's stop the interview" Example.one_question
           [Flow.EmitAiMessage (Flow.confirmation Example.silent_speech 1)]);
    first [reflexivity | vm_compute; discriminate].
Defined.

Lemma short_utterance_is_ignored_witness :
  Flow.process_user_transcript Example.plain_re_sub Example.reject_json
    Example.silent_speech Example.prose_reply Example.first_choice
    Example.one_session "sid" " ok "
  = Some (<["sid" := Flow.on_processor Stt.unmute Example.one_question]>
            Example.one_session, []).
Proof.
  apply (short_utterance_is_ignored Example.plain_re_sub Example.reject_json
           Example.silent_speech Example.prose_reply Example.first_choice
           Example.one_session "sid" " ok " Example.one_question);
    reflexivity.
Defined.

Lemma maximum_reached_ends_without_backend_witness :
  Flow.process_user_transcript Example.plain_re_sub Example.accept_json
    Example.silent_speech Example.prose_reply Example.first_choice
    {[ "sid" := Example.asked 10 ]} "sid" "I worked on payments"
  = Flow.process_user_transcript Example.plain_re_sub Example.reject_json
      Example.silent_speech Example.prose_reply Example.first_choice
      {[ "sid" := Example.asked 10 ]} "sid" "I worked on payments".
Proof.
  apply (maximum_reached_ends_without_backend Example.plain_re_sub
           Example.reject_json Example.silent_speech Example.prose_reply
           Example.first_choice {[ "sid" := Example.asked 10 ]} "sid"
           "I worked on payments" (Example.asked 10)
           Example.accept_json Example.prose_reply Example.first_choice);
    first [reflexivity | vm_compute; discriminate].
Defined.

Lemma early_stop_wish_is_overruled_witness :
  exists sessions' s' m,
    Flow.process_user_transcript Example.plain_re_sub Example.accept_json
      Example.silent_speech Example.prose_reply Example.first_choice
      Example.one_session "sid" "I worked on payments"
    = Some (sessions',
            [Flow.EmitUserTranscript "I worked on payments";
             Flow.EmitAiMessage m])
    /\ sessions' !! "sid" = Some s'
    /\ Session.is_running s' = Session.is_running Example.one_question
    /\ Session.audio_processor s'
       = Stt.mute <$> Session.audio_processor Example.one_question
    /\ Flow.get_question_count (Session.chat_history s') = 1 + 1
    /\ Flow.question_number m = Some (1 + 1)
    /\ Flow.should_continue m = Some false
    /\ Flow.is_final m = None.
Proof.
  apply (early_stop_wish_is_overruled Example.plain_re_sub
           Example.accept_json Example.silent_speech Example.prose_reply
           Example.first_choice Example.one_session "sid"
           "I worked on payments" Example.one_question Example.stop_reply);
    first [reflexivity | vm_compute; discriminate].
Defined.

Lemma late_stop_wish_ends_interview_witness :
  exists sessions' s' m,
    Flow.process_user_transcript Example.plain_re_sub Example.accept_json
      Example.silent_speech Example.prose_reply Example.first_choice
      {[ "sid" := Example.asked 4 ]} "sid" "I worked on payments"
    = Some (sessions',
            [Flow.EmitUserTranscript "I worked on payments";
             Flow.EmitAiMessage m;
             Flow.StartReportThread
               (Flow.total_wait_time (Flow.closing_message (4 + 1) false))])
    /\ sessions' !! "sid" = Some s'
    /\ Session.is_running s' = false
    /\ Stt.is_running <$> Session.audio_processor s'
       = (fun _ => false) <$> Session.audio_processor (Example.asked 4)
    /\ Flow.get_question_count (Session.chat_history s') = 4 + 1
    /\ Flow.text m = Flow.closing_message (4 + 1) false
    /\ Flow.is_final m = Some true.
Proof.
  apply (late_stop_wish_ends_interview Example.plain_re_sub
           Example.accept_json Example.silent_speech Example.prose_reply
           Example.first_choice {[ "sid" := Example.asked 4 ]} "sid"
           "I worked on payments" (Example.asked 4) Example.stop_reply);
    first [reflexivity | vm_compute; discriminate
          | split; [vm_compute; discriminate | reflexivity]].
Defined.

Lemma stop_intent_with_enough_questions_ends_witness :
  Flow.process_user_transcript Example.plain_re_sub Example.reject_json
    Example.silent_speech Example.prose_reply Example.first_choice
    {[ "sid" := Example.asked 4 ]} "sid" "let's stop the interview"
  = Some (<["sid" :=
             {| Session.is_running := false;
                Session.chat_history :=
                  Session.chat_history (Example.asked 4);
                Session.audio_processor :=
                  Stt.stop <$> Session.audio_processor (Example.asked 4) |}]>
            {[ "sid" := Example.asked 4 ]},
          [Flow.EmitAiMessage
             {| Flow.text := Flow.closing_message 4 true;
                Flow.audio := "";
                Flow.evaluation := None; Flow.score := None;
                Flow.question_number := None; Flow.interview_stage := None;
                Flow.should_continue := None;
                Flow.requires_confirmation := None;
                Flow.is_final := Some true |};
           Flow.StartReportThread
             (Flow.total_wait_time (Flow.closing_message 4 true))]).
Proof.
  apply (stop_intent_with_enough_questions_ends Example.plain_re_sub
           Example.reject_json Example.silent_speech Example.prose_reply
           Example.first_choice {[ "sid" := Example.asked 4 ]} "sid"
           "let's stop the interview" (Example.asked 4));
    first [reflexivity | vm_compute; discriminate].
Defined.

(** ** Replies, transcripts and transitions *)

Section Texts.

Import Session Flow.

Lemma length_app_str (a b : string) :
  String.length (a +:+ b) = (String.length a + String.length b)%nat.
Proof.
  induction a as [|c a IH]; [reflexivity|].
  rewrite app_cons_str. simpl. now rewrite IH.
Qed.

Lemma drop_app_str (a b : string) : PyStr.drop (String.length a) (a +:+ b) = b.
Proof. induction a as [|c a IH]; [reflexivity | exact IH]. Qed.

Lemma take_app_str (a b : string) : PyStr.take (String.length a) (a +:+ b) = a.
Proof.
  induction a as [|c a IH]; [reflexivity|].
  rewrite app_cons_str. simpl. now rewrite IH.
Qed.

Lemma endswith_app (a b : string) : PyStr.endswith b (a +:+ b) = true.
Proof.
  unfold PyStr.endswith. rewrite length_app_str.
  replace (String.length a + String.length b - String.length b)%nat
    with (String.length a) by lia.
  rewrite drop_app_str, String.eqb_refl, andb_true_r.
  apply Nat.leb_le. lia.
Qed.

Lemma drop_end_app (a b : string) :
  PyStr.drop_end (String.length b) (a +:+ b) = a.
Proof.
  unfold PyStr.drop_end. rewrite length_app_str.
  replace (String.length a + String.length b - String.length b)%nat
    with (String.length a) by lia.
  apply take_app_str.
Qed.

Lemma strip_fenced (opening body : string) :
  PyStr.starts_solid opening ->
  PyStr.strip (opening +:+ body +:+ "```") = opening +:+ body +:+ "```".
Proof.
  intros Ho. unfold PyStr.strip.
  rewrite lstrip_solid by (right; now apply solid_app).
  rewrite rstrip_app, rstrip_app.
  change (PyStr.rstrip "```") with "```". cbv iota.
  destruct body; reflexivity.
Qed.

(** The fence markers are taken off before the reply is parsed: a reply
    between [```json] and [```], or between [```] and [```] when what
    follows the opening marker does not begin with "json", is parsed as its
    body, stripped; a reply that, stripped, neither begins nor ends with
    [```] is parsed as it is, stripped. *)
Theorem strip_fences_takes_fences_off :
  (forall body,
      strip_fences ("```json" +:+ body +:+ "```") = PyStr.strip body)
  /\ (forall body,
         PyStr.startswith "json" (body +:+ "```") = false ->
         strip_fences ("```" +:+ body +:+ "```") = PyStr.strip body)
  /\ (forall reply,
         PyStr.startswith "```" (PyStr.strip reply) = false ->
         PyStr.endswith "```" (PyStr.strip reply) = false ->
         strip_fences reply = PyStr.strip reply).
Proof.
  split; [|split].
  - intros body. unfold strip_fences.
    rewrite (strip_fenced "```json" body) by reflexivity.
    change (PyStr.startswith "```json" ("```json" +:+ body +:+ "```"))
      with (PyStr.startswith "" (body +:+ "```")).
    cbn [PyStr.startswith].
    change (PyStr.drop 7 ("```json" +:+ body +:+ "```"))
      with (body +:+ "```").
    rewrite endswith_app. f_equal. apply (drop_end_app body "```").
  - intros body Hj. unfold strip_fences.
    rewrite (strip_fenced "```" body) by reflexivity.
    change (PyStr.startswith "```json" ("```" +:+ body +:+ "```"))
      with (PyStr.startswith "json" (body +:+ "```")).
    rewrite Hj.
    change (PyStr.startswith "```" ("```" +:+ body +:+ "```"))
      with (PyStr.startswith "" (body +:+ "```")).
    cbn [PyStr.startswith].
    change (PyStr.drop 3 ("```" +:+ body +:+ "```")) with (body +:+ "```").
    rewrite endswith_app. f_equal. apply (drop_end_app body "```").
  - intros reply Hs He. unfold strip_fences.
    assert (Hsj : PyStr.startswith "```json" (PyStr.strip reply) = false).
    { destruct (PyStr.startswith "```json" (PyStr.strip reply)) eqn:E;
        [|reflexivity].
      apply startswith_spec in E as [post E].
      assert (PyStr.startswith "```" (PyStr.strip reply) = true).
      { apply startswith_spec. exists ("json" +:+ post). rewrite E. reflexivity. }
      congruence. }
    rewrite Hsj, Hs, He. apply strip_idem.
Qed.

(** The cleaned transcript has no white space at its ends, whatever the
    substitutions do: cleaning ends with a [strip]. The empty text is
    returned as it is. *)
Theorem clean_transcript_is_stripped
    (re_sub : string -> string -> bool -> string -> string) (text : string) :
  PyStr.strip (clean_transcript re_sub text) = clean_transcript re_sub text
  /\ clean_transcript re_sub "" = "".
Proof.
  split; [|reflexivity]. unfold clean_transcript.
  destruct text as [|c text]; [reflexivity|]. cbn [PyStr.truthy negb].
  apply strip_idem.
Qed.

(** An evaluation that says "incorrect", in any case and anywhere, is met
    with one of the affirming transitions: "correct" is found inside
    "incorrect", and the affirming words are looked for first. *)
Theorem incorrect_is_met_with_affirmation
    (random_choice : list string -> string)
    (before word after next_question : string) :
  (forall l, l <> [] -> In (random_choice l) l) ->
  PyStr.lower word = "incorrect" ->
  In (create_conversational_feedback random_choice
        (before +:+ word +:+ after) next_question)
     (map (fun transition => transition +:+ next_question)
          ["Excellent. "; "That's very good. "; "Well explained. ";
           "Good understanding. "; "Perfect. "]).
Proof.
  intros Hrc Hw. unfold create_conversational_feedback.
  assert (Ht : PyStr.truthy (before +:+ word +:+ after) = true).
  { destruct before; [|reflexivity]. rewrite app_nil_str.
    destruct word; [discriminate Hw | reflexivity]. }
  rewrite Ht.
  assert (Hpos : existsb
                   (fun w => PyStr.contains w
                               (PyStr.lower (before +:+ word +:+ after)))
                   positive_words = true).
  { apply existsb_exists. exists "correct". split; [simpl; tauto|].
    apply contains_spec. rewrite !lower_app, Hw.
    exists (PyStr.lower before +:+ "in"), (PyStr.lower after).
    rewrite app_assoc_str. reflexivity. }
  rewrite Hpos.
  apply (in_map (fun transition => transition +:+ next_question)).
  apply Hrc. discriminate.
Qed.

Lemma incorrect_is_met_with_affirmation_witness :
  In (create_conversational_feedback (hd "")
        ("That is " +:+ "Incorrect" +:+ ".") "What is a mutex?")
     (map (fun transition => transition +:+ "What is a mutex?")
          ["Excellent. "; "That's very good. "; "Well explained. ";
           "Good understanding. "; "Perfect. "]).
Proof.
  apply (incorrect_is_met_with_affirmation (hd "") "That is " "Incorrect" "."
           "What is a mutex?"); [|reflexivity].
  intros [|x l] H; [contradiction | left; reflexivity].
Defined.

(** The entries that the debug endpoint tags [INTERVIEWER] are exactly the
    questions that [get_question_count] counts. *)
Theorem interviewer_tags_are_question_count (h : list entry) :
  Routes.interviewer_tags h = get_question_count h.
Proof.
  unfold Routes.interviewer_tags.
  induction h as [|e h IH]; [reflexivity|].
  cbn [get_question_count]. rewrite <- IH. rewrite filter_cons.
  unfold is_question, Routes.type_of.
  destruct (bool_decide (is_Some (resume e)));
    destruct (bool_decide (is_Some (interviewer e)));
    destruct (bool_decide (is_Some (candidate e)));
    cbn [Routes.is_interviewer negb andb];
    (destruct (decide _) as [H|H]; [try discriminate H | try (exfalso; apply H; reflexivity)]);
    cbn [length]; lia.
Qed.

End Texts.

(** ** The reports *)

Section Reports.

Import Session Report.

Lemma pair_loop_scores (h : list entry) (fuel : nat) :
  forall (i : nat) (qa_pairs : list qa_pair) (scores : list Z),
    (i + fuel <= length h)%nat ->
    snd (pair_loop fuel i h qa_pairs scores)
    = scores ++ filter (fun n => 0 < n)
                       (qa_score <$> omap (pair_at h) (seq i fuel)).
Proof.
  induction fuel as [|fuel IH]; intros i qa_pairs scores Hlen.
  - simpl. now rewrite app_nil_r.
  - destruct (lookup_lt_is_Some_2 h i) as [cur Hcur]; [lia|].
    cbn [pair_loop seq]. rewrite omap_step. unfold pair_at at 1.
    rewrite Hcur, evaluation_after_two_later, Nat.add_1_r.
    destruct (is_question cur).
    + destruct (h !! S i ≫= candidate) as [a|].
      * rewrite IH by lia. rewrite fmap_cons, filter_cons. cbn [qa_score].
        destruct (Z.ltb_spec 0 (default 0 (interviewer_two_later h i ≫= score)));
          destruct (decide _); try lia.
        -- rewrite <- app_assoc. reflexivity.
        -- reflexivity.
      * apply IH. lia.
    + destruct (h !! S i ≫= candidate); apply IH; lia.
Qed.

(** The scores that are averaged are the positive scores of the pairs, in
    the order of the pairs. *)
Theorem scores_are_positive_pair_scores (h : list entry) :
  snd (collect_pairs h)
  = filter (fun n => 0 < n) (qa_score <$> qa_pairs_of h).
Proof.
  unfold qa_pairs_of, collect_pairs.
  destruct h as [|m h]; [reflexivity|].
  rewrite pair_loop_scores, pair_loop_spec by (simpl; lia). reflexivity.
Qed.



Lemma fallback_loop_spec (h : list entry) (fuel : nat) :
  forall (i : nat) (qa_pairs : list fallback_pair) (scores : list Z),
    (i + fuel <= length h)%nat ->
    fst (fallback_loop fuel i h qa_pairs scores)
    = qa_pairs ++ omap (fallback_pair_at h) (seq i fuel).
Proof.
  induction fuel as [|fuel IH]; intros i qa_pairs scores Hlen.
  - simpl. now rewrite app_nil_r.
  - destruct (lookup_lt_is_Some_2 h i) as [cur Hcur]; [lia|].
    cbn [fallback_loop seq]. rewrite omap_step. unfold fallback_pair_at at 1.
    rewrite Hcur.
    destruct (bool_decide (is_Some (interviewer cur))).
    + destruct (PyStr.truthy (default "" (h !! (i + 1)%nat ≫= candidate))).
      * rewrite Nat.add_1_r, IH by lia. rewrite <- app_assoc. reflexivity.
      * rewrite Nat.add_1_r. apply IH. lia.
    + rewrite Nat.add_1_r. apply IH. lia.
Qed.

(** The pairs of the fallback report are, in order, the interviewer entries
    after the first entry that are followed by an answer that is not empty,
    each with the score found on the question's own entry, not on the
    interviewer entry after the answer. *)
Theorem fallback_pairs_take_own_score :
  (forall h : list entry,
      fallback_pairs_of h
      = omap (fallback_pair_at h) (seq 1 (length h - 1)))
  /\ (forall (m : entry) (q1 e1 a1 q2 e2 a2 : string) (n1 n2 : Z),
         PyStr.truthy a1 = true -> PyStr.truthy a2 = true ->
         fallback_pairs_of [m; evaluated_question q1 e1 n1; answer a1;
                            evaluated_question q2 e2 n2; answer a2]
         = [ {| fb_question := q1; fb_answer := a1; fb_score := n1 |};
             {| fb_question := q2; fb_answer := a2; fb_score := n2 |} ]).
Proof.
  split.
  - intros h. unfold fallback_pairs_of.
    destruct h as [|m h]; [reflexivity|].
    rewrite fallback_loop_spec; [reflexivity | simpl; lia].
  - intros m q1 e1 a1 q2 e2 a2 n1 n2 H1 H2. unfold fallback_pairs_of.
    cbn. rewrite H1. cbn. rewrite H2. reflexivity.
Qed.

Lemma omap_related {A B C D : Type} (F : A -> option B) (G : A -> option C)
    (pf : B -> D) (pg : C -> D) (l : list A) :
  Forall (fun x => pf <$> F x = pg <$> G x) l ->
  pf <$> omap F l = pg <$> omap G l.
Proof.
  induction 1 as [|x l Hx Hl IH]; [reflexivity|].
  rewrite !omap_step. destruct (F x), (G x); simpl in Hx; try discriminate.
  - rewrite !fmap_cons. inversion Hx. now rewrite IH.
  - exact IH.
Qed.

(** On a history that begins with its one metadata entry and has no empty
    answer, the fallback report lists the same questions with the same
    answers as the report proper; only the scores are taken elsewhere. *)
Theorem fallback_lists_same_exchanges (h : list entry) :
  Events.well_formed_history h ->
  Forall (fun e => candidate e <> Some "") h ->
  (fun p => (fb_question p, fb_answer p)) <$> fallback_pairs_of h
  = (fun p => (qa_question p, qa_answer p)) <$> qa_pairs_of h.
Proof.
  intros Hwf Hne.
  destruct h as [|m rest]; [reflexivity|].
  destruct Hwf as [_ Hrest].
  unfold fallback_pairs_of, qa_pairs_of, collect_pairs.
  rewrite fallback_loop_spec, pair_loop_spec by (simpl; lia).
  cbn [app]. apply omap_related.
  apply Forall_forall. intros i Hi. apply list_elem_of_In, in_seq in Hi.
  unfold fallback_pair_at, pair_at.
  destruct ((m :: rest) !! i) as [q|] eqn:Hq; [|reflexivity].
  assert (Hres : resume q = None).
  { destruct i as [|i]; [lia|]. cbn in Hq.
    rewrite Forall_forall in Hrest. apply Hrest.
    eapply list_elem_of_lookup_2. exact Hq. }
  unfold is_question. rewrite Hres.
  assert (Hb : bool_decide (is_Some (@None string)) = false).
  { apply bool_decide_eq_false. intros [x Hx]. discriminate Hx. }
  rewrite Hb. cbn [negb]. rewrite andb_true_r.
  destruct ((m :: rest) !! (i + 1)%nat) as [a|] eqn:Ha; cbn [mbind option_bind].
  - destruct (candidate a) as [ans|] eqn:Hans; cbn [default].
    + assert (Hans' : PyStr.truthy ans = true).
      { destruct ans; [|reflexivity]. exfalso.
        rewrite Forall_forall in Hne. apply (Hne a); [|exact Hans].
        eapply list_elem_of_lookup_2. exact Ha. }
      unfold id. rewrite Hans'.
      destruct (bool_decide (is_Some (interviewer q))); reflexivity.
    + destruct (bool_decide (is_Some (interviewer q))); reflexivity.
  - cbn [default PyStr.truthy].
    destruct (bool_decide (is_Some (interviewer q))); reflexivity.
Qed.

Lemma fallback_lists_same_exchanges_witness :
  (fun p => (fb_question p, fb_answer p))
    <$> fallback_pairs_of
          [metadata "r" "j" "technical"; question "Q1"; answer "A1";
           evaluated_question "Q2" "good" 7; answer "A2"]
  = (fun p => (qa_question p, qa_answer p))
      <$> qa_pairs_of
            [metadata "r" "j" "technical"; question "Q1"; answer "A1";
             evaluated_question "Q2" "good" 7; answer "A2"].
Proof.
  apply (fallback_lists_same_exchanges
           [metadata "r" "j" "technical"; question "Q1"; answer "A1";
            evaluated_question "Q2" "good" 7; answer "A2"]).
  - split; [eexists; reflexivity | repeat constructor].
  - repeat constructor; discriminate.
Defined.

Lemma ge_true (x avg : Q) : Qle_bool x avg = true <-> (x <= avg)%Q.
Proof. apply Qle_bool_iff. Qed.

Lemma ge_false (x avg : Q) : Qle_bool x avg = false <-> (avg < x)%Q.
Proof.
  split.
  - intros H. apply Qnot_le_lt. intros Hle. apply ge_true in Hle. congruence.
  - intros H. destruct (Qle_bool x avg) eqn:E; [|reflexivity].
    apply ge_true in E. exfalso. exact (Qlt_not_le _ _ H E).
Qed.

Lemma ge_weaker (x y avg : Q) :
  (x <= y)%Q -> Qle_bool x avg = false -> Qle_bool y avg = false.
Proof.
  intros Hxy H. apply ge_false in H. apply ge_false.
  eapply Qlt_le_trans; eassumption.
Qed.

(** The recommendation of the rule based analysis is "No Hire" exactly when
    the average is below five, and "Strong Hire" exactly when the average
    is at least eight and no answer was unclear. *)
Theorem recommendation_tiers (avg_score : Q) (qa_count : Z)
    (qa_pairs : list qa_pair) :
  let r := recommendation
             (generate_fallback_analysis avg_score qa_count qa_pairs) in
  (r = "No Hire - Significant skill gaps and communication issues"
   <-> (avg_score < 5)%Q)
  /\ (r = "Strong Hire - Demonstrated excellent technical competence and clear communication"
      <-> (8 <= avg_score)%Q /\ unclear_answers qa_pairs = 0).
Proof.
  intros r. unfold r, generate_fallback_analysis.
  destruct (analysis_points avg_score qa_count qa_pairs) as [st im].
  cbn [recommendation].
  rewrite <- ge_false, <- ge_true.
  assert (H87 := ge_weaker 7 8 avg_score ltac:(unfold Qle; simpl; lia)).
  assert (H76 := ge_weaker 6 7 avg_score ltac:(unfold Qle; simpl; lia)).
  assert (H65 := ge_weaker 5 6 avg_score ltac:(unfold Qle; simpl; lia)).
  destruct (Qle_bool 8 avg_score) eqn:E8;
    destruct (Qle_bool 7 avg_score) eqn:E7;
    destruct (Qle_bool 6 avg_score) eqn:E6;
    destruct (Qle_bool 5 avg_score) eqn:E5;
    try (specialize (H87 eq_refl)); try (specialize (H76 eq_refl));
    try (specialize (H65 eq_refl)); try discriminate;
    destruct (Z.eqb_spec (unclear_answers qa_pairs) 0) as [Eu|Eu];
    try rewrite Eu; cbn [andb Z.leb Z.compare];
    try destruct (unclear_answers qa_pairs <=? 1);
    cbn [andb];
    (split; split; try discriminate; try reflexivity;
     try (intros [? ?]; congruence); try (intros; split; congruence)).
Qed.

Lemma length_take_str (n : nat) (s : string) :
  String.length (PyStr.take n s) = Nat.min n (String.length s).
Proof.
  revert s; induction n as [|n IH]; intros s; [reflexivity|].
  destruct s as [|c s]; [reflexivity|]. simpl. now rewrite IH.
Qed.

(** The summary of a resume or a job description in a report is the text
    itself up to 400 characters, and otherwise its first 400 characters
    followed by three dots: never more than 403 characters. *)
Theorem summary_is_bounded (text : string) :
  (String.length (summary text) <= 403)%nat
  /\ ((String.length text <= 400)%nat -> summary text = text)
  /\ ((400 < String.length text)%nat ->
      summary text = PyStr.take 400 text +:+ "..."
      /\ String.length (summary text) = 403%nat).
Proof.
  unfold summary.
  destruct (Nat.ltb_spec 400 (String.length text)) as [H|H].
  - rewrite length_app_str, length_take_str. cbn [String.length].
    repeat split; try lia.
  - repeat split; try lia.
Qed.

End Reports.

(** ** The session as a whole *)

Section System.

Import Session Flow Events.

Variable re_sub : string -> string -> bool -> string -> string.
Variable json_loads : string -> Reply.parsed.
Variable synthesize_speech : string -> string.
Variable get_llm_response : list entry -> string -> string.
Variable random_choice : list string -> string.
Variable get_opening_question : string -> string -> string -> string.
Variable b64decode : string -> option Stt.chunk.

Abbreviation process :=
  (process_user_transcript re_sub json_loads synthesize_speech
                           get_llm_response random_choice).
Abbreviation handle_request :=
  (handle re_sub json_loads synthesize_speech get_llm_response random_choice
          get_opening_question b64decode).
Abbreviation serve_all :=
  (serve re_sub json_loads synthesize_speech get_llm_response random_choice
         get_opening_question b64decode).

(** What one call of the orchestrator does to the flags: either the session
    keeps its running flag and the processor its own, or the session is
    stopped and so is its processor, muted or not before. *)
Lemma process_flags (sessions sessions' : gmap string session)
    (session_id user_text : string) (s : session) (out : list effect) :
  sessions !! session_id = Some s ->
  process sessions session_id user_text = Some (sessions', out) ->
  exists s' f,
    sessions' = <[session_id := s']> sessions
    /\ (forall p, Stt.is_running (f p) = Stt.is_running p)
    /\ ((is_running s' = is_running s
         /\ audio_processor s' = f <$> audio_processor s)
        \/ (is_running s' = false
            /\ audio_processor s'
               = (fun p => Stt.stop (f p)) <$> audio_processor s
            /\ forall p, Stt.is_listening (f p) = true ->
                         Stt.is_listening p = true)).
Proof.
  intros Hs. unfold process_user_transcript, end_interview_naturally.
  rewrite Hs.
  split_cases; intros H; inversion H; subst; clear H;
    rewrite ?insert_insert_eq; eexists;
    first
      [ exists Stt.unmute; split; [reflexivity|]; split; [reflexivity|];
        left; split; [reflexivity|]; cbn;
        destruct (audio_processor s); reflexivity
      | exists Stt.mute; split; [reflexivity|]; split; [reflexivity|];
        left; split; [reflexivity|]; cbn;
        destruct (audio_processor s); reflexivity
      | exists (fun p => Stt.unmute (Stt.mute p));
        split; [reflexivity|]; split; [reflexivity|];
        left; split; [reflexivity|]; cbn;
        destruct (audio_processor s); reflexivity
      | exists (fun p => p); split; [reflexivity|]; split; [reflexivity|];
        right; split; [reflexivity|]; split;
        [cbn; destruct (audio_processor s); reflexivity | auto]
      | exists Stt.mute; split; [reflexivity|]; split; [reflexivity|];
        right; split; [reflexivity|]; split;
        [cbn; destruct (audio_processor s); reflexivity
        | intros p Hp; discriminate Hp] ].
Qed.

Lemma stop_flags (q : Stt.processor) :
  (Stt.is_listening q = true -> Stt.is_running q = true) ->
  Stt.is_running (Stt.stop q) = false /\ Stt.is_listening (Stt.stop q) = false.
Proof.
  intros H. unfold Stt.stop. destruct (Stt.is_running q) eqn:E; simpl; [auto|].
  split; [exact E|]. destruct (Stt.is_listening q); [|reflexivity].
  specialize (H eq_refl). discriminate H.
Qed.

(** The orchestrator, called for a session whose processor listens, keeps
    the flags of the session in agreement. *)
Lemma process_keeps_flags (sessions sessions' : gmap string session)
    (session_id user_text : string) (s : session) (out : list effect) :
  sessions !! session_id = Some s ->
  flags_agree s ->
  (forall p, audio_processor s = Some p -> Stt.is_listening p = true) ->
  process sessions session_id user_text = Some (sessions', out) ->
  exists s', sessions' = <[session_id := s']> sessions /\ flags_agree s'.
Proof.
  intros Hs Hf Hl H.
  destruct (process_flags _ _ _ _ _ _ Hs H) as [s' [f [-> [Hrun Hcase]]]].
  exists s'. split; [reflexivity|]. unfold flags_agree in *.
  destruct Hcase as [[Hr Hp] | [Hr [Hp Hlis]]]; rewrite Hp;
    destruct (audio_processor s) as [p|]; cbn; auto.
  - destruct Hf as [H1 H2]. specialize (Hl p eq_refl).
    rewrite Hrun, Hr. split; [intros _; apply H1, Hl | exact H2].
  - destruct Hf as [H1 H2].
    destruct (stop_flags (f p)) as [Ha Hb].
    { intros Hx. rewrite Hrun. apply H1, Hlis, Hx. }
    rewrite Ha, Hb. split; discriminate.
Qed.

Lemma well_formed_app (h added : list entry) :
  h <> [] -> well_formed_history h ->
  Forall (fun e => resume e = None) added ->
  well_formed_history (h ++ added).
Proof.
  destruct h as [|m rest]; [contradiction|]. intros _ [Hm Hrest] Hadd.
  split; [exact Hm | apply Forall_app; auto].
Qed.

(** The orchestrator, called for a session that has a processor, keeps the
    history of the session in order. *)
Lemma process_keeps_history (sessions sessions' : gmap string session)
    (session_id user_text : string) (s : session) (out : list effect) :
  sessions !! session_id = Some s ->
  history_agrees s -> is_Some (audio_processor s) ->
  process sessions session_id user_text = Some (sessions', out) ->
  exists s', sessions' !! session_id = Some s' /\ history_agrees s'.
Proof.
  intros Hs [Hwf [Hmax Hne]] Hp H.
  specialize (Hne Hp).
  destruct (process_shape re_sub json_loads synthesize_speech
              get_llm_response random_choice _ _ _ _ _ _ Hs H)
    as [s' [-> Hh]].
  exists s'. rewrite lookup_insert_eq. split; [reflexivity|].
  unfold history_agrees.
  destruct Hh as [Hh | [Hh | [Hlt [q [Hh [Hq Hres]]]]]]; rewrite Hh.
  - repeat split; auto.
  - split; [apply well_formed_app; auto|]. split.
    + rewrite get_question_count_app. simpl. lia.
    + intros _ E. apply app_eq_nil in E as [E _]. contradiction.
  - split; [apply well_formed_app; auto|]. split.
    + rewrite get_question_count_app. cbn [get_question_count].
      rewrite Hq. simpl. lia.
    + intros _ E. apply app_eq_nil in E as [E _]. contradiction.
Qed.

(** A step of a thread of the processor leaves its flags alone, and hands a
    text to the callback only when the processor listens. *)
Lemma thread_event_flags (e : Stt.event) (p : Stt.processor) :
  (exists r t, e = Stt.EResponse r t) \/ (exists t, e = Stt.ECheckSilence t) ->
  Stt.is_running (fst (Stt.step e p)) = Stt.is_running p
  /\ Stt.is_listening (fst (Stt.step e p)) = Stt.is_listening p
  /\ (Stt.callbacks (snd (Stt.step e p)) <> [] -> Stt.is_listening p = true).
Proof.
  intros [[r [t ->]] | [t ->]]; simpl.
  - unfold Stt.process_response. split_cases; repeat split; auto;
      intros H; contradiction.
  - unfold Stt.check_silence. split_cases; repeat split; auto;
      try (intros H; contradiction).
    intros _.
    match goal with
    | H : _ && Stt.is_listening p = true |- _ =>
        apply andb_true_iff in H as [_ H]; exact H
    end.
Qed.

Lemma thread_step_keeps_ok (session_id : string) (e : Stt.event)
    (sessions sessions' : gmap string session) (out : list sent) :
  (exists r t, e = Stt.EResponse r t) \/ (exists t, e = Stt.ECheckSilence t) ->
  map_Forall (fun _ s => session_ok s) sessions ->
  thread_step re_sub json_loads synthesize_speech get_llm_response
    random_choice session_id e sessions = Some (sessions', out) ->
  map_Forall (fun _ s => session_ok s) sessions'.
Proof.
  intros He Hall. unfold thread_step.
  destruct (sessions !! session_id) as [s|] eqn:Hs;
    [|intros H; inversion H; subst; exact Hall].
  destruct (audio_processor s) as [p|] eqn:Hp;
    [|intros H; inversion H; subst; exact Hall].
  destruct (thread_event_flags e p He) as [Hr [Hl Hcb]].
  destruct (Hall _ _ Hs) as [Hf Hh].
  set (s1 := on_processor (fun _ => fst (Stt.step e p)) s).
  assert (Hok1 : session_ok s1).
  { split.
    - unfold flags_agree in *. unfold s1. cbn. rewrite Hp in *. cbn.
      rewrite Hr, Hl. exact Hf.
    - unfold history_agrees in *. unfold s1. cbn. rewrite Hp in *. cbn.
      destruct Hh as [H1 [H2 H3]]. repeat split; auto. }
  assert (Hall1 : map_Forall (fun _ s => session_ok s)
                             (<[session_id := s1]> sessions)).
  { apply map_Forall_insert_2; assumption. }
  destruct (Stt.callbacks (snd (Stt.step e p))) as [|text rest] eqn:Hc.
  - intros H; inversion H; subst. exact Hall1.
  - destruct (process (<[session_id := s1]> sessions) session_id text)
      as [[sessions2 effects]|] eqn:Hproc; [|discriminate].
    intros H; inversion H; subst. clear H.
    assert (Hs1 : (<[session_id := s1]> sessions) !! session_id = Some s1)
      by apply lookup_insert_eq.
    assert (Hlis : forall q, audio_processor s1 = Some q ->
                             Stt.is_listening q = true).
    { unfold s1. cbn. rewrite Hp. cbn. intros q Hq. inversion Hq. subst.
      rewrite Hl. apply Hcb. discriminate. }
    assert (Hsome : is_Some (audio_processor s1)).
    { unfold s1. cbn. rewrite Hp. cbn. eexists; reflexivity. }
    destruct Hok1 as [Hf1 Hh1].
    destruct (process_keeps_flags _ _ _ _ _ _ Hs1 Hf1 Hlis Hproc)
      as [s2 [-> Hf2]].
    destruct (process_keeps_history _ _ _ _ _ _ Hs1 Hh1 Hsome Hproc)
      as [s2' [Hs2 Hh2]].
    rewrite lookup_insert_eq in Hs2. inversion Hs2; subst.
    apply map_Forall_insert_2; [split; assumption | exact Hall1].
Qed.

Lemma handle_keeps_ok (now : Stt.time) (session_id : string) (r : request)
    (sessions sessions' : gmap string session) (out : list sent) :
  map_Forall (fun _ s => session_ok s) sessions ->
  handle_request now session_id r sessions = Some (sessions', out) ->
  map_Forall (fun _ s => session_ok s) sessions'.
Proof.
  intros Hall. destruct r as [| | data | audio | | | resp |]; cbn [handle].
  - intros H; inversion H; subst. apply map_Forall_insert_2; [|exact Hall].
    split; [exact I|]. repeat split; cbn; auto.
    + unfold MAX_QUESTIONS. lia.
    + intros [x Hx]. discriminate Hx.
  - unfold handle_disconnect. destruct (sessions !! session_id);
      intros H; inversion H; subst; [apply map_Forall_delete|]; exact Hall.
  - unfold start_interview.
    destruct (sessions !! session_id) as [s|] eqn:Hs; [|discriminate].
    destruct (is_running s); intros H; inversion H; subst; [exact Hall|].
    apply map_Forall_insert_2; [|exact Hall]. split.
    + cbn. split; [discriminate | discriminate].
    + repeat split; cbn.
      * eexists; reflexivity.
      * repeat constructor.
      * unfold MAX_QUESTIONS. lia.
      * discriminate.
  - unfold handle_audio_chunk.
    destruct (sessions !! session_id) as [s|] eqn:Hs;
      [|intros H; inversion H; subst; exact Hall].
    destruct (negb (is_running s));
      [intros H; inversion H; subst; exact Hall|].
    destruct (negb (PyStr.truthy (default "" audio)));
      [intros H; inversion H; subst; exact Hall|].
    destruct (b64decode (default "" audio)) as [bytes|]; [|discriminate].
    intros H; inversion H; subst. apply map_Forall_insert_2; [|exact Hall].
    destruct (Hall _ _ Hs) as [Hf [H1 [H2 H3]]]. split.
    + unfold flags_agree in *. cbn.
      destruct (audio_processor s) as [p|]; cbn; [|exact I].
      unfold Stt.add_audio. destruct (Stt.is_running p) eqn:E; cbn;
        [rewrite ?E in *|rewrite ?E]; exact Hf.
    + repeat split; cbn; auto.
      intros [x Hx]. apply H3. destruct (audio_processor s);
        [eexists; reflexivity | discriminate Hx].
  - unfold handle_ai_speech_ended.
    destruct (sessions !! session_id) as [s|] eqn:Hs;
      [|intros H; inversion H; subst; exact Hall].
    destruct (is_running s) eqn:Er;
      intros H; inversion H; subst; [|exact Hall].
    apply map_Forall_insert_2; [|exact Hall].
    destruct (Hall _ _ Hs) as [Hf [H1 [H2 H3]]]. split.
    + unfold flags_agree in *. cbn.
      destruct (audio_processor s) as [p|]; cbn; [|exact I].
      destruct (Stt.is_running p) eqn:E; cbn.
      * rewrite E, Er. auto.
      * unfold Stt.start. rewrite E. cbn. rewrite Er. auto.
    + repeat split; cbn; auto.
      intros [x Hx]. apply H3. destruct (audio_processor s);
        [eexists; reflexivity | discriminate Hx].
  - unfold stop_interview.
    destruct (sessions !! session_id) as [s|] eqn:Hs;
      [|intros H; inversion H; subst; exact Hall].
    destruct (is_running s) eqn:Er;
      intros H; inversion H; subst; [|exact Hall].
    apply map_Forall_insert_2; [|exact Hall].
    destruct (Hall _ _ Hs) as [Hf [H1 [H2 H3]]]. split.
    + unfold flags_agree in *. cbn.
      destruct (audio_processor s) as [p|]; cbn; [|exact I].
      destruct (stop_flags p (proj1 Hf)) as [Ha Hb]. rewrite Ha, Hb.
      split; discriminate.
    + repeat split; cbn; auto.
      intros [x Hx]. apply H3. destruct (audio_processor s);
        [eexists; reflexivity | discriminate Hx].
  - apply thread_step_keeps_ok; [|exact Hall]. left. eauto.
  - apply thread_step_keeps_ok; [|exact Hall]. right. eauto.
Qed.

Lemma serve_keeps_ok (rs : list (Stt.time * string * request)) :
  forall (sessions sessions' : gmap string session) (out : list sent),
    map_Forall (fun _ s => session_ok s) sessions ->
    serve_all rs sessions = Some (sessions', out) ->
    map_Forall (fun _ s => session_ok s) sessions'.
Proof.
  induction rs as [|[[now sid] r] rs IH]; intros sessions sessions' out Hall.
  - intros H; inversion H; subst. exact Hall.
  - cbn [serve].
    destruct (handle_request now sid r sessions) as [[sessions1 out1]|] eqn:Hh;
      [|discriminate].
    destruct (serve_all rs sessions1) as [[sessions2 out2]|] eqn:Hr;
      [|discriminate].
    intros H; inversion H; subst.
    eapply IH; [|exact Hr]. eapply handle_keeps_ok; eassumption.
Qed.

(** Whatever the clients and the threads of the processors do, from the
    first connection on, and as long as no handler raises: in every session
    a processor that listens runs, and a processor that runs belongs to a
    session that is running. *)
Theorem flags_agree_in_every_session
    (rs : list (Stt.time * string * request))
    (sessions : gmap string session) (out : list sent)
    (session_id : string) (s : session) :
  serve_all rs ∅ = Some (sessions, out) ->
  sessions !! session_id = Some s ->
  flags_agree s.
Proof.
  intros Hrun Hs.
  assert (H : map_Forall (fun _ s => session_ok s) sessions).
  { eapply serve_keeps_ok; [|exact Hrun]. apply map_Forall_empty. }
  exact (proj1 (H _ _ Hs)).
Qed.

(** Whatever the clients and the threads of the processors do, from the
    first connection on: the history of every session is empty or begins
    with its one metadata entry, it never holds more than [MAX_QUESTIONS]
    questions, and it is not empty once the session has a processor. *)
Theorem history_in_order_in_every_session
    (rs : list (Stt.time * string * request))
    (sessions : gmap string session) (out : list sent)
    (session_id : string) (s : session) :
  serve_all rs ∅ = Some (sessions, out) ->
  sessions !! session_id = Some s ->
  history_agrees s.
Proof.
  intros Hrun Hs.
  assert (H : map_Forall (fun _ s => session_ok s) sessions).
  { eapply serve_keeps_ok; [|exact Hrun]. apply map_Forall_empty. }
  exact (proj2 (H _ _ Hs)).
Qed.

(** A request for one session leaves every other session as it is. *)
Theorem request_leaves_other_sessions
    (now : Stt.time) (session_id other : string) (r : request)
    (sessions sessions' : gmap string session) (out : list sent) :
  handle_request now session_id r sessions = Some (sessions', out) ->
  other <> session_id ->
  sessions' !! other = sessions !! other.
Proof.
  intros H Hne.
  assert (Hins : forall x, (<[session_id := x]> sessions) !! other
                           = sessions !! other).
  { intros x. apply lookup_insert_ne. congruence. }
  assert (Hthread : forall e,
             thread_step re_sub json_loads synthesize_speech
               get_llm_response random_choice session_id e sessions
             = Some (sessions', out) ->
             sessions' !! other = sessions !! other).
  { intros e. unfold thread_step.
    destruct (sessions !! session_id) as [s|];
      [|intros E; inversion E; reflexivity].
    destruct (audio_processor s) as [p|];
      [|intros E; inversion E; reflexivity].
    destruct (Stt.callbacks (snd (Stt.step e p))) as [|text rest].
    - intros E; inversion E; subst. apply Hins.
    - destruct (process _ session_id text) as [[sessions2 effects]|] eqn:Hp;
        [|discriminate].
      intros E; inversion E; subst.
      destruct (process_shape re_sub json_loads synthesize_speech
                  get_llm_response random_choice _ _ _ _ _ _
                  (lookup_insert_eq _ _ _) Hp) as [s' [-> _]].
      rewrite lookup_insert_ne by congruence. apply Hins. }
  destruct r as [| | data | audio | | | resp |]; cbn [handle] in H;
    try (apply (Hthread _ H)).
  - inversion H; subst. apply Hins.
  - unfold handle_disconnect in H. destruct (sessions !! session_id);
      inversion H; subst; [apply lookup_delete_ne; congruence | reflexivity].
  - unfold start_interview in H.
    destruct (sessions !! session_id) as [s|]; [|discriminate].
    destruct (is_running s); inversion H; subst; [reflexivity | apply Hins].
  - unfold handle_audio_chunk in H.
    destruct (sessions !! session_id) as [s|]; [|inversion H; reflexivity].
    destruct (negb (is_running s)); [inversion H; reflexivity|].
    destruct (negb (PyStr.truthy (default "" audio)));
      [inversion H; reflexivity|].
    destruct (b64decode (default "" audio)); [|discriminate].
    inversion H; subst. apply Hins.
  - unfold handle_ai_speech_ended in H.
    destruct (sessions !! session_id) as [s|]; [|inversion H; reflexivity].
    destruct (is_running s); inversion H; subst; [apply Hins | reflexivity].
  - unfold stop_interview in H.
    destruct (sessions !! session_id) as [s|]; [|inversion H; reflexivity].
    destruct (is_running s); inversion H; subst; [apply Hins | reflexivity].
Qed.

(** Audio is taken only when the session is running and its processor is
    running: otherwise the chunk is dropped, nothing is sent and nothing
    changes, whatever the chunk holds. *)
Theorem audio_needs_running_session_and_processor
    (now : Stt.time) (session_id : string) (audio : option string)
    (sessions : gmap string session) (s : session) (p : Stt.processor)
    (bytes : Stt.chunk) :
  sessions !! session_id = Some s ->
  audio_processor s = Some p ->
  b64decode (default "" audio) = Some bytes ->
  is_running s = false \/ Stt.is_running p = false ->
  exists sessions',
    handle_audio_chunk b64decode now session_id audio sessions
    = Some (sessions', [])
    /\ (sessions' !! session_id ≫= audio_processor) = Some p.
Proof.
  intros Hs Hp Hb Hoff. unfold handle_audio_chunk. rewrite Hs.
  destruct (is_running s) eqn:Er; cbn [negb].
  - destruct Hoff as [Hoff|Hoff]; [discriminate|].
    destruct (negb (PyStr.truthy (default "" audio))).
    + eexists. split; [reflexivity|]. rewrite Hs. cbn. exact Hp.
    + rewrite Hb. eexists. split; [reflexivity|].
      rewrite lookup_insert_eq. cbn. rewrite Hp. cbn.
      unfold Stt.add_audio. now rewrite Hoff.
  - eexists. split; [reflexivity|]. rewrite Hs. cbn. exact Hp.
Qed.

(** Audio that arrives after [start_interview] and before the first
    [ai_speech_ended] is dropped, the processor not being started yet; after
    [ai_speech_ended] has started the processor the same chunk is queued. *)
Theorem audio_is_taken_after_first_playback
    (sessions : gmap string session) (session_id : string) (s : session)
    (data : start_data) (t1 t2 t3 : Stt.time) (audio : string)
    (bytes : Stt.chunk) :
  sessions !! session_id = Some s ->
  is_running s = false ->
  PyStr.truthy audio = true ->
  b64decode audio = Some bytes ->
  (exists sessions' out,
      serve_all [(t1, session_id, StartInterview data);
                 (t2, session_id, AudioChunk (Some audio))] sessions
      = Some (sessions', out)
      /\ (sessions' !! session_id ≫= audio_processor) = Some (Stt.init t1))
  /\ (exists sessions' out,
         serve_all [(t1, session_id, StartInterview data);
                    (t2, session_id, AiSpeechEnded);
                    (t3, session_id, AudioChunk (Some audio))] sessions
         = Some (sessions', out)
         /\ (sessions' !! session_id ≫= audio_processor)
            = Some (Stt.add_audio t3 bytes (Stt.start (Stt.init t1)))
         /\ Stt.audio_queue (Stt.add_audio t3 bytes (Stt.start (Stt.init t1)))
            = [Some bytes]).
Proof.
  intros Hs Hr Ha Hb. split.
  - cbn [serve handle]. unfold start_interview. rewrite Hs, Hr.
    unfold handle_audio_chunk. rewrite lookup_insert_eq.
    cbn [is_running negb from_option]. unfold id. rewrite Ha. cbn [negb].
    rewrite Hb. do 2 eexists. split; [reflexivity|].
    rewrite lookup_insert_eq. reflexivity.
  - cbn [serve handle]. unfold start_interview. rewrite Hs, Hr.
    unfold handle_ai_speech_ended. rewrite lookup_insert_eq.
    cbn [is_running]. unfold handle_audio_chunk. rewrite lookup_insert_eq.
    cbn [is_running on_processor negb from_option]. unfold id. rewrite Ha.
    cbn [negb]. rewrite Hb. do 2 eexists. split; [reflexivity|].
    rewrite lookup_insert_eq. split; reflexivity.
Qed.

End System.

Lemma flags_agree_in_every_session_witness :
  Events.flags_agree Example.served_session.
Proof.
  apply (flags_agree_in_every_session Example.plain_re_sub
           Example.reject_json Example.silent_speech Example.prose_reply
           Example.first_choice Example.opening Example.decode_all
           Example.requests Example.served_sessions
           (default [] (snd <$> Example.served)) "sid"
           Example.served_session); vm_compute; reflexivity.
Defined.

Lemma history_in_order_in_every_session_witness :
  Events.history_agrees Example.served_session.
Proof.
  apply (history_in_order_in_every_session Example.plain_re_sub
           Example.reject_json Example.silent_speech Example.prose_reply
           Example.first_choice Example.opening Example.decode_all
           Example.requests Example.served_sessions
           (default [] (snd <$> Example.served)) "sid"
           Example.served_session); vm_compute; reflexivity.
Defined.

Lemma request_leaves_other_sessions_witness :
  (<["sid" := Events.new_session]> Example.one_session) !! "other"
  = Example.one_session !! "other".
Proof.
  apply (request_leaves_other_sessions Example.plain_re_sub
           Example.reject_json Example.silent_speech Example.prose_reply
           Example.first_choice Example.opening Example.decode_all
           1000 "sid" "other" Events.Connect Example.one_session
           (<["sid" := Events.new_session]> Example.one_session)
           [Events.Info "Connected to server"]);
    [reflexivity | discriminate].
Defined.

Lemma audio_needs_running_session_and_processor_witness :
  exists sessions',
    Events.handle_audio_chunk Example.decode_all 5000 "sid" (Some "AQ==")
      {[ "sid" := {| Session.is_running := true;
                     Session.chat_history := [];
                     Session.audio_processor := Some (Stt.init 0) |} ]}
    = Some (sessions', [])
    /\ (sessions' !! "sid" ≫= Session.audio_processor) = Some (Stt.init 0).
Proof.
  apply (audio_needs_running_session_and_processor Example.decode_all 5000
           "sid" (Some "AQ==")
           {[ "sid" := {| Session.is_running := true;
                          Session.chat_history := [];
                          Session.audio_processor := Some (Stt.init 0) |} ]}
           {| Session.is_running := true; Session.chat_history := [];
              Session.audio_processor := Some (Stt.init 0) |}
           (Stt.init 0) [x01%byte]);
    first [reflexivity | right; reflexivity].
Defined.

Lemma audio_is_taken_after_first_playback_witness :
  exists sessions' out,
    Events.serve Example.plain_re_sub Example.reject_json
      Example.silent_speech Example.prose_reply Example.first_choice
      Example.opening Example.decode_all
      [(2000, "sid", Events.StartInterview Example.payload);
       (2500, "sid", Events.AudioChunk (Some "AQ=="))]
      {[ "sid" := Events.new_session ]}
    = Some (sessions', out)
    /\ (sessions' !! "sid" ≫= Session.audio_processor)
       = Some (Stt.init 2000).
Proof.
  apply (audio_is_taken_after_first_playback Example.plain_re_sub
           Example.reject_json Example.silent_speech Example.prose_reply
           Example.first_choice Example.opening Example.decode_all
           {[ "sid" := Events.new_session ]} "sid" Events.new_session
           Example.payload 2000 2500 9000 "AQ==" [x01%byte]);
    reflexivity.
Defined.

Lemma restart_counter_grows_to_ceiling_witness :
  let failing := {| Stt.ends_with := Stt.UnknownIterating; Stt.lasts := 3000;
                    Stt.stopped := false |} in
  Stt.restart_count
    (fst (Stt.stream_audio [failing; failing] 1000000 0
                           (Stt.start (Stt.init 0))))
  <= Stt.max_restarts.
Proof.
  intros failing.
  apply (restart_counter_grows_to_ceiling [failing; failing] 1000000 0
           (Stt.start (Stt.init 0))).
  vm_compute. discriminate.
Defined.

Lemma strip_fences_takes_fences_off_witness :
  Flow.strip_fences ("```" +:+ " {} " +:+ "```") = PyStr.strip " {} ".
Proof.
  apply (proj1 (proj2 strip_fences_takes_fences_off) " {} "). reflexivity.
Defined.

Lemma fallback_pairs_take_own_score_witness :
  Report.fallback_pairs_of
    [Session.metadata "r" "j" "technical";
     Session.evaluated_question "Q1" "" 0; Session.answer "A1";
     Session.evaluated_question "Q2" "good" 7; Session.answer "A2"]
  = [ {| Report.fb_question := "Q1"; Report.fb_answer := "A1";
         Report.fb_score := 0 |};
      {| Report.fb_question := "Q2"; Report.fb_answer := "A2";
         Report.fb_score := 7 |} ].
Proof.
  apply (proj2 fallback_pairs_take_own_score
           (Session.metadata "r" "j" "technical") "Q1" "" "A1" "Q2" "good"
           "A2" 0 7); reflexivity.
Defined.
